(** * Schema-driven document generator and bounded key cache (load_test.py)

    A shallow embedding of [src/load_test.py]: the [SchemaField] descriptor,
    the [SchemaGenerator] (per-field counters, cyclic pools, seeded prefix),
    and the four tasks of [MongoSampleUser] with its cache of record ids.

    Python objects are embedded as values of [pyval]; mutation of [self] and
    of the module-level random generator is explicit state passing through a
    state-and-exception monad in which a raised exception keeps the
    mutations made before it, as in Python. *)

From Stdlib Require Import ZArith NArith List String Ascii Bool Lia.
From Stdlib Require Import Sorting.Permutation Sorting.Sorted.
Import ListNotations.

Local Open Scope string_scope.
Local Open Scope list_scope.
Local Open Scope Z_scope.

#[local] Set Warnings "-register-all".

(** ** Python values *)

(** The values that [json.load] and the generator produce.  JSON objects
    have string keys.  JSON numbers with a fraction or an exponent (Python
    [float]) are not represented.  [PyDatetime] stands for the
    [datetime] objects the faker returns, identified by a timestamp. *)
Inductive pyval : Type :=
| PyNone
| PyBool (b : bool)
| PyInt (z : Z)
| PyStr (s : string)
| PyList (l : list pyval)
| PyDict (d : list (string * pyval))
| PyDatetime (t : Z).

(** The built-in exception classes the modelled code can raise. *)
Inductive exn : Type :=
| TypeError
| KeyError
| IndexError
| AttributeError
| ValueError
| RuntimeError
| ValidationError
| OverflowError.

Inductive result (A : Type) : Type :=
| Ok (a : A)
| Raise (e : exn).
Arguments Ok {A} a.
Arguments Raise {A} e.

(** [bool(v)] and the test of [if v:]. *)
Definition truthy (v : pyval) : bool :=
  match v with
  | PyNone => false
  | PyBool b => b
  | PyInt z => negb (z =? 0)
  | PyStr s => match s with EmptyString => false | _ => true end
  | PyList l => match l with [] => false | _ => true end
  | PyDict d => match d with [] => false | _ => true end
  | PyDatetime _ => true
  end.

(** [v is None] *)
Definition is_none (v : pyval) : bool :=
  match v with
  | PyNone => true
  | _ => false
  end.

(** [v == 'literal'] for a string literal: only a [str] can be equal. *)
Definition eq_str (v : pyval) (lit : string) : bool :=
  match v with
  | PyStr s => String.eqb s lit
  | _ => false
  end.

(** Lists and dicts are unhashable and cannot be dictionary keys. *)
Definition hashable (v : pyval) : bool :=
  match v with
  | PyList _ | PyDict _ => false
  | _ => true
  end.

(** Equality of hashable keys.  [bool] is a subclass of [int]:
    [True == 1] and [False == 0], with equal hashes. *)
Definition key_eqb (a b : pyval) : bool :=
  match a, b with
  | PyNone, PyNone => true
  | PyBool x, PyBool y => Bool.eqb x y
  | PyBool x, PyInt y | PyInt y, PyBool x => (if x then 1 else 0) =? y
  | PyInt x, PyInt y => x =? y
  | PyStr x, PyStr y => String.eqb x y
  | PyDatetime x, PyDatetime y => x =? y
  | _, _ => false
  end.

(** ** The state-and-exception monad *)

Definition M (S A : Type) : Type := S -> result A * S.

Definition ret {S A} (a : A) : M S A := fun s => (Ok a, s).

Definition raise {S A} (e : exn) : M S A := fun s => (Raise e, s).

Definition bind {S A B} (m : M S A) (k : A -> M S B) : M S B :=
  fun s =>
    match m s with
    | (Ok a, s') => k a s'
    | (Raise e, s') => (Raise e, s')
    end.

Definition get {S} : M S S := fun s => (Ok s, s).

Definition put {S} (s : S) : M S unit := fun _ => (Ok tt, s).

Definition modify {S} (f : S -> S) : M S unit := fun s => (Ok tt, f s).

(** A pure computation that may raise. *)
Definition lift {S A} (r : result A) : M S A := fun s => (r, s).

Declare Scope py_scope.
Delimit Scope py_scope with py.
Notation "x <- m ;; k" := (bind m (fun x => k))
  (at level 61, m at next level, right associativity) : py_scope.
Notation "m ;;; k" := (bind m (fun _ => k))
  (at level 61, right associativity) : py_scope.
Local Open Scope py_scope.

(** [for x in xs: body x], stopping at the first exception. *)
Fixpoint for_each {S A} (xs : list A) (body : A -> M S unit) : M S unit :=
  match xs with
  | [] => ret tt
  | x :: xs' => body x ;;; for_each xs' body
  end.

(** [[f x for x in xs]], evaluated left to right. *)
Fixpoint comprehension {S A B} (xs : list A) (f : A -> M S B) : M S (list B) :=
  match xs with
  | [] => ret []
  | x :: xs' => y <- f x ;; ys <- comprehension xs' f ;; ret (y :: ys)
  end.

(** ** Dictionaries

    A [dict] keeps its keys in order of first insertion; assigning to a key
    that is already present keeps the key's position. *)
Module Dict.

Definition t (V : Type) : Type := list (pyval * V).

Definition empty {V} : t V := [].

Fixpoint find {V} (k : pyval) (d : t V) : option V :=
  match d with
  | [] => None
  | (k', v) :: d' => if key_eqb k' k then Some v else find k d'
  end.

Fixpoint store {V} (k : pyval) (v : V) (d : t V) : t V :=
  match d with
  | [] => [(k, v)]
  | (k', v') :: d' =>
      if key_eqb k' k then (k', v) :: d' else (k', v') :: store k v d'
  end.

(** [d[k]] *)
Definition getitem {V} (d : t V) (k : pyval) : result V :=
  if hashable k then
    match find k d with
    | Some v => Ok v
    | None => Raise KeyError
    end
  else Raise TypeError.

(** [d[k] = v] *)
Definition setitem {V} (d : t V) (k : pyval) (v : V) : result (t V) :=
  if hashable k then Ok (store k v d) else Raise TypeError.

(** [d.get(k)] *)
Definition get_or_none (d : t pyval) (k : pyval) : result pyval :=
  if hashable k then
    match find k d with
    | Some v => Ok v
    | None => Ok PyNone
    end
  else Raise TypeError.

End Dict.

(** ** The random module

    Every draw of the module-level generator reads the next cell of a tape.
    [random.randint] and [random.choice] both go through [_randbelow]; the
    tape cell is reduced into the requested range.  [random.random()] is
    [k / 2^53] for a 53-bit integer [k]. *)
Record Tape : Type := { cells : nat -> N; head : nat }.

Definition next_cell (t : Tape) : N * Tape :=
  (cells t (head t), {| cells := cells t; head := S (head t) |}).

Module random.

Definition _randbelow (n : Z) : M Tape Z :=
  fun t => let (c, t') := next_cell t in (Ok (Z.of_N c mod n), t').

(** [random.randint(a, b)] *)
Definition randint (a b : Z) : M Tape Z :=
  if b - a + 1 <=? 0 then raise ValueError
  else r <- _randbelow (b - a + 1) ;; ret (a + r).

(** [random.choice(seq)] on a list: [seq[_randbelow(len(seq))]]. *)
Definition choice_list {A} (l : list A) : M Tape A :=
  match l with
  | [] => raise IndexError
  | x :: _ =>
      i <- _randbelow (Z.of_nat (List.length l)) ;;
      ret (nth (Z.to_nat i) l x)
  end.

(** [random.choice(seq)] on any value.  A string yields one of its
    characters; a dict is indexed with an integer, which is not one of
    its string keys; a value without a length is a [TypeError]. *)
Definition choice (seq : pyval) : M Tape pyval :=
  match seq with
  | PyList l => choice_list l
  | PyStr s =>
      c <- choice_list (list_ascii_of_string s) ;;
      ret (PyStr (String c EmptyString))
  | PyDict d =>
      match d with
      | [] => raise IndexError
      | _ => _ <- _randbelow (Z.of_nat (List.length d)) ;; raise KeyError
      end
  | _ => raise TypeError
  end.

(** The numerator [k] of [random.random() = k / 2^53]. *)
Definition random53 : M Tape Z :=
  fun t => let (c, t') := next_cell t in (Ok (Z.of_N c mod 2 ^ 53), t').

(** The double nearest to [0.8] is [7205759403792794 / 2^53], so
    [random.random() < 0.8] compares numerators. *)
Definition below_0_8 (k : Z) : bool := k <? 7205759403792794.

(** Rounding of a positive integer to 53 significant bits, to nearest
    with ties to even: the rounding of a double product. *)
Definition round53 (p : Z) : Z :=
  let bits := Z.log2 p + 1 in
  if bits <=? 53 then p
  else
    let s := bits - 53 in
    let q := Z.shiftr p s in
    let r := Z.land p (Z.ones s) in
    let half := Z.shiftl 1 (s - 1) in
    let up := ((half <? r) || ((half =? r) && Z.odd q))%bool in
    Z.shiftl (if up then q + 1 else q) s.

(** [floor(random() * n)] for [random() = k / 2^53] and [n] a small
    positive integer converted to a double. *)
Definition floor_scaled (k n : Z) : Z := Z.shiftr (round53 (k * n)) 53.

(** [random.choices(population, k=count)] over the characters of a
    string, without weights: [count] independent draws of
    [population[floor(random() * len(population))]]. *)
Fixpoint choices (population : string) (count : nat) : M Tape (list ascii) :=
  match count with
  | O => ret []
  | S count' =>
      k <- random53 ;;
      match String.get (Z.to_nat (floor_scaled k (Z.of_nat (String.length population))))
                       population with
      | Some c => cs <- choices population count' ;; ret (c :: cs)
      | None => raise IndexError
      end
  end.

End random.

(** [''.join(chars)] *)
Definition join (cs : list ascii) : string := string_of_list_ascii cs.

(** ** Double-ended queues of integers *)
Module deque.

(** The largest C [ssize_t] of a 64-bit build of CPython
    ([sys.maxsize]). *)
Definition PY_SSIZE_T_MAX : Z := 2 ^ 63 - 1.

(** Whether a Python integer converts to a C [ssize_t]. *)
Definition fits_ssize_t (n : Z) : bool :=
  (- PY_SSIZE_T_MAX - 1 <=? n) && (n <=? PY_SSIZE_T_MAX).

(** The deque after a rotation of [n] steps to the right, to the left
    when [n] is negative; an empty deque is left as it is. *)
Definition rotated (n : Z) (d : list Z) : list Z :=
  match d with
  | [] => []
  | _ =>
      let len := Z.of_nat (List.length d) in
      let cut := Z.to_nat ((len - n mod len) mod len) in
      skipn cut d ++ firstn cut d
  end.

(** [d.rotate(n)]: the count is first converted to a C [ssize_t], which
    raises [OverflowError] for an integer that does not fit, also on an
    empty deque; then the deque is rotated. *)
Definition rotate (n : Z) (d : list Z) : result (list Z) :=
  if fits_ssize_t n then Ok (rotated n d) else Raise OverflowError.

(** [d[0]] *)
Definition front (d : list Z) : result Z :=
  match d with
  | [] => Raise IndexError
  | x :: _ => Ok x
  end.

End deque.

(** [range(n)] for an integer [n], as a list. *)
Definition range (n : Z) : list Z := map Z.of_nat (seq 0 (Z.to_nat n)).

(** The argument of [range] must be an integer; [bool] is one. *)
Definition as_index (v : pyval) : result Z :=
  match v with
  | PyInt z => Ok z
  | PyBool b => Ok (if b then 1 else 0)
  | _ => Raise TypeError
  end.

(** ** The outside world of one worker process *)

Definition Document : Type := Dict.t pyval.

Inductive Target : Type := Primary | Secondary.

(** Calls made on the collections of the store client. *)
Inductive StoreCall : Type :=
| InsertOne (target : Target) (doc : Document)
| InsertMany (target : Target) (docs : list Document)
| FindOne (target : Target) (filter : pyval)
| Aggregate (target : Target) (pipeline : list pyval).

(** The state outside the objects of the program: the module-level random
    generator, the faker's own generator, the calls made on the store so
    far (oldest first) and what the store answers to an aggregation. *)
Record World : Type := {
  rng : Tape;
  faker : Tape;
  calls : list StoreCall;
  aggregate_reply : list pyval -> list pyval
}.

Definition with_rng (w : World) (t : Tape) : World :=
  {| rng := t; faker := faker w; calls := calls w;
     aggregate_reply := aggregate_reply w |}.

Definition with_faker (w : World) (t : Tape) : World :=
  {| rng := rng w; faker := t; calls := calls w;
     aggregate_reply := aggregate_reply w |}.

Definition with_calls (w : World) (cs : list StoreCall) : World :=
  {| rng := rng w; faker := faker w; calls := cs;
     aggregate_reply := aggregate_reply w |}.

(** Run a computation on a component of the state. *)
Definition zoom {S T A} (proj : S -> T) (inj : S -> T -> S) (m : M T A) : M S A :=
  fun s => let (r, t') := m (proj s) in (r, inj s t').

(** A draw of the [random] module. *)
Definition draw {A} (m : M Tape A) : M World A := zoom rng with_rng m.

(** [faker.date_time_between(start_date='-2y', end_date='now')]: the faker
    is an external collaborator; the datetime it returns is identified by
    the next cell of its tape. *)
Definition date_time_between : M World pyval :=
  zoom faker with_faker
    (fun t => let (c, t') := next_cell t in (Ok (PyDatetime (Z.of_N c)), t')).

Definition emit (c : StoreCall) : M World unit :=
  modify (fun w => with_calls w (calls w ++ [c])).

Definition on_world {O A} (m : M World A) : M (O * World) A :=
  zoom snd (fun s w => (fst s, w)) m.

Definition on_self {O A} (m : M O A) : M (O * World) A :=
  zoom fst (fun s o => (o, snd s)) m.

(** ** class SchemaField *)
Record SchemaField : Type := {
  name : pyval;
  ftype : pyval;            (* 'int' | 'string' | 'date' *)
  allowed_values : pyval;
  unique : bool;
  skewed : bool;
  unique_range : pyval
}.

(** ** The optional pydantic validation

    [pydantic] is an external library.  What the program hands to it is
    modelled; what [root_validator] and [create_model] make of it is a
    parameter. *)
Inductive pytype : Type := py_int | py_str | py_datetime.

(** A model class, called with the document as keyword arguments. *)
Definition Model : Type := Document -> result unit.

(** What [root_validator(pre=True)] returns for a function: the validator
    that [create_model] is given. *)
Definition Validator : Type := Document -> result Document.

(** [HAS_PYDANTIC]: the library when the import succeeded.
    [root_validator] decorates the checking function, and may itself
    raise; [create_model] receives the decorated validator, if any, and
    the field definitions. *)
Record Pydantic : Type := {
  root_validator : (Document -> result Document) -> result Validator;
  create_model : option Validator -> Dict.t pytype -> result Model
}.

(** [set(v)]: the distinct elements of an iterable of hashable values. *)
Fixpoint set_add (x : pyval) (s : list pyval) : list pyval :=
  match s with
  | [] => [x]
  | y :: s' => if key_eqb y x then s else y :: set_add x s'
  end.

Fixpoint set_of_list (l : list pyval) (acc : list pyval) : result (list pyval) :=
  match l with
  | [] => Ok acc
  | x :: l' => if hashable x then set_of_list l' (set_add x acc) else Raise TypeError
  end.

Definition py_set (v : pyval) : result (list pyval) :=
  match v with
  | PyList l => set_of_list l []
  | PyStr s =>
      set_of_list (map (fun c => PyStr (String c EmptyString)) (list_ascii_of_string s)) []
  | PyDict d => set_of_list (map (fun kv => PyStr (fst kv)) d) []
  | _ => Raise TypeError
  end.

(** [v in s] for a set [s]: [v] is hashed first. *)
Definition set_mem (v : pyval) (s : list pyval) : result bool :=
  if hashable v then Ok (existsb (key_eqb v) s) else Raise TypeError.

(** Whether [sorted] can order the elements: two elements are compared
    with [<], defined between numbers, between strings and between
    datetimes; a list of at most one element needs no comparison. *)
Definition kind (v : pyval) : nat :=
  match v with
  | PyBool _ | PyInt _ => 1
  | PyStr _ => 2
  | PyDatetime _ => 3
  | _ => 0
  end.

Definition sortable (l : list pyval) : bool :=
  match l with
  | [] | [_] => true
  | x :: l' => negb (kind x =? 0)%nat && forallb (fun y => (kind y =? kind x)%nat) l'
  end.

Definition all_str_keys {V} (d : Dict.t V) : bool :=
  forallb (fun kv => match fst kv with PyStr _ => true | _ => false end) d.

(** ** class SchemaGenerator *)
Module SchemaGenerator.

Record t : Type := {
  spec : list SchemaField;
  _unique_counters : Dict.t Z;
  _unique_range_pools : Dict.t (list Z);
  _seed : Z;
  _validator_model : option Model
}.

Definition set_counters (g : t) (c : Dict.t Z) : t :=
  {| spec := spec g; _unique_counters := c;
     _unique_range_pools := _unique_range_pools g; _seed := _seed g;
     _validator_model := _validator_model g |}.

Definition set_pools (g : t) (p : Dict.t (list Z)) : t :=
  {| spec := spec g; _unique_counters := _unique_counters g;
     _unique_range_pools := p; _seed := _seed g;
     _validator_model := _validator_model g |}.

(** The first loop of [__init__] over the fields. *)
Fixpoint init_fields (fields : list SchemaField) (seed : Z)
         (counters : Dict.t Z) (pools : Dict.t (list Z))
  : result (Dict.t Z * Dict.t (list Z)) :=
  match fields with
  | [] => Ok (counters, pools)
  | field :: rest =>
      match (if unique field then Dict.setitem counters (name field) 0
             else Ok counters) with
      | Raise e => Raise e
      | Ok counters' =>
          if truthy (unique_range field) then
            match as_index (unique_range field) with
            | Raise e => Raise e
            | Ok rng =>
                (* Make a rotated deque to vary starting points across workers *)
                match deque.rotate (seed mod rng) (range rng) with
                | Raise e => Raise e
                | Ok pool =>
                    match Dict.setitem pools (name field) pool with
                    | Raise e => Raise e
                    | Ok pools' => init_fields rest seed counters' pools'
                    end
                end
            end
          else init_fields rest seed counters' pools
      end
  end.

(** The loop of [__init__] that collects the field definitions and the
    allowed sets for the validation model. *)
Fixpoint collect_defs (fields : list SchemaField)
         (field_defs : Dict.t pytype) (allowed_map : Dict.t (list pyval))
  : result (Dict.t pytype * Dict.t (list pyval)) :=
  match fields with
  | [] => Ok (field_defs, allowed_map)
  | field :: rest =>
      let py_type :=
        if eq_str (ftype field) "int" then py_int
        else if eq_str (ftype field) "string" then py_str
        else py_datetime in
      match Dict.setitem field_defs (name field) py_type with
      | Raise e => Raise e
      | Ok field_defs' =>
          if truthy (allowed_values field) then
            match py_set (allowed_values field) with
            | Raise e => Raise e
            | Ok allowed =>
                match Dict.setitem allowed_map (name field) allowed with
                | Raise e => Raise e
                | Ok allowed_map' => collect_defs rest field_defs' allowed_map'
                end
            end
          else collect_defs rest field_defs' allowed_map
      end
  end.

(** The closure [_check_allowed] of [__init__]. *)
Fixpoint _check_allowed (allowed_map : Dict.t (list pyval)) (values : Document)
  : result unit :=
  match allowed_map with
  | [] => Ok tt
  | (k, allowed) :: rest =>
      match Dict.find k values with
      | Some v =>
          match set_mem v allowed with
          | Raise e => Raise e
          | Ok true => _check_allowed rest values
          | Ok false => if sortable allowed then Raise ValueError else Raise TypeError
          end
      | None => _check_allowed rest values
      end
  end.

Definition check_allowed (allowed_map : Dict.t (list pyval)) (values : Document)
  : result Document :=
  match _check_allowed allowed_map values with
  | Ok _ => Ok values
  | Raise e => Raise e
  end.

Definition build_validator (pydantic : option Pydantic) (fields : list SchemaField)
  : result (option Model) :=
  match pydantic with
  | None => Ok None
  | Some lib =>
      match collect_defs fields Dict.empty Dict.empty with
      | Raise e => Raise e
      | Ok (field_defs, allowed_map) =>
          match (match allowed_map with
                 | [] => Ok None
                 | _ =>
                     match root_validator lib (check_allowed allowed_map) with
                     | Raise e => Raise e
                     | Ok validator => Ok (Some validator)
                     end
                 end) with
          | Raise e => Raise e
          | Ok validators =>
              (* keyword arguments must be strings *)
              if all_str_keys field_defs then
                match create_model lib validators field_defs with
                | Raise e => Raise e
                | Ok model => Ok (Some model)
                end
              else Raise TypeError
          end
      end
  end.

(** [SchemaGenerator(spec, faker)] *)
Definition __init__ (pydantic : option Pydantic) (fields : list SchemaField)
  : M World t :=
  (* Seed to reduce collision risk across distributed workers *)
  seed <- draw (random.randint 1 1000000000) ;;
  cp <- lift (init_fields fields seed Dict.empty Dict.empty) ;;
  model <- lift (build_validator pydantic fields) ;;
  ret {| spec := fields; _unique_counters := fst cp;
         _unique_range_pools := snd cp; _seed := seed;
         _validator_model := model |}.

Definition alphabet : string := "ABCDEFGHIJKLMNOPQRSTUVWXYZ0123456789".

Definition _gen_value (field : SchemaField) : M (t * World) pyval :=
  (* Allowed values take precedence *)
  if truthy (allowed_values field) then
    on_world (draw (random.choice (allowed_values field)))
  else if eq_str (ftype field) "int" then
    if unique field then
      self <- on_self get ;;
      c <- lift (Dict.getitem (_unique_counters self) (name field)) ;;
      counters <- lift (Dict.setitem (_unique_counters self) (name field) (c + 1)) ;;
      on_self (put (set_counters self counters)) ;;;
      c' <- lift (Dict.getitem counters (name field)) ;;
      (* Add large seeded prefix to lower collision probability across workers *)
      ret (PyInt (_seed self * 1000000 + c'))
    else if truthy (unique_range field) then
      self <- on_self get ;;
      pool <- lift (Dict.getitem (_unique_range_pools self) (name field)) ;;
      val <- lift (deque.front pool) ;;
      pool' <- lift (deque.rotate (-1) pool) ;;
      pools <- lift (Dict.setitem (_unique_range_pools self) (name field) pool') ;;
      on_self (put (set_pools self pools)) ;;;
      ret (PyInt val)
    else if skewed field then
      (* 80/20 skew: 80% from a small hot set, 20% spread wider *)
      k <- on_world (draw random.random53) ;;
      if random.below_0_8 k then
        r <- on_world (draw (random.randint 0 9)) ;; ret (PyInt r)
      else
        r <- on_world (draw (random.randint 10 10000)) ;; ret (PyInt r)
    else
      r <- on_world (draw (random.randint 0 10000)) ;; ret (PyInt r)
  else if eq_str (ftype field) "string" then
    (* Generic alphanumeric if not enumerated *)
    cs <- on_world (draw (random.choices alphabet 8)) ;;
    ret (PyStr (join cs))
  else if eq_str (ftype field) "date" then
    on_world date_time_between
  else
    (* Fallback *)
    ret PyNone.

(** The dict comprehension of [generate]: each value is generated, then
    stored under the field's name. *)
Fixpoint gen_fields (fields : list SchemaField) (doc : Document)
  : M (t * World) Document :=
  match fields with
  | [] => ret doc
  | f :: rest =>
      v <- _gen_value f ;;
      doc' <- lift (Dict.setitem doc (name f) v) ;;
      gen_fields rest doc'
  end.

Definition generate : M (t * World) Document :=
  self <- on_self get ;;
  doc <- gen_fields (spec self) Dict.empty ;;
  match _validator_model self with
  | Some model =>
      (* Validate types & enumerations *)
      if all_str_keys doc then lift (model doc) ;;; ret doc
      else raise TypeError
  | None => ret doc
  end.

End SchemaGenerator.

(** ** settings.DEFAULTS

    The defaults of [settings.py]; the environment may override each of
    them.  The tasks below take the value of
    [int(DEFAULTS['DOCS_PER_BATCH'])] as an argument. *)
Module settings.
Definition DOCS_PER_BATCH : Z := 1000.
Definition INSERT_WEIGHT : Z := 0.
Definition FIND_WEIGHT : Z := 0.
Definition BULK_INSERT_WEIGHT : Z := 10.
Definition AGG_PIPE_WEIGHT : Z := 0.
End settings.

(** number of cache entries for queries *)
Definition IDS_TO_CACHE : Z := 1000.

(** [pymongo.DESCENDING] *)
Definition DESCENDING : Z := -1.

(** [l[i] = v] on a list. *)
Fixpoint list_setitem {A} (l : list A) (i : nat) (v : A) : result (list A) :=
  match l, i with
  | [], _ => Raise IndexError
  | _ :: l', O => Ok (v :: l')
  | x :: l', S i' =>
      match list_setitem l' i' v with
      | Ok l'' => Ok (x :: l'')
      | Raise e => Raise e
      end
  end.

(** [len(l)] *)
Definition len {A} (l : list A) : Z := Z.of_nat (List.length l).

(** ** class MongoSampleUser *)
Module MongoSampleUser.

Record t : Type := {
  id_cache : list pyval;
  generator : option SchemaGenerator.t
}.

Definition set_id_cache (u : t) (c : list pyval) : t :=
  {| id_cache := c; generator := generator u |}.

Definition set_generator (u : t) (g : option SchemaGenerator.t) : t :=
  {| id_cache := id_cache u; generator := g |}.

(** [MongoSampleUser(environment)] *)
Definition __init__ : t := {| id_cache := []; generator := None |}.

(** [item.get(key)] on a parsed JSON object. *)
Fixpoint item_find (key : string) (item : list (string * pyval)) : option pyval :=
  match item with
  | [] => None
  | (k, v) :: item' => if String.eqb k key then Some v else item_find key item'
  end.

Definition item_get (key : string) (item : list (string * pyval)) : pyval :=
  match item_find key item with
  | Some v => v
  | None => PyNone
  end.

(** [bool(item.get(key)) if key in item else False] *)
Definition item_flag (key : string) (item : list (string * pyval)) : bool :=
  match item_find key item with
  | Some v => truthy v
  | None => false
  end.

(** What [for item in raw] iterates over: the elements of a list, the
    keys of an object, the characters of a string. *)
Definition iterate (raw : pyval) : result (list pyval) :=
  match raw with
  | PyList l => Ok l
  | PyDict d => Ok (map (fun kv => PyStr (fst kv)) d)
  | PyStr s => Ok (map (fun c => PyStr (String c EmptyString)) (list_ascii_of_string s))
  | _ => Raise TypeError
  end.

(** The [SchemaField(...)] built from one descriptor. *)
Definition field_of_item (item : list (string * pyval)) : SchemaField :=
  {| name := item_get "name" item;
     ftype := item_get "type" item;
     allowed_values := item_get "allowed_values" item;
     unique := item_flag "unique" item;
     skewed := item_flag "skewed" item;
     unique_range := item_get "unique_range" item |}.

(** The loop of [_load_schema]; only a dict has a [get] method. *)
Fixpoint load_items (items : list pyval) : result (list SchemaField) :=
  match items with
  | [] => Ok []
  | PyDict item :: rest =>
      match load_items rest with
      | Ok fields => Ok (field_of_item item :: fields)
      | Raise e => Raise e
      end
  | _ :: _ => Raise AttributeError
  end.

(** [_load_schema], given the value [json.load] returned for
    [schema100.json]. *)
Definition _load_schema (raw : pyval) : result (list SchemaField) :=
  match iterate raw with
  | Ok items => load_items items
  | Raise e => Raise e
  end.

(** Run a method of the generator object held by the user. *)
Definition on_generator {A} (g : SchemaGenerator.t)
           (m : M (SchemaGenerator.t * World) A) : M (t * World) A :=
  zoom (fun s => (g, snd s))
       (fun s gw => (set_generator (fst s) (Some (fst gw)), snd gw)) m.

Definition generate_new_document : M (t * World) Document :=
  self <- on_self get ;;
  match generator self with
  | None => raise RuntimeError
  | Some g => on_generator g SchemaGenerator.generate
  end.

Definition pipeline : list pyval :=
  (* Count number of records per STATUS (enum in schema) *)
  let group_by :=
    PyDict [("$group",
             PyDict [("_id", PyStr "$STATUS");
                     ("total_records", PyDict [("$sum", PyInt 1)])])] in
  let set_columns := PyDict [("$set", PyDict [("STATUS", PyStr "$_id")])] in
  let unset_columns := PyDict [("$unset", PyList [PyStr "_id"])] in
  let order_by := PyDict [("$sort", PyDict [("total_records", PyInt DESCENDING)])] in
  [group_by; set_columns; unset_columns; order_by].

(** Run an aggregation pipeline on a secondary node *)
Definition run_aggregation_pipeline : M (t * World) (list pyval) :=
  on_world (emit (Aggregate Secondary pipeline)) ;;;
  w <- on_world get ;;
  ret (aggregate_reply w pipeline).

(** [on_start]: the collections are obtained from the store client with
    an empty list of indexes; then the schema is loaded and the
    generator prepared. *)
Definition on_start (pydantic : option Pydantic) (raw : pyval) : M (t * World) unit :=
  fields <- lift (_load_schema raw) ;;
  g <- on_world (SchemaGenerator.__init__ pydantic fields) ;;
  on_self (modify (fun u => set_generator u (Some g))) ;;;
  on_self (modify (fun u => set_id_cache u [])).

(** Lines 199-205 of [insert_single_document]: cache the record id for
    queries if present. *)
Definition cache_rec_id (rec_id : pyval) : M (t * World) unit :=
  if negb (is_none rec_id) then
    self <- on_self get ;;
    if len (id_cache self) <? IDS_TO_CACHE then
      on_self (put (set_id_cache self (id_cache self ++ [rec_id])))
    else
      (* occasionally replace an entry to keep it fresh *)
      r <- on_world (draw (random.randint 0 9)) ;;
      if r =? 0 then
        i <- on_world (draw (random.randint 0 (len (id_cache self) - 1))) ;;
        cache <- lift (list_setitem (id_cache self) (Z.to_nat i) rec_id) ;;
        on_self (put (set_id_cache self cache))
      else ret tt
  else ret tt.

Definition insert_single_document : M (t * World) unit :=
  document <- generate_new_document ;;
  rec_id <- lift (Dict.get_or_none document (PyStr "RECON_RECORD_ID")) ;;
  cache_rec_id rec_id ;;;
  on_world (emit (InsertOne Primary document)).

Definition find_document : M (t * World) unit :=
  self <- on_self get ;;
  (* at least one insert needs to happen *)
  match id_cache self with
  | [] => ret tt
  | _ =>
      (* find a random document using an indexable field *)
      rec_id <- on_world (draw (random.choice_list (id_cache self))) ;;
      on_world (emit (FindOne Primary (PyDict [("RECON_RECORD_ID", rec_id)])))
  end.

(** The body of the loop of [insert_documents_bulk] over the generated
    documents. *)
Definition refresh_cache (d : Document) : M (t * World) unit :=
  rid <- lift (Dict.get_or_none d (PyStr "RECON_RECORD_ID")) ;;
  self <- on_self get ;;
  if negb (is_none rid) && (len (id_cache self) <? IDS_TO_CACHE) then
    on_self (put (set_id_cache self (id_cache self ++ [rid])))
  else ret tt.

Definition insert_documents_bulk (docs_per_batch : Z) : M (t * World) unit :=
  docs <- comprehension (range docs_per_batch) (fun _ => generate_new_document) ;;
  (* refresh cache with some of the generated IDs *)
  for_each docs refresh_cache ;;;
  on_world (emit (InsertMany Primary docs)).

End MongoSampleUser.

(** ** Notions used in the statements *)

(** [n] consecutive calls of the value generator for one field. *)
Definition gen_values (field : SchemaField) (n : nat)
  : M (SchemaGenerator.t * World) (list pyval) :=
  comprehension (repeat field n) SchemaGenerator._gen_value.

(** The seed drawn by [__init__] from the next cell of the tape. *)
Definition seed_of (w : World) : Z :=
  1 + Z.of_N (cells (rng w) (head (rng w))) mod 1000000000.

(** The same field with another [allowed_values]. *)
Definition set_allowed_values (f : SchemaField) (v : pyval) : SchemaField :=
  {| name := name f; ftype := ftype f; allowed_values := v;
     unique := unique f; skewed := skewed f; unique_range := unique_range f |}.

(** [d.get('RECON_RECORD_ID')] *)
Definition doc_key (d : Document) : pyval :=
  match Dict.find (PyStr "RECON_RECORD_ID") d with
  | Some v => v
  | None => PyNone
  end.

(** The keys of the documents that have one, in order. *)
Definition present_keys (docs : list Document) : list pyval :=
  filter (fun k => negb (is_none k)) (map doc_key docs).

(** What one round of the loop of the bulk task makes of the cache. *)
Definition refreshed (cache : list pyval) (d : Document) : list pyval :=
  if negb (is_none (doc_key d)) && (len cache <? IDS_TO_CACHE)
  then cache ++ [doc_key d] else cache.

(** ** The tasks under the scheduler *)

(** The four tasks the scheduler chooses from. *)
Inductive Task : Type :=
| TaskAggregate
| TaskInsert
| TaskFind
| TaskBulk (docs_per_batch : Z).

Definition run_task (task : Task) : M (MongoSampleUser.t * World) unit :=
  match task with
  | TaskAggregate => _ <- MongoSampleUser.run_aggregation_pipeline ;; ret tt
  | TaskInsert => MongoSampleUser.insert_single_document
  | TaskFind => MongoSampleUser.find_document
  | TaskBulk n => MongoSampleUser.insert_documents_bulk n
  end.

(** The tasks run one after the other; a task that raises is abandoned
    and the worker goes on with the next one. *)
Definition run_tasks (tasks : list Task) (s : MongoSampleUser.t * World)
  : MongoSampleUser.t * World :=
  fold_left (fun s task => snd (run_task task s)) tasks s.

(** ** Example inputs *)

Definition tape_of (l : list N) : Tape :=
  {| cells := fun i => nth i l 0%N; head := 0 |}.

Definition world_of (l : list N) : World :=
  {| rng := tape_of l; faker := tape_of []; calls := [];
     aggregate_reply := fun _ => [] |}.

Definition plain_field (n ty : string) : SchemaField :=
  {| name := PyStr n; ftype := PyStr ty; allowed_values := PyNone;
     unique := false; skewed := false; unique_range := PyNone |}.

(** A generator object in a given state, without validation model. *)
Definition generator_of (fields : list SchemaField) (seed : Z)
           (counters : Dict.t Z) (pools : Dict.t (list Z)) : SchemaGenerator.t :=
  {| SchemaGenerator.spec := fields;
     SchemaGenerator._unique_counters := counters;
     SchemaGenerator._unique_range_pools := pools;
     SchemaGenerator._seed := seed;
     SchemaGenerator._validator_model := None |}.

(** [{"name": "ID", "type": "int", "unique": true}] *)
Definition id_field : SchemaField :=
  {| name := PyStr "ID"; ftype := PyStr "int"; allowed_values := PyNone;
     unique := true; skewed := false; unique_range := PyNone |}.

(** [{"name": "ID", "type": "int", "unique": true, "allowed_values": [5]}] *)
Definition id_enum_field : SchemaField :=
  {| name := PyStr "ID"; ftype := PyStr "int"; allowed_values := PyList [PyInt 5];
     unique := true; skewed := false; unique_range := PyNone |}.

(** [{"name": "SLOT", "type": "int", "unique_range": 5}] *)
Definition slot_field : SchemaField :=
  {| name := PyStr "SLOT"; ftype := PyStr "int"; allowed_values := PyNone;
     unique := false; skewed := false; unique_range := PyInt 5 |}.

(** [{"name": "SLOT", "type": "string", "unique_range": 3}] *)
Definition slot_string_field : SchemaField :=
  {| name := PyStr "SLOT"; ftype := PyStr "string"; allowed_values := PyNone;
     unique := false; skewed := false; unique_range := PyInt 3 |}.

(** [{"name": "N", "type": "int", "allowed_values": []}] *)
Definition empty_enum_field : SchemaField :=
  {| name := PyStr "N"; ftype := PyStr "int"; allowed_values := PyList [];
     unique := false; skewed := false; unique_range := PyNone |}.

(** [{"name": "RECON_RECORD_ID", "type": "int", "unique": true}] *)
Definition rid_field : SchemaField :=
  {| name := PyStr "RECON_RECORD_ID"; ftype := PyStr "int"; allowed_values := PyNone;
     unique := true; skewed := false; unique_range := PyNone |}.

(** A worker whose cache is full, with a generator of record ids. *)
Definition full_user : MongoSampleUser.t :=
  {| MongoSampleUser.id_cache := repeat (PyInt 0) 1000;
     MongoSampleUser.generator :=
       Some (generator_of [rid_field] 42 [(PyStr "RECON_RECORD_ID", 0)] []) |}.

(** A worker with an empty cache and a generator of record ids. *)
Definition fresh_user : MongoSampleUser.t :=
  {| MongoSampleUser.id_cache := [];
     MongoSampleUser.generator :=
       Some (generator_of [rid_field] 42 [(PyStr "RECON_RECORD_ID", 0)] []) |}.


(** ** settings.py *)
Module SettingsModule.

(** The dictionary [DEFAULTS] as the module defines it. *)
Definition DEFAULTS : list (string * pyval) :=
  [("DB_NAME", PyStr "irec_performance_testing");
   ("COLLECTION_NAME", PyStr "recon");
   ("CLUSTER_URL", PyStr "mongodb+srv://");
   ("DOCS_PER_BATCH", PyInt 1000);
   ("INSERT_WEIGHT", PyInt 0);
   ("FIND_WEIGHT", PyInt 0);
   ("BULK_INSERT_WEIGHT", PyInt 10);
   ("AGG_PIPE_WEIGHT", PyInt 0)].

(** [d[key] = value] on a dict with string keys. *)
Fixpoint assign (key : string) (value : pyval) (d : list (string * pyval))
  : list (string * pyval) :=
  match d with
  | [] => [(key, value)]
  | (k, v) :: d' =>
      if String.eqb k key then (k, value) :: d' else (k, v) :: assign key value d'
  end.

(** One round of the loop of [init_defaults_from_env]: [os.environ.get]
    yields a string or [None], and only a non-empty string is truthy. *)
Definition override (environ : string -> option string)
           (d : list (string * pyval)) (key : string) : list (string * pyval) :=
  match environ key with
  | Some value => if truthy (PyStr value) then assign key (PyStr value) d else d
  | None => d
  end.

(** [init_defaults_from_env()], on the dictionary [defaults] and the
    process environment [environ]. *)
Definition init_defaults_from_env (environ : string -> option string)
           (defaults : list (string * pyval)) : list (string * pyval) :=
  fold_left (override environ) (map fst defaults) defaults.

End SettingsModule.

(** ** Notions used in the further statements *)

(** What a call of the value generator leaves alone: the schema, the seed
    and the validation model of the generator, the calls made on the store,
    and the counters and pools of every key other than [names]. *)
Definition untouched (names : list pyval) (s s' : SchemaGenerator.t * World) : Prop :=
  SchemaGenerator.spec (fst s') = SchemaGenerator.spec (fst s)
  /\ SchemaGenerator._seed (fst s') = SchemaGenerator._seed (fst s)
  /\ SchemaGenerator._validator_model (fst s') = SchemaGenerator._validator_model (fst s)
  /\ calls (snd s') = calls (snd s)
  /\ aggregate_reply (snd s') = aggregate_reply (snd s)
  /\ (forall k, forallb (fun n => negb (key_eqb n k)) names = true ->
                Dict.find k (SchemaGenerator._unique_counters (fst s'))
                = Dict.find k (SchemaGenerator._unique_counters (fst s))
                /\ Dict.find k (SchemaGenerator._unique_range_pools (fst s'))
                   = Dict.find k (SchemaGenerator._unique_range_pools (fst s))).

(** No two keys of the list are equal as dictionary keys. *)
Fixpoint distinct_keys (l : list pyval) : bool :=
  match l with
  | [] => true
  | k :: l' => forallb (fun k' => negb (key_eqb k k')) l' && distinct_keys l'
  end.

(** [n] consecutive calls of [generate]. *)
Definition generate_batch (n : nat) : M (SchemaGenerator.t * World) (list Document) :=
  comprehension (repeat tt n) (fun _ => SchemaGenerator.generate).

(** The collection each kind of call is meant for: reads by key and
    writes on the primary, the aggregation on the secondary with the fixed
    pipeline. *)
Definition well_targeted (c : StoreCall) : Prop :=
  match c with
  | Aggregate target p => target = Secondary /\ p = MongoSampleUser.pipeline
  | InsertOne target _ | InsertMany target _ | FindOne target _ => target = Primary
  end.

Definition is_dict (v : pyval) : bool :=
  match v with
  | PyDict _ => true
  | _ => false
  end.

Definition as_dict (v : pyval) : list (string * pyval) :=
  match v with
  | PyDict d => d
  | _ => []
  end.

(** Whether the first loop of [SchemaGenerator.__init__] gets past a
    field, for a generator of seed [seed]: a [unique] field needs a
    hashable name, and a field with a truthy [unique_range] needs an
    integer range [r], a rotation count [seed % r] that converts to a C
    [ssize_t], and a hashable name. *)
Definition constructible (seed : Z) (f : SchemaField) : bool :=
  (if unique f then hashable (name f) else true)
  && (if truthy (unique_range f)
      then match as_index (unique_range f) with
           | Ok r => deque.fits_ssize_t (seed mod r) && hashable (name f)
           | Raise _ => false
           end
      else true).

(** An integer [unique_range] is not below the smallest C [ssize_t]; the
    rotation count [seed % r] then fits one for every seed that
    [__init__] draws. *)
Definition range_fits (f : SchemaField) : bool :=
  match as_index (unique_range f) with
  | Ok r => - deque.PY_SSIZE_T_MAX - 1 <=? r
  | Raise _ => true
  end.

(** The exception the first loop of [__init__] raises at a field it does
    not get past: [TypeError] for the unhashable name of a [unique] field,
    for a range that is not an integer and for the unhashable name of a
    ranged field; [OverflowError] for a rotation count that does not
    convert to a C [ssize_t]. *)
Definition construction_error (seed : Z) (f : SchemaField) : exn :=
  if unique f && negb (hashable (name f)) then TypeError
  else match as_index (unique_range f) with
       | Ok r => if deque.fits_ssize_t (seed mod r) then TypeError else OverflowError
       | Raise _ => TypeError
       end.

Definition is_str (v : pyval) : bool :=
  match v with
  | PyStr _ => true
  | _ => false
  end.

(** The pool of a field of range [R] in a generator of seed [s] after [t]
    values were taken from it: slot [j] holds [(j + t - s) mod R]. *)
Definition pool_at (R s t : Z) (p : list Z) : Prop :=
  List.length p = Z.to_nat R
  /\ forall j, (j < List.length p)%nat -> nth j p 0 = (Z.of_nat j + t - s) mod R.

(** The tape [t] after [n] more cells were read. *)
Definition advance (t : Tape) (n : nat) : Tape :=
  {| cells := cells t; head := n + head t |}.

(** The cell read by the [i]-th next draw, as an integer. *)
Definition peek (t : Tape) (i : nat) : Z := Z.of_N (cells t (i + head t)).

(** The character that [random.choices] takes from the alphabet of the
    generator for a draw [k] of [random.random()], counted in units of
    [2^-53]: the one at index [floor(k / 2^53 * 36)]. *)
Definition alphabet_char (k : Z) : ascii :=
  match String.get (Z.to_nat (random.floor_scaled k 36)) SchemaGenerator.alphabet with
  | Some c => c
  | None => "A"%char
  end.

(** The [n] characters chosen by the next [n] draws of the tape. *)
Definition drawn_chars (t : Tape) (n : nat) : list ascii :=
  map (fun i => alphabet_char (peek t i mod 2 ^ 53)) (seq 0 n).

(** Every value the document holds under a key of the allowed map is in
    the set allowed for that key. *)
Definition accepted (allowed_map : Dict.t (list pyval)) (doc : Document) : Prop :=
  Forall (fun entry => forall v, Dict.find (fst entry) doc = Some v ->
                                 set_mem v (snd entry) = Ok true) allowed_map.

(** ** Further example inputs *)

(** [{"name": "STATUS", "type": "string", "allowed_values": ["OPEN", "CLOSED"]}] *)
Definition status_field : SchemaField :=
  {| name := PyStr "STATUS"; ftype := PyStr "string";
     allowed_values := PyList [PyStr "OPEN"; PyStr "CLOSED"];
     unique := false; skewed := false; unique_range := PyNone |}.

(** [{"name": "HITS", "type": "int", "skewed": true}] *)
Definition hits_field : SchemaField :=
  {| name := PyStr "HITS"; ftype := PyStr "int"; allowed_values := PyNone;
     unique := false; skewed := true; unique_range := PyNone |}.

(** [{"name": "SLOT", "type": "int", "unique_range": -3}] *)
Definition negative_slot_field : SchemaField :=
  {| name := PyStr "SLOT"; ftype := PyStr "int"; allowed_values := PyNone;
     unique := false; skewed := false; unique_range := PyInt (-3) |}.

(** [{"name": "SLOT", "type": "int", "unique_range": -9223372036854775858}]:
    a range below the smallest C [ssize_t] by 50. *)
Definition huge_negative_slot_field : SchemaField :=
  {| name := PyStr "SLOT"; ftype := PyStr "int"; allowed_values := PyNone;
     unique := false; skewed := false;
     unique_range := PyInt (-9223372036854775858) |}.

(** [{"type": "int"}]: a descriptor without a name, as loaded. *)
Definition nameless_field : SchemaField :=
  {| name := PyNone; ftype := PyStr "int"; allowed_values := PyNone;
     unique := false; skewed := false; unique_range := PyNone |}.

(** A unique field whose name is a list: [{"name": [], "type": "int",
    "unique": true}]. *)
Definition list_named_field : SchemaField :=
  {| name := PyList []; ftype := PyStr "int"; allowed_values := PyNone;
     unique := true; skewed := false; unique_range := PyNone |}.

(** A schema of three fields and a generator for it. *)
Definition order_schema : list SchemaField :=
  [status_field; id_field; plain_field "NOTE" "string"].

Definition order_generator : SchemaGenerator.t :=
  generator_of order_schema 42 [(PyStr "ID", 0)] [].

(** A validation library whose models accept every document. *)
Definition permissive_library : Pydantic :=
  {| root_validator := fun check => Ok check;
     create_model := fun _ _ => Ok (fun _ => Ok tt) |}.

(** An environment that sets [DOCS_PER_BATCH] to [50] and [FIND_WEIGHT] to
    the empty string. *)
Definition sample_environ (key : string) : option string :=
  if String.eqb key "DOCS_PER_BATCH" then Some "50"
  else if String.eqb key "FIND_WEIGHT" then Some EmptyString
  else None.

(** * Properties *)

(** ** Keys and dictionaries *)

Lemma key_eqb_refl (k : pyval) : hashable k = true -> key_eqb k k = true.
Proof.
  destruct k; simpl; intros H; try discriminate; auto.
  - now destruct b.
  - apply Z.eqb_refl.
  - apply String.eqb_refl.
  - apply Z.eqb_refl.
Qed.

Lemma key_eqb_hashable (a b : pyval) : key_eqb a b = true -> hashable b = true.
Proof. destruct a, b; simpl; intros H; try discriminate; reflexivity. Qed.

(** Two keys equal to a third one are equal to each other. *)
Lemma key_eqb_join (a b c : pyval) :
  key_eqb a b = true -> key_eqb a c = true -> key_eqb b c = true.
Proof.
  destruct a, b, c; cbn [key_eqb]; intros H1 H2; try discriminate; auto;
    rewrite ?Z.eqb_eq, ?String.eqb_eq, ?Bool.eqb_true_iff in *;
    try congruence;
    repeat match goal with
           | b : bool |- _ => destruct b
           end; lia.
Qed.

Module DictFacts.
Import Dict.

Lemma find_hashable {V} (k : pyval) (d : t V) (v : V) :
  find k d = Some v -> hashable k = true.
Proof.
  induction d as [|[k' v'] d IH]; simpl; [discriminate|].
  destruct (key_eqb k' k) eqn:E; [intros _; eapply key_eqb_hashable; eauto | exact IH].
Qed.

Lemma find_store_same {V} (k : pyval) (v : V) (d : t V) :
  hashable k = true -> find k (store k v d) = Some v.
Proof.
  intros Hk. induction d as [|[k' v'] d IH]; simpl.
  - now rewrite key_eqb_refl.
  - destruct (key_eqb k' k) eqn:E; simpl; rewrite E; auto.
Qed.

Lemma find_store_other {V} (k k2 : pyval) (v : V) (d : t V) :
  key_eqb k2 k = false -> find k (store k2 v d) = find k d.
Proof.
  intros Hne. induction d as [|[k' v'] d IH]; simpl.
  - now rewrite Hne.
  - destruct (key_eqb k' k2) eqn:E2; simpl.
    + destruct (key_eqb k' k) eqn:E; auto.
      rewrite (key_eqb_join _ _ _ E2 E) in Hne. discriminate.
    + destruct (key_eqb k' k); auto.
Qed.

(** A key that is present stays present, with its old value or with
    the stored one. *)
Lemma find_store_present {V} (k k2 : pyval) (v v2 : V) (d : t V) :
  find k d = Some v ->
  find k (store k2 v2 d) = Some v \/ find k (store k2 v2 d) = Some v2.
Proof.
  induction d as [|[k' v'] d IH]; simpl; [discriminate|].
  destruct (key_eqb k' k2) eqn:E2; simpl; destruct (key_eqb k' k) eqn:E; auto.
Qed.

End DictFacts.

(** ** Running the monad *)

Lemma bind_ok {S A B} (m : M S A) (k : A -> M S B) (s s' : S) (a : A) :
  m s = (Ok a, s') -> bind m k s = k a s'.
Proof. unfold bind. now intros ->. Qed.

Lemma bind_raise {S A B} (m : M S A) (k : A -> M S B) (s s' : S) (e : exn) :
  m s = (Raise e, s') -> bind m k s = (Raise e, s').
Proof. unfold bind. now intros ->. Qed.

Lemma gen_values_succ (field : SchemaField) (n : nat) s :
  gen_values field (S n) s =
  bind (SchemaGenerator._gen_value field)
       (fun v => bind (gen_values field n) (fun vs => ret (v :: vs))) s.
Proof. reflexivity. Qed.

(** ** Unique integer fields *)
Section UniqueInt.
Import SchemaGenerator.

Variable field : SchemaField.
Hypothesis Hint_ : eq_str (ftype field) "int" = true.
Hypothesis Hunique : unique field = true.
Hypothesis Hfree : truthy (allowed_values field) = false.

(** One call: the counter goes from [c] to [c + 1] and the value is
    [seed * 1_000_000 + (c + 1)]; nothing is drawn. *)
Lemma gen_unique_step (g : t) (w : World) (c : Z) :
  Dict.find (name field) (_unique_counters g) = Some c ->
  _gen_value field (g, w) =
    (Ok (PyInt (_seed g * 1000000 + (c + 1))),
     (set_counters g (Dict.store (name field) (c + 1) (_unique_counters g)), w)).
Proof.
  intros Hc. pose proof (DictFacts.find_hashable _ _ _ Hc) as Hk.
  unfold _gen_value. rewrite Hfree, Hint_, Hunique.
  unfold bind, on_self, zoom, lift, get, put, ret, Dict.getitem, Dict.setitem; simpl.
  rewrite Hk, Hc.
  rewrite DictFacts.find_store_same by assumption. reflexivity.
Qed.

(** [n] calls from counter [c] yield [seed * 1_000_000 + c + i] for
    [i = 1 .. n] and leave the counter at [c + n]. *)
Lemma gen_unique_run (n : nat) (g : t) (w : World) (c : Z) :
  Dict.find (name field) (_unique_counters g) = Some c ->
  exists g',
    gen_values field n (g, w) =
      (Ok (map (fun i => PyInt (_seed g * 1000000 + (c + Z.of_nat i))) (seq 1 n)),
       (g', w))
    /\ Dict.find (name field) (_unique_counters g') = Some (c + Z.of_nat n)
    /\ _seed g' = _seed g.
Proof.
  revert g c. induction n as [|n IH]; intros g c Hc.
  - exists g. simpl. rewrite Z.add_0_r. auto.
  - pose proof (DictFacts.find_hashable _ _ _ Hc) as Hk.
    set (g1 := set_counters g (Dict.store (name field) (c + 1) (_unique_counters g))).
    assert (H1 : Dict.find (name field) (_unique_counters g1) = Some (c + 1))
      by (apply DictFacts.find_store_same; assumption).
    destruct (IH g1 (c + 1) H1) as (g' & Hrun & Hc' & Hs).
    exists g'. rewrite gen_values_succ.
    rewrite (bind_ok _ _ _ _ _ (gen_unique_step g w c Hc)).
    fold g1. rewrite (bind_ok _ _ _ _ _ Hrun). unfold ret.
    split; [|split].
    + do 2 f_equal. cbn [seq map]. f_equal.
      rewrite <- (seq_shift n 1), map_map. apply map_ext. intros i.
      change (_seed g1) with (_seed g). f_equal. lia.
    + rewrite Hc'. f_equal. lia.
    + rewrite Hs. reflexivity.
Qed.

End UniqueInt.

(** ** Construction of the generator *)

Lemma init_inv pydantic fields w g w' :
  SchemaGenerator.__init__ pydantic fields w = (Ok g, w') ->
  SchemaGenerator.init_fields fields (seed_of w) Dict.empty Dict.empty =
    Ok (SchemaGenerator._unique_counters g, SchemaGenerator._unique_range_pools g)
  /\ SchemaGenerator._seed g = seed_of w
  /\ SchemaGenerator.spec g = fields
  /\ w' = with_rng w (snd (next_cell (rng w))).
Proof.
  unfold SchemaGenerator.__init__, bind, draw, zoom, lift, ret,
    random.randint, random._randbelow, bind, ret, seed_of; simpl.
  destruct (SchemaGenerator.init_fields _ _ _ _) as [[c p]|e] eqn:Ei; [|discriminate].
  destruct (SchemaGenerator.build_validator _ _) as [m|e]; [|discriminate].
  intros H. inversion H; subst; clear H. simpl. auto.
Qed.

Lemma seed_of_range (w : World) : 1 <= seed_of w <= 1000000000.
Proof.
  unfold seed_of.
  pose proof (Z.mod_pos_bound (Z.of_N (cells (rng w) (head (rng w)))) 1000000000).
  lia.
Qed.

(** One round of the first loop of [__init__]. *)
Lemma init_fields_cons f rest seed c p c' p' :
  SchemaGenerator.init_fields (f :: rest) seed c p = Ok (c', p') ->
  exists c1 p1,
    SchemaGenerator.init_fields rest seed c1 p1 = Ok (c', p')
    /\ (if unique f
        then hashable (name f) = true /\ c1 = Dict.store (name f) 0 c
        else c1 = c)
    /\ (if truthy (unique_range f)
        then exists r, as_index (unique_range f) = Ok r
                       /\ hashable (name f) = true
                       /\ p1 = Dict.store (name f)
                                          (deque.rotated (seed mod r) (range r)) p
        else p1 = p).
Proof.
  simpl. unfold Dict.setitem, deque.rotate.
  destruct (unique f); destruct (hashable (name f)) eqn:Hk;
    destruct (truthy (unique_range f)); try discriminate;
    try (destruct (as_index (unique_range f)) as [r|e]; [|discriminate];
         destruct (deque.fits_ssize_t (seed mod r)); [|discriminate]);
    try discriminate;
    intros H; do 2 eexists; (split; [exact H|]); split; eauto.
Qed.

(** After construction every [unique] field has its counter at zero. *)
Lemma init_fields_counter (f : SchemaField) seed :
  forall fields c p c' p',
    SchemaGenerator.init_fields fields seed c p = Ok (c', p') ->
    (In f fields /\ unique f = true) \/ Dict.find (name f) c = Some 0 ->
    Dict.find (name f) c' = Some 0.
Proof.
  induction fields as [|x rest IH]; intros c p c' p' Hi Hf.
  - simpl in Hi. inversion Hi; subst. destruct Hf as [[[] _]|Hf]; exact Hf.
  - apply init_fields_cons in Hi. destruct Hi as (c1 & p1 & Hrest & Hc1 & _).
    apply (IH _ _ _ _ Hrest).
    destruct Hf as [[[->|Hin] Hu]|Hf].
    + right. rewrite Hu in Hc1. destruct Hc1 as [Hk ->].
      now apply DictFacts.find_store_same.
    + left. auto.
    + right. destruct (unique x).
      * destruct Hc1 as [_ ->].
        destruct (DictFacts.find_store_present (name f) (name x) 0 0 c Hf); assumption.
      * now subst.
Qed.

(** ** Increasing sequences *)

Lemma affine_sorted (a : Z) (n start : nat) :
  StronglySorted Z.lt (map (fun i => a + Z.of_nat i) (seq start n)).
Proof.
  revert start. induction n as [|n IH]; intros start; simpl; constructor; auto.
  apply Forall_forall. intros z Hz. apply in_map_iff in Hz.
  destruct Hz as (i & <- & Hi). apply in_seq in Hi. lia.
Qed.

Lemma sorted_NoDup (l : list Z) : StronglySorted Z.lt l -> NoDup l.
Proof.
  induction 1 as [|x l _ IH Hall]; constructor; auto.
  intros Hin. rewrite Forall_forall in Hall. specialize (Hall x Hin). lia.
Qed.

Lemma NoDup_PyInt (l : list Z) : NoDup l -> NoDup (map PyInt l).
Proof.
  induction 1 as [|x l Hx _ IH]; simpl; constructor; auto.
  rewrite in_map_iff. intros (y & Hy & Hin). inversion Hy; subst. contradiction.
Qed.

(** ** C1: unique integer fields *)

(** C1 (as amended).  For a field with [unique] set, type [int] and no
    non-empty [allowed_values]: each call of the value generator moves the
    field's counter from [c] to [c + 1] and returns
    [seed * 1_000_000 + (c + 1)]; [n] consecutive calls from one generator
    state return [seed * 1_000_000 + c + i] for [i = 1 .. n], a strictly
    increasing list without repeats, and leave the counter at [c + n];
    and in a generator constructed from a schema that contains the field
    the counter starts at zero, so the first value generated is
    [seed * 1_000_000 + 1]. *)
Theorem unique_int_sequence :
  forall (field : SchemaField),
    eq_str (ftype field) "int" = true ->
    unique field = true ->
    truthy (allowed_values field) = false ->
    (forall g w c,
        Dict.find (name field) (SchemaGenerator._unique_counters g) = Some c ->
        exists g',
          SchemaGenerator._gen_value field (g, w) =
            (Ok (PyInt (SchemaGenerator._seed g * 1000000 + (c + 1))), (g', w))
          /\ Dict.find (name field) (SchemaGenerator._unique_counters g') = Some (c + 1)
          /\ SchemaGenerator._seed g' = SchemaGenerator._seed g)
    /\
    (forall g w c (n : nat),
        Dict.find (name field) (SchemaGenerator._unique_counters g) = Some c ->
        let zs := map (fun i => SchemaGenerator._seed g * 1000000 + c + Z.of_nat i)
                      (seq 1 n) in
        exists g',
          gen_values field n (g, w) = (Ok (map PyInt zs), (g', w))
          /\ Dict.find (name field) (SchemaGenerator._unique_counters g')
             = Some (c + Z.of_nat n)
          /\ StronglySorted Z.lt zs
          /\ NoDup (map PyInt zs))
    /\
    (forall pydantic fields w0 g w1 w,
        SchemaGenerator.__init__ pydantic fields w0 = (Ok g, w1) ->
        In field fields ->
        Dict.find (name field) (SchemaGenerator._unique_counters g) = Some 0
        /\ exists g',
            SchemaGenerator._gen_value field (g, w) =
              (Ok (PyInt (SchemaGenerator._seed g * 1000000 + 1)), (g', w))).
Proof.
  intros field Hty Hu Hfree. split; [|split].
  - intros g w c Hc.
    pose proof (DictFacts.find_hashable _ _ _ Hc) as Hk.
    eexists. split; [apply gen_unique_step; assumption|]. split.
    + now apply DictFacts.find_store_same.
    + reflexivity.
  - intros g w c n Hc zs.
    destruct (gen_unique_run field Hty Hu Hfree n g w c Hc) as (g' & Hrun & Hc' & _).
    exists g'. split; [|split; [|split]].
    + rewrite Hrun. unfold zs. rewrite map_map. do 2 f_equal.
      apply map_ext. intros i. f_equal. lia.
    + exact Hc'.
    + apply affine_sorted.
    + apply NoDup_PyInt, sorted_NoDup, affine_sorted.
  - intros pydantic fields w0 g w1 w Hinit Hin.
    apply init_inv in Hinit. destruct Hinit as (Hfields & _ & _ & _).
    assert (H0 : Dict.find (name field) (SchemaGenerator._unique_counters g) = Some 0).
    { eapply init_fields_counter; [exact Hfields|]. left. auto. }
    split; [exact H0|].
    eexists. exact (gen_unique_step field Hty Hu Hfree g w 0 H0).
Qed.

Lemma unique_int_sequence_witness :
  (exists g',
      SchemaGenerator._gen_value id_field
        (generator_of [id_field] 42 [(PyStr "ID", 7)] [], world_of []) =
        (Ok (PyInt 42000008), (g', world_of [])))
  /\ (exists g',
         gen_values id_field 3
           (generator_of [id_field] 42 [(PyStr "ID", 7)] [], world_of []) =
           (Ok [PyInt 42000008; PyInt 42000009; PyInt 42000010], (g', world_of [])))
  /\ (exists g',
         SchemaGenerator._gen_value id_field
           (generator_of [id_field] 42 [(PyStr "ID", 0)] [], world_of []) =
           (Ok (PyInt 42000001), (g', world_of []))).
Proof.
  destruct (unique_int_sequence id_field eq_refl eq_refl eq_refl) as (Hstep & Hrun & Hinit).
  split; [|split].
  - destruct (Hstep (generator_of [id_field] 42 [(PyStr "ID", 7)] []) (world_of []) 7
                    eq_refl) as (g' & H & _).
    exists g'. exact H.
  - destruct (Hrun (generator_of [id_field] 42 [(PyStr "ID", 7)] []) (world_of []) 7
                   3%nat eq_refl) as (g' & H & _).
    exists g'. exact H.
  - destruct (Hinit None [id_field] (world_of [41%N]) _ _ (world_of [])
                    eq_refl (or_introl eq_refl)) as (_ & g' & H).
    exists g'. exact H.
Defined.

(** C1 as stated fails when the field also has a non-empty
    [allowed_values]: the enumeration is drawn from, the counter stays at
    zero, and two calls return the same value. *)
Lemma unique_int_enumerated_repeats :
  exists g w1,
    SchemaGenerator.__init__ None [id_enum_field] (world_of []) = (Ok g, w1)
    /\ eq_str (ftype id_enum_field) "int" = true
    /\ unique id_enum_field = true
    /\ SchemaGenerator._seed g = 1
    /\ exists g' w2,
        gen_values id_enum_field 2 (g, w1) = (Ok [PyInt 5; PyInt 5], (g', w2))
        /\ ~ NoDup [PyInt 5; PyInt 5]
        /\ Dict.find (name id_enum_field) (SchemaGenerator._unique_counters g') = Some 0.
Proof.
  do 2 eexists. split; [reflexivity|]. repeat split.
  do 2 eexists. split; [reflexivity|]. split; [|reflexivity].
  intros H. inversion H as [|x l Hn _]; subst. apply Hn. now left.
Qed.

(** ** Rotating pools *)

Lemma key_eqb_sym (a b : pyval) : key_eqb a b = key_eqb b a.
Proof.
  destruct a, b; cbn [key_eqb]; auto using Z.eqb_sym, String.eqb_sym.
  now destruct b, b0.
Qed.

Lemma find_store_equal {V} (k k2 : pyval) (v : V) (d : Dict.t V) :
  key_eqb k2 k = true -> Dict.find k (Dict.store k2 v d) = Some v.
Proof.
  intros Hk. induction d as [|[k' v'] d IH]; simpl.
  - now rewrite Hk.
  - destruct (key_eqb k' k2) eqn:E2; simpl.
    + rewrite key_eqb_sym in E2.
      now rewrite (key_eqb_join _ _ _ E2 Hk).
    + destruct (key_eqb k' k) eqn:E; auto.
      rewrite key_eqb_sym in E2.
      rewrite (key_eqb_join k k2 k') in E2; [discriminate| |];
        rewrite key_eqb_sym; assumption.
  Qed.

Lemma NoDup_map_injective {A B} (f : A -> B) (l : list A) :
  (forall x y, f x = f y -> x = y) -> NoDup l -> NoDup (map f l).
Proof.
  intros Hf. induction 1 as [|x l Hx _ IH]; simpl; constructor; auto.
  rewrite in_map_iff. intros (y & Hy & Hin). apply Hf in Hy. now subst.
Qed.

Lemma range_length (n : Z) : List.length (range n) = Z.to_nat n.
Proof. unfold range. now rewrite length_map, length_seq. Qed.

Lemma range_NoDup (n : Z) : NoDup (range n).
Proof.
  unfold range. apply NoDup_map_injective; [apply Nat2Z.inj | apply seq_NoDup].
Qed.

Lemma range_spec (n z : Z) : In z (range n) <-> 0 <= z < n.
Proof.
  unfold range. rewrite in_map_iff. split.
  - intros (i & <- & Hi). apply in_seq in Hi. lia.
  - intros H. exists (Z.to_nat z). split; [lia|]. apply in_seq. lia.
Qed.

Lemma rotate_Permutation (n : Z) (d : list Z) : Permutation (deque.rotated n d) d.
Proof.
  destruct d as [|x d]; [constructor|].
  unfold deque.rotated.
  set (cut := Z.to_nat _).
  rewrite <- (firstn_skipn cut (x :: d)) at 3.
  apply Permutation_app_comm.
Qed.

(** Rotating one step to the left moves the front element to the back. *)
Lemma rotate_left_one (x : Z) (d : list Z) : deque.rotated (-1) (x :: d) = d ++ [x].
Proof.
  unfold deque.rotated.
  set (n := Z.of_nat (List.length (x :: d))).
  assert (Hn : n = Z.of_nat (List.length d) + 1) by (unfold n; simpl List.length; lia).
  assert (Hcut : Z.to_nat ((n - (-1) mod n) mod n) = if n =? 1 then O else 1%nat).
  { destruct (n =? 1) eqn:E.
    - apply Z.eqb_eq in E. rewrite E. reflexivity.
    - apply Z.eqb_neq in E.
      assert (H1 : (-1) mod n = n - 1).
      { symmetry. apply (Z.mod_unique_pos _ _ (-1)); lia. }
      rewrite H1. replace (n - (n - 1)) with 1 by lia.
      rewrite Z.mod_small by lia. reflexivity. }
  rewrite Hcut. destruct (n =? 1) eqn:E.
  - apply Z.eqb_eq in E. destruct d; [reflexivity|]. simpl List.length in Hn. lia.
  - reflexivity.
Qed.

(** ** Integer fields with a unique range *)
Section UniqueRange.
Import SchemaGenerator.

Variable field : SchemaField.
Hypothesis Hint_ : eq_str (ftype field) "int" = true.
Hypothesis Hunique : unique field = false.
Hypothesis Hfree : truthy (allowed_values field) = false.
Hypothesis Hrange : truthy (unique_range field) = true.

(** One call returns the front of the pool and rotates the pool by one
    position; nothing is drawn. *)
Lemma gen_range_step (g : t) (w : World) (x : Z) (rest : list Z) :
  Dict.find (name field) (_unique_range_pools g) = Some (x :: rest) ->
  _gen_value field (g, w) =
    (Ok (PyInt x),
     (set_pools g (Dict.store (name field) (rest ++ [x]) (_unique_range_pools g)), w)).
Proof.
  intros Hp. pose proof (DictFacts.find_hashable _ _ _ Hp) as Hk.
  unfold _gen_value. rewrite Hfree, Hint_, Hunique, Hrange.
  unfold bind, on_self, zoom, lift, get, put, ret, Dict.getitem, Dict.setitem; simpl.
  rewrite Hk, Hp. cbn [deque.front]. rewrite rotate_left_one. reflexivity.
Qed.

(** Calling once per element of a prefix [xs] of the pool returns [xs]
    and moves it behind the rest of the pool. *)
Lemma gen_range_run (xs : list Z) :
  forall (ys : list Z) (g : t) (w : World),
    Dict.find (name field) (_unique_range_pools g) = Some (xs ++ ys) ->
    exists g',
      gen_values field (List.length xs) (g, w) = (Ok (map PyInt xs), (g', w))
      /\ Dict.find (name field) (_unique_range_pools g') = Some (ys ++ xs).
Proof.
  induction xs as [|x xs IH]; intros ys g w Hp.
  - exists g. rewrite app_nil_r. simpl in Hp. auto.
  - pose proof (DictFacts.find_hashable _ _ _ Hp) as Hk.
    set (g1 := set_pools g (Dict.store (name field) ((xs ++ ys) ++ [x])
                                       (_unique_range_pools g))).
    assert (H1 : Dict.find (name field) (_unique_range_pools g1) = Some (xs ++ (ys ++ [x]))).
    { unfold g1. simpl. rewrite DictFacts.find_store_same by assumption.
      now rewrite app_assoc. }
    destruct (IH (ys ++ [x]) g1 w H1) as (g' & Hrun & Hp').
    exists g'. simpl List.length. rewrite gen_values_succ.
    rewrite (bind_ok _ _ _ _ _ (gen_range_step g w x (xs ++ ys) Hp)).
    fold g1. rewrite (bind_ok _ _ _ _ _ Hrun). unfold ret. split; [reflexivity|].
    rewrite Hp', <- app_assoc. reflexivity.
Qed.

End UniqueRange.

(** After construction the pool of a field with [unique_range = R] is
    [[0, R)] rotated by [seed mod R], provided the fields of the schema
    that share its name and have a range have the same range. *)
Lemma init_fields_pool (f : SchemaField) (R seed : Z) :
  unique_range f = PyInt R ->
  R <> 0 ->
  forall fields c p c' p',
    SchemaGenerator.init_fields fields seed c p = Ok (c', p') ->
    (forall f', In f' fields -> key_eqb (name f') (name f) = true ->
                truthy (unique_range f') = true -> unique_range f' = PyInt R) ->
    In f fields \/ Dict.find (name f) p = Some (deque.rotated (seed mod R) (range R)) ->
    Dict.find (name f) p' = Some (deque.rotated (seed mod R) (range R)).
Proof.
  intros HR Hnz.
  assert (Htr : truthy (unique_range f) = true).
  { rewrite HR. simpl. now apply negb_true_iff, Z.eqb_neq. }
  induction fields as [|x rest IH]; intros c p c' p' Hi Hsame Hf.
  - simpl in Hi. inversion Hi; subst. destruct Hf as [[]|Hf]; exact Hf.
  - apply init_fields_cons in Hi. destruct Hi as (c1 & p1 & Hrest & _ & Hp1).
    apply (IH _ _ _ _ Hrest); [intros; apply Hsame; simpl; auto|].
    destruct Hf as [[->|Hin]|Hf].
    + right. rewrite Htr in Hp1. destruct Hp1 as (r & Hr & Hk & ->).
      rewrite HR in Hr. simpl in Hr. inversion Hr; subst r.
      now apply DictFacts.find_store_same.
    + left. assumption.
    + right. destruct (truthy (unique_range x)) eqn:Hx; [|now subst].
      destruct Hp1 as (r & Hr & Hk & ->).
      destruct (key_eqb (name x) (name f)) eqn:E.
      * rewrite (Hsame x (or_introl eq_refl) E Hx) in Hr. simpl in Hr.
        inversion Hr; subst r. now apply find_store_equal.
      * rewrite DictFacts.find_store_other by assumption. exact Hf.
Qed.

Lemma comprehension_app {S A B} (f : A -> M S B) (xs ys : list A) (s : S) :
  comprehension (xs ++ ys) f s =
  bind (comprehension xs f)
       (fun a => bind (comprehension ys f) (fun b => ret (a ++ b))) s.
Proof.
  revert s. induction xs as [|x xs IH]; intros s;
    cbn [comprehension app]; unfold bind, ret in *.
  - destruct (comprehension ys f s) as [[b|e] s']; reflexivity.
  - destruct (f x s) as [[v|e] s1]; [|reflexivity].
    rewrite IH.
    destruct (comprehension xs f s1) as [[a|e] s2]; [|reflexivity].
    destruct (comprehension ys f s2) as [[b|e] s3]; reflexivity.
Qed.

(** ** C2: integer fields with a unique range *)

(** C2 (as amended).  For a field of type [int] with [unique_range = R],
    [R] a positive integer, [unique] not set and no non-empty
    [allowed_values]: each call returns the front of the field's pool and
    rotates the pool by one; and in a generator constructed from a schema
    that contains the field (the fields sharing its name, if any, having
    the same range), the pool is [[0, R)] rotated by [seed mod R], the
    first [R] values are that pool, a permutation of [[0, R)] without
    repeats, the pool is then back in its initial state, and the
    [(R+1)]-th value is the first one again. *)
Theorem unique_range_cycle :
  forall (field : SchemaField) (R : Z),
    eq_str (ftype field) "int" = true ->
    unique field = false ->
    truthy (allowed_values field) = false ->
    unique_range field = PyInt R ->
    0 < R ->
    (forall g w x rest,
        Dict.find (name field) (SchemaGenerator._unique_range_pools g) = Some (x :: rest) ->
        exists g',
          SchemaGenerator._gen_value field (g, w) = (Ok (PyInt x), (g', w))
          /\ Dict.find (name field) (SchemaGenerator._unique_range_pools g')
             = Some (rest ++ [x]))
    /\
    (forall pydantic fields w0 g w1 w,
        SchemaGenerator.__init__ pydantic fields w0 = (Ok g, w1) ->
        In field fields ->
        (forall f', In f' fields -> key_eqb (name f') (name field) = true ->
                    truthy (unique_range f') = true -> unique_range f' = PyInt R) ->
        let pool := deque.rotated (SchemaGenerator._seed g mod R) (range R) in
        Dict.find (name field) (SchemaGenerator._unique_range_pools g) = Some pool
        /\ Permutation pool (range R)
        /\ NoDup pool
        /\ (exists g',
               gen_values field (Z.to_nat R) (g, w) = (Ok (map PyInt pool), (g', w))
               /\ Dict.find (name field) (SchemaGenerator._unique_range_pools g')
                  = Some pool)
        /\ (exists g' first,
               hd_error pool = Some first
               /\ gen_values field (Z.to_nat R + 1) (g, w)
                  = (Ok (map PyInt pool ++ [PyInt first]), (g', w)))).
Proof.
  intros field R Hty Hu Hfree HR Hpos.
  assert (Htr : truthy (unique_range field) = true).
  { rewrite HR. simpl. apply negb_true_iff, Z.eqb_neq. lia. }
  split.
  - intros g w x rest Hp. pose proof (DictFacts.find_hashable _ _ _ Hp) as Hk.
    eexists. split; [exact (gen_range_step field Hty Hu Hfree Htr g w x rest Hp)|].
    now apply DictFacts.find_store_same.
  - intros pydantic fields w0 g w1 w Hinit Hin Hsame pool.
    apply init_inv in Hinit. destruct Hinit as (Hfields & Hseed & _ & _).
    assert (Hpool : Dict.find (name field) (SchemaGenerator._unique_range_pools g)
                    = Some pool).
    { unfold pool. rewrite Hseed.
      assert (Hnz : R <> 0) by lia.
      exact (init_fields_pool field R _ HR Hnz fields _ _ _ _ Hfields Hsame
                              (or_introl Hin)). }
    assert (Hperm : Permutation pool (range R)) by apply rotate_Permutation.
    assert (Hlen : List.length pool = Z.to_nat R).
    { rewrite (Permutation_length Hperm). apply range_length. }
    split; [exact Hpool|]. split; [exact Hperm|]. split.
    { apply (Permutation_NoDup (Permutation_sym Hperm)), range_NoDup. }
    assert (Hrun : exists g',
               gen_values field (Z.to_nat R) (g, w) = (Ok (map PyInt pool), (g', w))
               /\ Dict.find (name field) (SchemaGenerator._unique_range_pools g')
                  = Some pool).
    { rewrite <- Hlen.
      apply (gen_range_run field Hty Hu Hfree Htr pool [] g w).
      now rewrite app_nil_r. }
    split; [exact Hrun|].
    destruct Hrun as (g1 & Hrun & Hp1).
    destruct pool as [|first rest] eqn:Epool; [simpl in Hlen; lia|].
    exists (SchemaGenerator.set_pools g1
              (Dict.store (name field) (rest ++ [first])
                          (SchemaGenerator._unique_range_pools g1))), first.
    split; [reflexivity|].
    unfold gen_values in *. rewrite repeat_app, comprehension_app.
    rewrite (bind_ok _ _ _ _ _ Hrun). simpl repeat. simpl comprehension.
    rewrite (bind_ok _ _ _ _ _
               (bind_ok _ _ _ _ _
                  (gen_range_step field Hty Hu Hfree Htr g1 w first rest Hp1))).
    reflexivity.
Qed.

Lemma unique_range_cycle_witness :
  (exists g',
      SchemaGenerator._gen_value slot_field
        (generator_of [slot_field] 42 [] [(PyStr "SLOT", [3; 4; 0; 1; 2])], world_of []) =
        (Ok (PyInt 3), (g', world_of []))
      /\ Dict.find (PyStr "SLOT") (SchemaGenerator._unique_range_pools g')
         = Some [4; 0; 1; 2; 3])
  /\ (exists g',
         gen_values slot_field 6
           (generator_of [slot_field] 42 [] [(PyStr "SLOT", [3; 4; 0; 1; 2])], world_of []) =
           (Ok [PyInt 3; PyInt 4; PyInt 0; PyInt 1; PyInt 2; PyInt 3], (g', world_of []))).
Proof.
  destruct (unique_range_cycle slot_field 5 eq_refl eq_refl eq_refl eq_refl eq_refl)
    as [Hstep H].
  split.
  - exact (Hstep (generator_of [slot_field] 42 [] [(PyStr "SLOT", [3; 4; 0; 1; 2])])
                 (world_of []) 3 [4; 0; 1; 2] eq_refl).
  - destruct (H None [slot_field] (world_of [41%N]) _ _ (world_of [])
                eq_refl (or_introl eq_refl)) as (_ & _ & _ & _ & g' & first & Hhd & Hrun).
    + intros f' [<-|[]] _ _. reflexivity.
    + exists g'. inversion Hhd; subst first. exact Hrun.
Defined.

(** C2 as stated fails for a field that is not of type [int]: a [string]
    field with a [unique_range] gets a pool at construction but its values
    are random 8-character strings and the pool is never consulted. *)
Lemma unique_range_string_ignored :
  exists g w1,
    SchemaGenerator.__init__ None [slot_string_field] (world_of []) = (Ok g, w1)
    /\ unique_range slot_string_field = PyInt 3
    /\ truthy (allowed_values slot_string_field) = false
    /\ Dict.find (name slot_string_field) (SchemaGenerator._unique_range_pools g)
       = Some [2; 0; 1]
    /\ exists w2,
        gen_values slot_string_field 3 (g, w1) =
          (Ok [PyStr "AAAAAAAA"; PyStr "AAAAAAAA"; PyStr "AAAAAAAA"], (g, w2)).
Proof.
  do 2 eexists. split; [vm_compute; reflexivity|]. repeat split.
  eexists. vm_compute. reflexivity.
Qed.

(** ** C6: enumerated fields *)

Lemma randbelow_range (n : Z) (t : Tape) :
  0 < n ->
  exists r, random._randbelow n t = (Ok r, snd (next_cell t)) /\ 0 <= r < n.
Proof.
  intros Hn. unfold random._randbelow. simpl.
  eexists. split; [reflexivity|]. now apply Z.mod_pos_bound.
Qed.

(** [random.choice] on a non-empty list returns the element at the index
    drawn, which is one of the list. *)
Lemma choice_list_In {A} (l : list A) (t : Tape) :
  l <> [] ->
  exists x, random.choice_list l t = (Ok x, snd (next_cell t)) /\ In x l.
Proof.
  destruct l as [|a l]; [congruence|]. intros _.
  unfold random.choice_list.
  destruct (randbelow_range (Z.of_nat (List.length (a :: l))) t) as (r & Hr & Hb);
    [simpl List.length; lia|].
  rewrite (bind_ok _ _ _ _ _ Hr). unfold ret.
  eexists. split; [reflexivity|]. apply nth_In. lia.
Qed.

(** C6 (as amended).  For a field whose [allowed_values] is a non-empty
    list, whatever its type and whatever its [unique], [skewed] and
    [unique_range], every call of the value generator returns an element of
    that list, the one at the index drawn, and leaves the counters and the
    pools of the generator as they are; hence any number of calls returns
    only elements of the list. *)
Theorem allowed_values_dominate :
  forall (field : SchemaField) (l : list pyval),
    allowed_values field = PyList l ->
    l <> [] ->
    (forall g w,
        exists v w',
          SchemaGenerator._gen_value field (g, w) = (Ok v, (g, w'))
          /\ In v l
          /\ v = nth (Z.to_nat (Z.of_N (cells (rng w) (head (rng w)))
                                  mod Z.of_nat (List.length l))) l v)
    /\
    (forall (n : nat) g w,
        exists vs w',
          gen_values field n (g, w) = (Ok vs, (g, w'))
          /\ Forall (fun v => In v l) vs).
Proof.
  intros field l Hl Hne.
  assert (Htr : truthy (allowed_values field) = true).
  { rewrite Hl. destruct l; [congruence|reflexivity]. }
  assert (Hstep : forall g w,
             exists v w',
               SchemaGenerator._gen_value field (g, w) = (Ok v, (g, w'))
               /\ In v l
               /\ v = nth (Z.to_nat (Z.of_N (cells (rng w) (head (rng w)))
                                       mod Z.of_nat (List.length l))) l v).
  { intros g w. unfold SchemaGenerator._gen_value. rewrite Htr, Hl.
    destruct l as [|a l]; [congruence|].
    unfold on_world, draw, zoom, random.choice, random.choice_list,
      random._randbelow, bind, ret. simpl fst. simpl snd. cbn [next_cell].
    do 2 eexists. split; [reflexivity|]. split.
    - apply nth_In. pose proof (Z.mod_pos_bound
                                  (Z.of_N (cells (rng w) (head (rng w))))
                                  (Z.of_nat (List.length (a :: l)))).
      simpl List.length in *. lia.
    - apply nth_indep.
      pose proof (Z.mod_pos_bound (Z.of_N (cells (rng w) (head (rng w))))
                                  (Z.of_nat (List.length (a :: l)))).
      simpl List.length in *. lia. }
  split; [exact Hstep|].
  induction n as [|n IH]; intros g w.
  - exists [], w. split; [reflexivity|constructor].
  - destruct (Hstep g w) as (v & w1 & Hv & Hin & _).
    destruct (IH g w1) as (vs & w2 & Hvs & Hall).
    exists (v :: vs), w2. rewrite gen_values_succ.
    rewrite (bind_ok _ _ _ _ _ Hv), (bind_ok _ _ _ _ _ Hvs).
    split; [reflexivity|]. constructor; assumption.
Qed.

Lemma allowed_values_dominate_witness :
  exists vs w',
    gen_values id_enum_field 2
      (generator_of [id_enum_field] 1 [(PyStr "ID", 0)] [], world_of []) =
      (Ok vs, (generator_of [id_enum_field] 1 [(PyStr "ID", 0)] [], w'))
    /\ Forall (fun v => In v [PyInt 5]) vs.
Proof.
  assert (Hne : [PyInt 5] <> []) by discriminate.
  destruct (allowed_values_dominate id_enum_field [PyInt 5] eq_refl Hne) as [_ H].
  exact (H 2%nat _ (world_of [])).
Defined.

(** C6 as stated fails when [allowed_values] is set to the empty list: the
    value returned is not an element of it. *)
Lemma empty_allowed_values_not_dominant :
  allowed_values empty_enum_field = PyList []
  /\ fst (SchemaGenerator._gen_value empty_enum_field
            (generator_of [empty_enum_field] 1 [] [], world_of [7%N]))
     = Ok (PyInt 7)
  /\ ~ In (PyInt 7) [].
Proof.
  split; [reflexivity|]. split; [reflexivity|]. intros [].
Qed.

(** ** C4: unrecognized field types *)

(** C4 (as amended).  For a field whose type is none of [int], [string]
    and [date] and which has no non-empty [allowed_values], the value
    generator raises nothing: it returns [None] and changes no state. *)
Theorem unrecognized_type_returns_none :
  forall (field : SchemaField) (s : SchemaGenerator.t * World),
    truthy (allowed_values field) = false ->
    eq_str (ftype field) "int" = false ->
    eq_str (ftype field) "string" = false ->
    eq_str (ftype field) "date" = false ->
    SchemaGenerator._gen_value field s = (Ok PyNone, s).
Proof.
  intros field s Hfree Hi Hs Hd.
  unfold SchemaGenerator._gen_value. rewrite Hfree, Hi, Hs, Hd. reflexivity.
Qed.

Lemma unrecognized_type_returns_none_witness :
  SchemaGenerator._gen_value (plain_field "FLAG" "bool")
    (generator_of [plain_field "FLAG" "bool"] 1 [] [], world_of []) =
  (Ok PyNone, (generator_of [plain_field "FLAG" "bool"] 1 [] [], world_of [])).
Proof.
  exact (unrecognized_type_returns_none (plain_field "FLAG" "bool") _
           eq_refl eq_refl eq_refl eq_refl).
Defined.

(** C4 as stated fails: for the type [bool] the generator returns [None];
    no exception of any class is raised. *)
Lemma unrecognized_type_no_error :
  ftype (plain_field "FLAG" "bool") = PyStr "bool"
  /\ truthy (allowed_values (plain_field "FLAG" "bool")) = false
  /\ fst (SchemaGenerator._gen_value (plain_field "FLAG" "bool")
            (generator_of [plain_field "FLAG" "bool"] 1 [] [], world_of []))
     = Ok PyNone
  /\ fst (SchemaGenerator._gen_value (plain_field "FLAG" "bool")
            (generator_of [plain_field "FLAG" "bool"] 1 [] [], world_of []))
     <> Raise TypeError.
Proof.
  repeat split. discriminate.
Qed.

(** ** Random strings *)

(** The rounded product [random() * 36] stays below [36]. *)
Lemma round53_bound (p : Z) :
  0 <= p <= 36 * 2 ^ 53 - 36 -> 0 <= random.round53 p < 36 * 2 ^ 53.
Proof.
  intros Hp. unfold random.round53.
  destruct (Z.log2 p + 1 <=? 53) eqn:Hb.
  - apply Z.leb_le in Hb.
    assert (p < 2 ^ 53).
    { destruct (Z.eq_dec p 0) as [->|Hnz]; [reflexivity|].
      apply Z.log2_lt_pow2; lia. }
    lia.
  - apply Z.leb_gt in Hb.
    assert (Hpos : 0 < p).
    { destruct (Z.eq_dec p 0) as [->|Hnz]; [simpl in Hb; lia|lia]. }
    assert (Hlt : Z.log2 p < 59).
    { apply Z.log2_lt_pow2; [lia|]. change (2 ^ 59) with (64 * 2 ^ 53). lia. }
    set (s := Z.log2 p + 1 - 53).
    assert (Hs : 1 <= s <= 6) by (unfold s; lia).
    rewrite Z.shiftr_div_pow2, Z.land_ones, Z.shiftl_mul_pow2 by lia.
    rewrite Z.shiftl_mul_pow2 by lia.
    pose proof (Z.div_mod p (2 ^ s)) as Hdm.
    pose proof (Z.mod_pos_bound p (2 ^ s)) as Hmod.
    assert (Hcases : s = 1 \/ s = 2 \/ s = 3 \/ s = 4 \/ s = 5 \/ s = 6) by lia.
    assert (H53 : 2 ^ 53 = 9007199254740992) by reflexivity.
    rewrite H53 in *.
    destruct Hcases as [E|[E|[E|[E|[E|E]]]]]; rewrite E in *;
      match goal with
      | |- context [Z.pow 2 ?n] => let v := eval vm_compute in (2 ^ n) in
                                  change (2 ^ n) with v in *
      end;
      match goal with
      | |- context [Z.pow 2 ?n] => let v := eval vm_compute in (2 ^ n) in
                                  change (2 ^ n) with v in *
      | _ => idtac
      end;
      destruct (_ || _)%bool eqn:Hup;
      try (apply orb_true_iff in Hup;
           rewrite Z.ltb_lt, andb_true_iff, Z.eqb_eq in Hup); lia.
Qed.

Lemma floor_scaled_bound (k : Z) :
  0 <= k < 2 ^ 53 -> 0 <= random.floor_scaled k 36 < 36.
Proof.
  intros Hk. unfold random.floor_scaled.
  assert (Hr : 0 <= random.round53 (k * 36) < 36 * 2 ^ 53)
    by (apply round53_bound; lia).
  rewrite Z.shiftr_div_pow2 by lia. split.
  - apply Z.div_pos; lia.
  - apply Z.div_lt_upper_bound; lia.
Qed.

Lemma get_some (s : string) (i : nat) :
  (i < String.length s)%nat -> exists c, String.get i s = Some c.
Proof.
  revert i. induction s as [|a s IH]; simpl; intros [|i] H; try lia; eauto.
  apply IH. lia.
Qed.

Lemma get_In (s : string) (i : nat) (c : ascii) :
  String.get i s = Some c -> In c (list_ascii_of_string s).
Proof.
  revert i. induction s as [|a s IH]; simpl; intros [|i] H; try discriminate.
  - inversion H. auto.
  - right. eauto.
Qed.

(** [random.choices(alphabet, k=n)] never fails and yields [n] characters
    of the alphabet. *)
Lemma choices_alphabet (n : nat) :
  forall t, exists cs t',
    random.choices SchemaGenerator.alphabet n t = (Ok cs, t')
    /\ List.length cs = n
    /\ Forall (fun c => In c (list_ascii_of_string SchemaGenerator.alphabet)) cs.
Proof.
  induction n as [|n IH]; intros t.
  - exists [], t. repeat split. constructor.
  - cbn [random.choices]. unfold bind at 1. unfold random.random53 at 1.
    cbn [next_cell].
    set (k := Z.of_N (cells t (head t)) mod 2 ^ 53).
    assert (Hk : 0 <= k < 2 ^ 53) by (apply Z.mod_pos_bound; lia).
    pose proof (floor_scaled_bound k Hk) as Hi.
    change (Z.of_nat (String.length SchemaGenerator.alphabet)) with 36.
    destruct (get_some SchemaGenerator.alphabet
                (Z.to_nat (random.floor_scaled k 36))) as (c & Hc).
    { change (String.length SchemaGenerator.alphabet) with 36%nat. lia. }
    rewrite Hc.
    destruct (IH {| cells := cells t; head := S (head t) |}) as (cs & t' & Hcs & Hlen & Hall).
    rewrite (bind_ok _ _ _ _ _ Hcs). unfold ret.
    exists (c :: cs), t'. split; [reflexivity|]. split; [simpl; lia|].
    constructor; [eapply get_In; eauto|assumption].
Qed.

Lemma length_join (cs : list ascii) : String.length (join cs) = List.length cs.
Proof. induction cs; simpl; auto. Qed.

(** [randint(a, b)] returns an integer of [[a, b]] and makes one draw. *)
Lemma randint_range (a b : Z) (t : Tape) :
  a <= b ->
  exists r, random.randint a b t = (Ok r, snd (next_cell t)) /\ a <= r <= b.
Proof.
  intros Hab. unfold random.randint.
  destruct (b - a + 1 <=? 0) eqn:E; [apply Z.leb_le in E; lia|].
  unfold bind, random._randbelow, ret. simpl.
  eexists. split; [reflexivity|].
  pose proof (Z.mod_pos_bound (Z.of_N (cells t (head t))) (b - a + 1)). lia.
Qed.

Lemma on_world_draw {O A} (m : M Tape A) (o : O) (w : World) :
  on_world (draw m) (o, w) = (fst (m (rng w)), (o, with_rng w (snd (m (rng w))))).
Proof.
  unfold on_world, draw, zoom. simpl. destruct (m (rng w)). reflexivity.
Qed.

Lemma randint_eq (a b : Z) (t : Tape) :
  a <= b ->
  random.randint a b t =
    (Ok (a + Z.of_N (cells t (head t)) mod (b - a + 1)), snd (next_cell t)).
Proof.
  intros Hab. unfold random.randint.
  destruct (b - a + 1 <=? 0) eqn:E; [apply Z.leb_le in E; lia|]. reflexivity.
Qed.

Lemma on_world_draw_ok {O A} (m : M Tape A) (o : O) (w : World) (x : A) (t' : Tape) :
  m (rng w) = (Ok x, t') ->
  on_world (draw m) (o, w) = (Ok x, (o, with_rng w t')).
Proof. intros H. rewrite on_world_draw, H. reflexivity. Qed.

(** [random.choices(alphabet, k=n)] never fails: it returns the
    characters picked by the next [n] draws and leaves the tape [n] cells
    further. *)
Lemma choices_drawn (n : nat) :
  forall t, random.choices SchemaGenerator.alphabet n t
            = (Ok (drawn_chars t n), advance t n).
Proof.
  induction n as [|n IH]; intros t; [now destruct t|].
  cbn [random.choices]. unfold bind at 1. unfold random.random53 at 1.
  cbn [next_cell].
  set (k := Z.of_N (cells t (head t)) mod 2 ^ 53).
  assert (Hk : 0 <= k < 2 ^ 53) by (apply Z.mod_pos_bound; lia).
  pose proof (floor_scaled_bound k Hk) as Hi.
  change (Z.of_nat (String.length SchemaGenerator.alphabet)) with 36.
  destruct (get_some SchemaGenerator.alphabet
              (Z.to_nat (random.floor_scaled k 36))) as (c & Hc).
  { change (String.length SchemaGenerator.alphabet) with 36%nat. lia. }
  rewrite Hc.
  rewrite (bind_ok _ _ _ _ _ (IH {| cells := cells t; head := S (head t) |})).
  unfold ret. f_equal.
  - f_equal. unfold drawn_chars. cbn [seq map]. f_equal.
    + unfold alphabet_char, peek. cbn [Nat.add]. fold k. now rewrite Hc.
    + rewrite <- (seq_shift n 0), map_map. apply map_ext. intros i.
      unfold peek. cbn [cells head]. now rewrite Nat.add_succ_r.
  - unfold advance. cbn [cells head]. f_equal. lia.
Qed.

Lemma drawn_chars_length (t : Tape) (n : nat) : List.length (drawn_chars t n) = n.
Proof. unfold drawn_chars. now rewrite length_map, length_seq. Qed.

Lemma drawn_chars_alphabet (t : Tape) (n : nat) :
  Forall (fun c => In c (list_ascii_of_string SchemaGenerator.alphabet))
         (drawn_chars t n).
Proof.
  destruct (choices_alphabet n t) as (cs & t' & Hcs & _ & Hall).
  rewrite choices_drawn in Hcs. inversion Hcs; subst. exact Hall.
Qed.

(** ** C10: an empty enumeration *)

(** C10.  When [allowed_values] is present but is the empty list, the
    value generator does not select from it: it returns what it returns
    for the same field without [allowed_values], which is fixed by the
    type of the field.  For type [int]: a [unique] field whose counter is
    [c] gets [seed * 1_000_000 + (c + 1)] and the counter becomes
    [c + 1], with no draw; otherwise a field with a [unique_range] gets
    the front of its pool, which moves to the back, with no draw;
    otherwise a skewed field makes two draws, the first for
    [random.random() < 0.8] and the second reduced into [[0, 9]] or into
    [[10, 10000]]; otherwise one draw is reduced into [[0, 10000]].  For
    type [string] the value is the 8 characters of the alphabet picked by
    the next 8 draws.  For type [date] it is the datetime the faker
    returns next, and no number is drawn.  For any other type it is
    [None], and nothing changes.  In every case without a counter or a
    pool the generator is left as it was. *)
Theorem empty_allowed_values_fall_through :
  forall (field : SchemaField) (g : SchemaGenerator.t) (w : World),
    allowed_values field = PyList [] ->
    SchemaGenerator._gen_value field (g, w) =
      SchemaGenerator._gen_value (set_allowed_values field PyNone) (g, w)
    /\ (ftype field = PyStr "int" -> unique field = true ->
        forall c,
          Dict.find (name field) (SchemaGenerator._unique_counters g) = Some c ->
          SchemaGenerator._gen_value field (g, w) =
            (Ok (PyInt (SchemaGenerator._seed g * 1000000 + (c + 1))),
             (SchemaGenerator.set_counters g
                (Dict.store (name field) (c + 1) (SchemaGenerator._unique_counters g)),
              w)))
    /\ (ftype field = PyStr "int" -> unique field = false ->
        truthy (unique_range field) = true ->
        forall x rest,
          Dict.find (name field) (SchemaGenerator._unique_range_pools g)
          = Some (x :: rest) ->
          SchemaGenerator._gen_value field (g, w) =
            (Ok (PyInt x),
             (SchemaGenerator.set_pools g
                (Dict.store (name field) (rest ++ [x])
                            (SchemaGenerator._unique_range_pools g)),
              w)))
    /\ (ftype field = PyStr "int" -> unique field = false ->
        truthy (unique_range field) = false -> skewed field = true ->
        SchemaGenerator._gen_value field (g, w) =
          (Ok (PyInt (if random.below_0_8 (peek (rng w) 0 mod 2 ^ 53)
                      then peek (rng w) 1 mod 10
                      else 10 + peek (rng w) 1 mod 9991)),
           (g, with_rng w (advance (rng w) 2))))
    /\ (ftype field = PyStr "int" -> unique field = false ->
        truthy (unique_range field) = false -> skewed field = false ->
        SchemaGenerator._gen_value field (g, w) =
          (Ok (PyInt (peek (rng w) 0 mod 10001)),
           (g, with_rng w (advance (rng w) 1))))
    /\ (ftype field = PyStr "int" -> unique field = false ->
        truthy (unique_range field) = false ->
        exists z w',
          SchemaGenerator._gen_value field (g, w) = (Ok (PyInt z), (g, w'))
          /\ 0 <= z <= 10000)
    /\ (ftype field = PyStr "string" ->
        SchemaGenerator._gen_value field (g, w) =
          (Ok (PyStr (join (drawn_chars (rng w) 8))),
           (g, with_rng w (advance (rng w) 8)))
        /\ List.length (drawn_chars (rng w) 8) = 8%nat
        /\ Forall (fun c => In c (list_ascii_of_string SchemaGenerator.alphabet))
                  (drawn_chars (rng w) 8))
    /\ (ftype field = PyStr "date" ->
        SchemaGenerator._gen_value field (g, w) =
          (Ok (PyDatetime (peek (faker w) 0)),
           (g, with_faker w (advance (faker w) 1))))
    /\ (eq_str (ftype field) "int" = false ->
        eq_str (ftype field) "string" = false ->
        eq_str (ftype field) "date" = false ->
        SchemaGenerator._gen_value field (g, w) = (Ok PyNone, (g, w))).
Proof.
  intros field g w Hl.
  assert (Hfree : truthy (allowed_values field) = false) by now rewrite Hl.
  assert (Hskewed :
            eq_str (ftype field) "int" = true -> unique field = false ->
            truthy (unique_range field) = false -> skewed field = true ->
            SchemaGenerator._gen_value field (g, w) =
              (Ok (PyInt (if random.below_0_8 (peek (rng w) 0 mod 2 ^ 53)
                          then peek (rng w) 1 mod 10
                          else 10 + peek (rng w) 1 mod 9991)),
               (g, with_rng w (advance (rng w) 2)))).
  { intros Hi Hu Hr Hs.
    unfold SchemaGenerator._gen_value. rewrite Hfree, Hi, Hu, Hr, Hs.
    erewrite bind_ok; [|apply on_world_draw_ok; reflexivity].
    cbn [next_cell snd]. unfold peek. cbn [Nat.add].
    destruct (random.below_0_8 _).
    - erewrite bind_ok; [|apply on_world_draw_ok, randint_eq; lia]. reflexivity.
    - erewrite bind_ok; [|apply on_world_draw_ok, randint_eq; lia]. reflexivity. }
  assert (Hplain :
            eq_str (ftype field) "int" = true -> unique field = false ->
            truthy (unique_range field) = false -> skewed field = false ->
            SchemaGenerator._gen_value field (g, w) =
              (Ok (PyInt (peek (rng w) 0 mod 10001)),
               (g, with_rng w (advance (rng w) 1)))).
  { intros Hi Hu Hr Hs.
    unfold SchemaGenerator._gen_value. rewrite Hfree, Hi, Hu, Hr, Hs.
    erewrite bind_ok; [|apply on_world_draw_ok, randint_eq; lia]. reflexivity. }
  refine (conj _ (conj _ (conj _ (conj _ (conj _ (conj _ (conj _ (conj _ _)))))))).
  - unfold SchemaGenerator._gen_value. rewrite Hfree. reflexivity.
  - intros Hty Hu c Hc. apply gen_unique_step; try assumption. now rewrite Hty.
  - intros Hty Hu Hr x rest Hp. apply gen_range_step; try assumption. now rewrite Hty.
  - intros Hty. apply Hskewed. now rewrite Hty.
  - intros Hty. apply Hplain. now rewrite Hty.
  - intros Hty Hu Hr.
    assert (Hi : eq_str (ftype field) "int" = true) by now rewrite Hty.
    destruct (skewed field) eqn:Hs.
    + rewrite (Hskewed Hi Hu Hr eq_refl). do 2 eexists. split; [reflexivity|].
      pose proof (Z.mod_pos_bound (peek (rng w) 1) 10).
      pose proof (Z.mod_pos_bound (peek (rng w) 1) 9991).
      destruct (random.below_0_8 _); lia.
    + rewrite (Hplain Hi Hu Hr eq_refl). do 2 eexists. split; [reflexivity|].
      pose proof (Z.mod_pos_bound (peek (rng w) 0) 10001). lia.
  - intros Hty.
    assert (Hi : eq_str (ftype field) "int" = false) by now rewrite Hty.
    assert (Hs : eq_str (ftype field) "string" = true) by now rewrite Hty.
    split; [|split; [apply drawn_chars_length|apply drawn_chars_alphabet]].
    unfold SchemaGenerator._gen_value. rewrite Hfree, Hi, Hs.
    erewrite bind_ok; [|apply on_world_draw_ok, choices_drawn]. reflexivity.
  - intros Hty.
    assert (Hi : eq_str (ftype field) "int" = false) by now rewrite Hty.
    assert (Hs : eq_str (ftype field) "string" = false) by now rewrite Hty.
    assert (Hd : eq_str (ftype field) "date" = true) by now rewrite Hty.
    unfold SchemaGenerator._gen_value. rewrite Hfree, Hi, Hs, Hd. reflexivity.
  - intros Hi Hs Hd.
    unfold SchemaGenerator._gen_value. rewrite Hfree, Hi, Hs, Hd. reflexivity.
Qed.

Lemma empty_allowed_values_fall_through_witness :
  SchemaGenerator._gen_value empty_enum_field
    (generator_of [empty_enum_field] 1 [] [], world_of [7%N]) =
    (Ok (PyInt 7),
     (generator_of [empty_enum_field] 1 [] [],
      with_rng (world_of [7%N]) (advance (rng (world_of [7%N])) 1))).
Proof.
  destruct (empty_allowed_values_fall_through empty_enum_field
              (generator_of [empty_enum_field] 1 [] []) (world_of [7%N]) eq_refl)
    as (_ & _ & _ & _ & H & _).
  exact (H eq_refl eq_refl eq_refl eq_refl).
Defined.

(** ** C5: the schema loader *)

(** C5 (as amended).  The schema loader validates nothing: for every
    schema description that is a list of descriptor objects it returns one
    field spec per descriptor, in input order, and never fails.  A missing
    name or type is recorded as [None], a type is kept whatever it is, and
    [unique] and [unique_range] are both kept when both are set. *)
Theorem load_schema_total :
  forall (items : list (list (string * pyval))),
    MongoSampleUser._load_schema (PyList (map PyDict items)) =
      Ok (map MongoSampleUser.field_of_item items)
    /\ (forall item,
           MongoSampleUser.item_find "name" item = None ->
           name (MongoSampleUser.field_of_item item) = PyNone)
    /\ (forall item,
           MongoSampleUser.item_find "type" item = None ->
           ftype (MongoSampleUser.field_of_item item) = PyNone)
    /\ (forall item ty,
           MongoSampleUser.item_find "type" item = Some ty ->
           ftype (MongoSampleUser.field_of_item item) = ty)
    /\ (forall item u r,
           MongoSampleUser.item_find "unique" item = Some u ->
           MongoSampleUser.item_find "unique_range" item = Some r ->
           unique (MongoSampleUser.field_of_item item) = truthy u
           /\ unique_range (MongoSampleUser.field_of_item item) = r).
Proof.
  intros items. split; [|split; [|split; [|split]]].
  - unfold MongoSampleUser._load_schema. simpl.
    induction items as [|item items IH]; simpl; [reflexivity|].
    now rewrite IH.
  - intros item H. unfold MongoSampleUser.field_of_item, MongoSampleUser.item_get.
    simpl. now rewrite H.
  - intros item H. unfold MongoSampleUser.field_of_item, MongoSampleUser.item_get.
    simpl. now rewrite H.
  - intros item ty H. unfold MongoSampleUser.field_of_item, MongoSampleUser.item_get.
    simpl. now rewrite H.
  - intros item u r Hu Hr.
    unfold MongoSampleUser.field_of_item, MongoSampleUser.item_get,
      MongoSampleUser.item_flag. simpl. now rewrite Hu, Hr.
Qed.

Lemma load_schema_total_witness :
  MongoSampleUser._load_schema
    (PyList [PyDict [("type", PyStr "int"); ("unique", PyInt 1); ("unique_range", PyInt 5)]])
  = Ok [{| name := PyNone; ftype := PyStr "int"; allowed_values := PyNone;
           unique := true; skewed := false; unique_range := PyInt 5 |}]
  /\ name (MongoSampleUser.field_of_item
             [("type", PyStr "int"); ("unique", PyInt 1); ("unique_range", PyInt 5)])
     = PyNone
  /\ unique_range (MongoSampleUser.field_of_item
                     [("type", PyStr "int"); ("unique", PyInt 1); ("unique_range", PyInt 5)])
     = PyInt 5.
Proof.
  destruct (load_schema_total
              [[("type", PyStr "int"); ("unique", PyInt 1); ("unique_range", PyInt 5)]])
    as (Hload & Hname & _ & _ & Hboth).
  split; [exact Hload|]. split.
  - apply Hname. reflexivity.
  - apply (Hboth _ (PyInt 1) (PyInt 5)); reflexivity.
Defined.

(** C5 as stated fails: a descriptor without a name, a descriptor of type
    [float], and a descriptor that sets both [unique] and [unique_range]
    are all loaded. *)
Lemma load_schema_accepts_malformed :
  MongoSampleUser._load_schema (PyList [PyDict [("type", PyStr "int")]]) =
    Ok [{| name := PyNone; ftype := PyStr "int"; allowed_values := PyNone;
           unique := false; skewed := false; unique_range := PyNone |}]
  /\ MongoSampleUser._load_schema
       (PyList [PyDict [("name", PyStr "A"); ("type", PyStr "float")]]) =
     Ok [{| name := PyStr "A"; ftype := PyStr "float"; allowed_values := PyNone;
            unique := false; skewed := false; unique_range := PyNone |}]
  /\ MongoSampleUser._load_schema
       (PyList [PyDict [("name", PyStr "A"); ("type", PyStr "int");
                        ("unique", PyBool true); ("unique_range", PyInt 5)]]) =
     Ok [{| name := PyStr "A"; ftype := PyStr "int"; allowed_values := PyNone;
            unique := true; skewed := false; unique_range := PyInt 5 |}].
Proof. repeat split. Qed.

(** ** C7: the aggregation task *)

(** C7.  The aggregate task makes exactly one call on the store, an
    aggregation on the secondary collection, with the fixed pipeline of
    four stages in this order: group on [STATUS] counting the records,
    set [STATUS] back from the group key, unset the group key, sort by the
    count descending.  It returns what the store answers and changes
    nothing else. *)
Theorem aggregation_pipeline_fixed :
  forall (u : MongoSampleUser.t) (w : World),
    MongoSampleUser.run_aggregation_pipeline (u, w) =
      (Ok (aggregate_reply w MongoSampleUser.pipeline),
       (u, with_calls w (calls w ++ [Aggregate Secondary MongoSampleUser.pipeline])))
    /\ MongoSampleUser.pipeline =
       [ PyDict [("$group", PyDict [("_id", PyStr "$STATUS");
                                    ("total_records", PyDict [("$sum", PyInt 1)])])];
         PyDict [("$set", PyDict [("STATUS", PyStr "$_id")])];
         PyDict [("$unset", PyList [PyStr "_id"])];
         PyDict [("$sort", PyDict [("total_records", PyInt (-1))])] ].
Proof.
  intros u w. split; reflexivity.
Qed.

(** ** The cache of record ids *)

Lemma list_setitem_ok {A} (l : list A) (i : nat) (v : A) :
  (i < List.length l)%nat ->
  exists l',
    list_setitem l i v = Ok l'
    /\ List.length l' = List.length l
    /\ (forall d, nth i l' d = v)
    /\ (forall j d, j <> i -> nth j l' d = nth j l d).
Proof.
  revert i. induction l as [|x l IH]; intros [|i] Hi; simpl in *; try lia.
  - eexists. split; [reflexivity|]. split; [reflexivity|]. split; [reflexivity|].
    intros [|j] d Hj; [congruence|reflexivity].
  - destruct (IH i) as (l' & Hs & Hlen & Hnth & Hother); [lia|].
    rewrite Hs. eexists. split; [reflexivity|]. split; [simpl; lia|].
    split; [intros d; apply Hnth|].
    intros [|j] d Hj; [reflexivity|]. simpl. apply Hother. lia.
Qed.

(** Below capacity the record id is appended; nothing is drawn. *)
Lemma cache_rec_id_append (k : pyval) (u : MongoSampleUser.t) (w : World) :
  is_none k = false ->
  len (MongoSampleUser.id_cache u) < IDS_TO_CACHE ->
  MongoSampleUser.cache_rec_id k (u, w) =
    (Ok tt, (MongoSampleUser.set_id_cache u (MongoSampleUser.id_cache u ++ [k]), w)).
Proof.
  intros Hk Hlen. unfold MongoSampleUser.cache_rec_id. rewrite Hk. simpl negb.
  unfold bind, on_self, zoom, get, put. simpl.
  apply Z.ltb_lt in Hlen. rewrite Hlen. reflexivity.
Qed.

(** At capacity one integer of [[0, 9]] is drawn; on [0] a second draw
    picks the slot that is overwritten, otherwise the cache is kept. *)
Lemma cache_rec_id_full (k : pyval) (u : MongoSampleUser.t) (w : World) :
  is_none k = false ->
  IDS_TO_CACHE <= len (MongoSampleUser.id_cache u) ->
  let d := Z.of_N (cells (rng w) (head (rng w))) mod 10 in
  let i := Z.of_N (cells (rng w) (S (head (rng w))))
           mod len (MongoSampleUser.id_cache u) in
  exists u' w',
    MongoSampleUser.cache_rec_id k (u, w) = (Ok tt, (u', w'))
    /\ len (MongoSampleUser.id_cache u') = len (MongoSampleUser.id_cache u)
    /\ MongoSampleUser.generator u' = MongoSampleUser.generator u
    /\ (d = 0 ->
        (forall dflt, nth (Z.to_nat i) (MongoSampleUser.id_cache u') dflt = k)
        /\ (forall j dflt, j <> Z.to_nat i ->
                           nth j (MongoSampleUser.id_cache u') dflt
                           = nth j (MongoSampleUser.id_cache u) dflt)
        /\ head (rng w') = S (S (head (rng w))))
    /\ (d <> 0 -> u' = u /\ head (rng w') = S (head (rng w))).
Proof.
  intros Hk Hlen d i. unfold IDS_TO_CACHE in Hlen.
  assert (Hge : (len (MongoSampleUser.id_cache u) <? IDS_TO_CACHE) = false)
    by (apply Z.ltb_ge; unfold IDS_TO_CACHE; lia).
  unfold MongoSampleUser.cache_rec_id. rewrite Hk. cbn [negb].
  rewrite (bind_ok (on_self get) _ (u, w) (u, w) u eq_refl). rewrite Hge.
  erewrite bind_ok; [|apply on_world_draw_ok, randint_eq; lia].
  change (9 - 0 + 1) with 10. fold d. rewrite Z.add_0_l.
  destruct (d =? 0) eqn:Hd.
  - apply Z.eqb_eq in Hd.
    erewrite bind_ok; [|apply on_world_draw_ok, randint_eq; lia].
    cbn [next_cell fst snd with_rng rng cells head].
    replace (len (MongoSampleUser.id_cache u) - 1 - 0 + 1)
      with (len (MongoSampleUser.id_cache u)) by lia.
    fold i. rewrite Z.add_0_l.
    assert (Hi : 0 <= i < len (MongoSampleUser.id_cache u))
      by (apply Z.mod_pos_bound; lia).
    destruct (list_setitem_ok (MongoSampleUser.id_cache u) (Z.to_nat i) k)
      as (c & Hc & Hclen & Hnth & Hother); [unfold len in Hi; lia|].
    unfold bind, lift, on_self, zoom, put. rewrite Hc. cbn [fst snd].
    do 2 eexists. split; [reflexivity|].
    split; [unfold len; simpl; now rewrite Hclen|].
    split; [reflexivity|]. split; [|intros; lia].
    intros _. repeat split; auto.
  - apply Z.eqb_neq in Hd. unfold ret.
    do 2 eexists. split; [reflexivity|]. repeat split; try reflexivity; lia.
Qed.

Lemma cache_rec_id_none (s : MongoSampleUser.t * World) :
  MongoSampleUser.cache_rec_id PyNone s = (Ok tt, s).
Proof. reflexivity. Qed.

(** One record keeps the cache within its capacity, and a full cache
    full. *)
Lemma cache_rec_id_bounded (k : pyval) (u : MongoSampleUser.t) (w : World) :
  len (MongoSampleUser.id_cache u) <= IDS_TO_CACHE ->
  exists u' w',
    MongoSampleUser.cache_rec_id k (u, w) = (Ok tt, (u', w'))
    /\ len (MongoSampleUser.id_cache u') <= IDS_TO_CACHE
    /\ (len (MongoSampleUser.id_cache u) = IDS_TO_CACHE ->
        len (MongoSampleUser.id_cache u') = IDS_TO_CACHE).
Proof.
  intros Hle. destruct (is_none k) eqn:Hk.
  - destruct k; try discriminate. exists u, w. rewrite cache_rec_id_none. auto.
  - destruct (Z.lt_ge_cases (len (MongoSampleUser.id_cache u)) IDS_TO_CACHE) as [Hlt|Hge].
    + rewrite (cache_rec_id_append k u w Hk Hlt).
      do 2 eexists. split; [reflexivity|]. unfold len in *. simpl.
      rewrite length_app. simpl. split; lia.
    + destruct (cache_rec_id_full k u w Hk Hge) as (u' & w' & Hrun & Hlen & _).
      exists u', w'. split; [exact Hrun|]. rewrite Hlen. split; [lia|auto].
Qed.

(** Any number of records, one after the other. *)
Lemma records_bounded (keys : list pyval) :
  forall (u : MongoSampleUser.t) (w : World),
    len (MongoSampleUser.id_cache u) <= IDS_TO_CACHE ->
    exists u' w',
      for_each keys MongoSampleUser.cache_rec_id (u, w) = (Ok tt, (u', w'))
      /\ len (MongoSampleUser.id_cache u') <= IDS_TO_CACHE
      /\ (len (MongoSampleUser.id_cache u) = IDS_TO_CACHE ->
          len (MongoSampleUser.id_cache u') = IDS_TO_CACHE).
Proof.
  induction keys as [|k keys IH]; intros u w Hle.
  - exists u, w. simpl. auto.
  - destruct (cache_rec_id_bounded k u w Hle) as (u1 & w1 & H1 & Hle1 & Hfull1).
    destruct (IH u1 w1 Hle1) as (u2 & w2 & H2 & Hle2 & Hfull2).
    exists u2, w2. cbn [for_each]. rewrite (bind_ok _ _ _ _ _ H1).
    split; [exact H2|]. split; [exact Hle2|]. auto.
Qed.

(** While there is room, the records are appended in order. *)
Lemma records_fill (keys : list pyval) :
  forall (u : MongoSampleUser.t) (w : World),
    Forall (fun k => is_none k = false) keys ->
    len (MongoSampleUser.id_cache u) + len keys <= IDS_TO_CACHE ->
    for_each keys MongoSampleUser.cache_rec_id (u, w) =
      (Ok tt, (MongoSampleUser.set_id_cache u (MongoSampleUser.id_cache u ++ keys), w)).
Proof.
  induction keys as [|k keys IH]; intros u w Hall Hroom.
  - simpl. rewrite app_nil_r. now destruct u.
  - inversion Hall as [|? ? Hk Hall']; subst.
    unfold len in *. simpl List.length in Hroom.
    cbn [for_each]. erewrite bind_ok; [|apply cache_rec_id_append; [exact Hk|unfold len; lia]].
    rewrite IH; [|exact Hall'|simpl; unfold len; rewrite length_app; simpl; lia].
    simpl. now rewrite <- app_assoc.
Qed.

(** ** C3: the key cache is bounded *)

(** C3.  The cache never exceeds 1000 entries however many record
    operations are performed.  A record of a key appends it while the cache
    holds fewer than 1000 entries.  Once the cache holds 1000 entries every
    further record leaves its length at 1000: an integer of [[0, 9]] is
    drawn, and only when it is [0] (one outcome of ten) a slot index of
    [[0, 999]] is drawn and that slot is overwritten with the key, all
    other slots being kept; otherwise the cache is unchanged.  After 1000
    records into an empty cache the cache holds exactly these keys, and its
    length stays 1000 whatever is recorded afterwards. *)
Theorem key_cache_bounded :
  IDS_TO_CACHE = 1000
  /\ (forall keys u w,
         len (MongoSampleUser.id_cache u) <= IDS_TO_CACHE ->
         exists u' w',
           for_each keys MongoSampleUser.cache_rec_id (u, w) = (Ok tt, (u', w'))
           /\ len (MongoSampleUser.id_cache u') <= IDS_TO_CACHE)
  /\ (forall k u w,
         is_none k = false ->
         len (MongoSampleUser.id_cache u) < IDS_TO_CACHE ->
         MongoSampleUser.cache_rec_id k (u, w) =
           (Ok tt, (MongoSampleUser.set_id_cache u (MongoSampleUser.id_cache u ++ [k]), w)))
  /\ (forall k u w,
         is_none k = false ->
         len (MongoSampleUser.id_cache u) = IDS_TO_CACHE ->
         let d := Z.of_N (cells (rng w) (head (rng w))) mod 10 in
         let i := Z.of_N (cells (rng w) (S (head (rng w)))) mod 1000 in
         exists u' w',
           MongoSampleUser.cache_rec_id k (u, w) = (Ok tt, (u', w'))
           /\ len (MongoSampleUser.id_cache u') = IDS_TO_CACHE
           /\ 0 <= d <= 9 /\ 0 <= i <= 999
           /\ (d = 0 ->
               (forall dflt, nth (Z.to_nat i) (MongoSampleUser.id_cache u') dflt = k)
               /\ (forall j dflt, j <> Z.to_nat i ->
                                  nth j (MongoSampleUser.id_cache u') dflt
                                  = nth j (MongoSampleUser.id_cache u) dflt))
           /\ (d <> 0 -> u' = u))
  /\ (forall keys u w,
         MongoSampleUser.id_cache u = [] ->
         Forall (fun k => is_none k = false) keys ->
         len keys = IDS_TO_CACHE ->
         exists u1,
           for_each keys MongoSampleUser.cache_rec_id (u, w) = (Ok tt, (u1, w))
           /\ MongoSampleUser.id_cache u1 = keys
           /\ forall more w1,
               exists u2 w2,
                 for_each more MongoSampleUser.cache_rec_id (u1, w1) = (Ok tt, (u2, w2))
                 /\ len (MongoSampleUser.id_cache u2) = IDS_TO_CACHE).
Proof.
  split; [reflexivity|]. split; [|split; [|split]].
  - intros keys u w Hle.
    destruct (records_bounded keys u w Hle) as (u' & w' & H & Hle' & _). eauto.
  - exact cache_rec_id_append.
  - intros k u w Hk Hlen d i.
    assert (Hge : IDS_TO_CACHE <= len (MongoSampleUser.id_cache u)) by lia.
    destruct (cache_rec_id_full k u w Hk Hge) as (u' & w' & Hrun & Hlen' & _ & H0 & H1).
    rewrite Hlen in H0. change IDS_TO_CACHE with 1000 in H0. fold i in H0.
    exists u', w'. split; [exact Hrun|]. split; [lia|].
    split; [pose proof (Z.mod_pos_bound (Z.of_N (cells (rng w) (head (rng w)))) 10);
            unfold d; lia|].
    split; [pose proof (Z.mod_pos_bound (Z.of_N (cells (rng w) (S (head (rng w))))) 1000);
            unfold i; lia|].
    split.
    + intros Hd. destruct (H0 Hd) as (Ha & Hb & _). split; assumption.
    + intros Hd. exact (proj1 (H1 Hd)).
  - intros keys u w Hempty Hall Hlen.
    exists (MongoSampleUser.set_id_cache u keys). split; [|split].
    + rewrite records_fill; [now rewrite Hempty|exact Hall|].
      rewrite Hempty. unfold len at 1. simpl. lia.
    + reflexivity.
    + intros more w1.
      destruct (records_bounded more (MongoSampleUser.set_id_cache u keys) w1)
        as (u2 & w2 & Hrun & _ & Hfull); [simpl; lia|].
      exists u2, w2. split; [exact Hrun|]. apply Hfull. exact Hlen.
Qed.

Lemma key_cache_bounded_witness :
  MongoSampleUser.cache_rec_id (PyInt 7) (MongoSampleUser.__init__, world_of []) =
    (Ok tt, (MongoSampleUser.set_id_cache MongoSampleUser.__init__ [PyInt 7], world_of []))
  /\ exists u' w',
      MongoSampleUser.cache_rec_id (PyInt 7) (full_user, world_of [3%N]) = (Ok tt, (u', w'))
      /\ len (MongoSampleUser.id_cache u') = IDS_TO_CACHE
      /\ u' = full_user.
Proof.
  destruct key_cache_bounded as (_ & _ & Happend & Hfull & _). split.
  - exact (Happend (PyInt 7) MongoSampleUser.__init__ (world_of []) eq_refl eq_refl).
  - assert (Hlen : len (MongoSampleUser.id_cache full_user) = IDS_TO_CACHE)
      by (vm_compute; reflexivity).
    destruct (Hfull (PyInt 7) full_user (world_of [3%N]) eq_refl Hlen)
      as (u' & w' & Hrun & Hlen' & _ & _ & _ & Hkeep).
    exists u', w'. split; [exact Hrun|]. split; [exact Hlen'|].
    apply Hkeep. vm_compute. discriminate.
Defined.

(** ** The find task *)

Lemma find_document_empty (u : MongoSampleUser.t) (w : World) :
  MongoSampleUser.id_cache u = [] ->
  MongoSampleUser.find_document (u, w) = (Ok tt, (u, w)).
Proof.
  intros Hempty. unfold MongoSampleUser.find_document.
  rewrite (bind_ok (on_self get) _ (u, w) (u, w) u eq_refl).
  rewrite Hempty. reflexivity.
Qed.

Lemma find_document_nonempty (u : MongoSampleUser.t) (w : World) :
  MongoSampleUser.id_cache u <> [] ->
  let i := Z.of_N (cells (rng w) (head (rng w)))
           mod len (MongoSampleUser.id_cache u) in
  exists key,
    nth_error (MongoSampleUser.id_cache u) (Z.to_nat i) = Some key
    /\ 0 <= i < len (MongoSampleUser.id_cache u)
    /\ MongoSampleUser.find_document (u, w) =
       (Ok tt,
        (u, with_calls (with_rng w (snd (next_cell (rng w))))
              (calls w ++ [FindOne Primary (PyDict [("RECON_RECORD_ID", key)])]))).
Proof.
  intros Hne i.
  assert (Hi : 0 <= i < len (MongoSampleUser.id_cache u)).
  { apply Z.mod_pos_bound. unfold len.
    destruct (MongoSampleUser.id_cache u); [congruence|simpl; lia]. }
  unfold MongoSampleUser.find_document.
  rewrite (bind_ok (on_self get) _ (u, w) (u, w) u eq_refl).
  destruct (MongoSampleUser.id_cache u) as [|a l] eqn:Ec; [congruence|].
  exists (nth (Z.to_nat i) (a :: l) a). split; [|split; [exact Hi|]].
  - apply nth_error_nth'. unfold len in Hi. lia.
  - erewrite bind_ok; [|apply on_world_draw_ok; reflexivity].
    reflexivity.
Qed.

(** ** C9: the find task *)

(** C9.  With an empty cache the find task does nothing: no call on the
    store, no draw, no change of state.  With a non-empty cache it draws
    one index below the length of the cache and makes one call, a point
    lookup on [RECON_RECORD_ID] for the cached key at that index, on the
    primary collection; the cache is unchanged.  After exactly one record
    into an empty cache the key looked up is the recorded key. *)
Theorem find_document_spec :
  (forall u w,
      MongoSampleUser.id_cache u = [] ->
      MongoSampleUser.find_document (u, w) = (Ok tt, (u, w)))
  /\ (forall u w,
         MongoSampleUser.id_cache u <> [] ->
         let i := Z.of_N (cells (rng w) (head (rng w)))
                  mod len (MongoSampleUser.id_cache u) in
         exists key,
           nth_error (MongoSampleUser.id_cache u) (Z.to_nat i) = Some key
           /\ 0 <= i < len (MongoSampleUser.id_cache u)
           /\ MongoSampleUser.find_document (u, w) =
              (Ok tt,
               (u, with_calls (with_rng w (snd (next_cell (rng w))))
                     (calls w ++ [FindOne Primary (PyDict [("RECON_RECORD_ID", key)])]))))
  /\ (forall u w k,
         MongoSampleUser.id_cache u = [] ->
         is_none k = false ->
         exists u1,
           MongoSampleUser.cache_rec_id k (u, w) = (Ok tt, (u1, w))
           /\ MongoSampleUser.id_cache u1 = [k]
           /\ forall w2,
               MongoSampleUser.find_document (u1, w2) =
               (Ok tt,
                (u1, with_calls (with_rng w2 (snd (next_cell (rng w2))))
                       (calls w2 ++ [FindOne Primary (PyDict [("RECON_RECORD_ID", k)])])))).
Proof.
  split; [exact find_document_empty|]. split; [exact find_document_nonempty|].
  intros u w k Hempty Hk.
  exists (MongoSampleUser.set_id_cache u [k]). split; [|split; [reflexivity|]].
  - rewrite cache_rec_id_append; [now rewrite Hempty|exact Hk|].
    rewrite Hempty. reflexivity.
  - intros w2.
    destruct (find_document_nonempty (MongoSampleUser.set_id_cache u [k]) w2)
      as (key & Hnth & Hi & Hrun); [simpl; discriminate|].
    simpl MongoSampleUser.id_cache in *. unfold len in Hi. simpl in Hi.
    replace (Z.to_nat _) with O in Hnth by (unfold len; simpl; lia).
    simpl in Hnth. inversion Hnth; subst key. exact Hrun.
Qed.

Lemma find_document_spec_witness :
  MongoSampleUser.find_document (MongoSampleUser.__init__, world_of []) =
    (Ok tt, (MongoSampleUser.__init__, world_of []))
  /\ exists u1,
      MongoSampleUser.cache_rec_id (PyInt 7) (MongoSampleUser.__init__, world_of []) =
        (Ok tt, (u1, world_of []))
      /\ fst (MongoSampleUser.find_document (u1, world_of [5%N])) = Ok tt
      /\ calls (snd (snd (MongoSampleUser.find_document (u1, world_of [5%N])))) =
         [FindOne Primary (PyDict [("RECON_RECORD_ID", PyInt 7)])].
Proof.
  destruct find_document_spec as (Hempty & _ & Hone). split.
  - exact (Hempty MongoSampleUser.__init__ (world_of []) eq_refl).
  - destruct (Hone MongoSampleUser.__init__ (world_of []) (PyInt 7) eq_refl eq_refl)
      as (u1 & Hrec & _ & Hfind).
    exists u1. split; [exact Hrec|]. rewrite (Hfind (world_of [5%N])).
    split; reflexivity.
Defined.

(** ** The bulk-insert task *)

Lemma set_id_cache_same (u : MongoSampleUser.t) :
  MongoSampleUser.set_id_cache u (MongoSampleUser.id_cache u) = u.
Proof. now destruct u. Qed.

Lemma refresh_cache_eq (d : Document) (u : MongoSampleUser.t) (w : World) :
  MongoSampleUser.refresh_cache d (u, w) =
    (Ok tt, (MongoSampleUser.set_id_cache u (refreshed (MongoSampleUser.id_cache u) d), w)).
Proof.
  unfold MongoSampleUser.refresh_cache, refreshed, doc_key, Dict.get_or_none.
  cbn [hashable].
  unfold bind, lift, on_self, zoom, get, put, ret. cbn [fst snd].
  destruct (Dict.find (PyStr "RECON_RECORD_ID") d) as [v|]; cbn [is_none negb andb].
  - destruct (negb (is_none v) && _)%bool; [reflexivity|].
    now rewrite set_id_cache_same.
  - now rewrite set_id_cache_same.
Qed.

Lemma refresh_loop_eq (docs : list Document) :
  forall (u : MongoSampleUser.t) (w : World),
    for_each docs MongoSampleUser.refresh_cache (u, w) =
      (Ok tt, (MongoSampleUser.set_id_cache u
                 (fold_left refreshed docs (MongoSampleUser.id_cache u)), w)).
Proof.
  induction docs as [|d docs IH]; intros u w.
  - simpl. now rewrite set_id_cache_same.
  - cbn [for_each fold_left].
    rewrite (bind_ok _ _ _ _ _ (refresh_cache_eq d u w)). rewrite IH. reflexivity.
Qed.

(** The loop appends the present keys until the cache is full. *)
Lemma refreshed_closed_form (docs : list Document) :
  forall cache,
    fold_left refreshed docs cache =
    cache ++ firstn (Z.to_nat (IDS_TO_CACHE - len cache)) (present_keys docs).
Proof.
  unfold present_keys.
  induction docs as [|d docs IH]; intros cache.
  - simpl. now rewrite firstn_nil, app_nil_r.
  - cbn [fold_left map filter]. rewrite IH. unfold refreshed.
    destruct (is_none (doc_key d)) eqn:Hk; cbn [negb andb]; [reflexivity|].
    destruct (len cache <? IDS_TO_CACHE) eqn:Hlt.
    + apply Z.ltb_lt in Hlt. rewrite <- app_assoc. f_equal.
      unfold len in *. rewrite length_app. simpl List.length.
      replace (Z.to_nat (IDS_TO_CACHE - Z.of_nat (List.length cache)))
        with (S (Z.to_nat (IDS_TO_CACHE - Z.of_nat (List.length cache + 1)))) by lia.
      reflexivity.
    + apply Z.ltb_ge in Hlt.
      replace (Z.to_nat (IDS_TO_CACHE - len cache)) with O by lia.
      reflexivity.
Qed.

(** Generating documents does not touch the cache. *)
Lemma generate_new_document_cache (u : MongoSampleUser.t) (w : World) :
  MongoSampleUser.id_cache (fst (snd (MongoSampleUser.generate_new_document (u, w))))
  = MongoSampleUser.id_cache u.
Proof.
  unfold MongoSampleUser.generate_new_document.
  rewrite (bind_ok (on_self get) _ (u, w) (u, w) u eq_refl).
  destruct (MongoSampleUser.generator u) as [g|]; [|reflexivity].
  unfold MongoSampleUser.on_generator, zoom. cbn [fst snd].
  destruct (SchemaGenerator.generate (g, w)) as [r [g' w']]. reflexivity.
Qed.

Lemma generate_batch_cache {A} (xs : list A) :
  forall (u : MongoSampleUser.t) (w : World),
    MongoSampleUser.id_cache
      (fst (snd (comprehension xs (fun _ => MongoSampleUser.generate_new_document) (u, w))))
    = MongoSampleUser.id_cache u.
Proof.
  induction xs as [|x xs IH]; intros u w; [reflexivity|].
  cbn [comprehension]. unfold bind at 1.
  pose proof (generate_new_document_cache u w) as H1.
  destruct (MongoSampleUser.generate_new_document (u, w)) as [[d|e] [u1 w1]];
    cbn [fst snd] in *; [|exact H1].
  unfold bind at 1. pose proof (IH u1 w1) as H2.
  destruct (comprehension xs _ (u1, w1)) as [[ds|e] [u2 w2]];
    unfold ret; cbn [fst snd] in *; congruence.
Qed.

Lemma comprehension_length {S A B} (f : A -> M S B) (xs : list A) :
  forall s ys s',
    comprehension xs f s = (Ok ys, s') -> List.length ys = List.length xs.
Proof.
  induction xs as [|x xs IH]; intros s ys s'; cbn [comprehension].
  - unfold ret. intros H. inversion H. reflexivity.
  - unfold bind at 1. destruct (f x s) as [[y|e] s1]; [|discriminate].
    unfold bind at 1. destruct (comprehension xs f s1) as [[zs|e] s2] eqn:E; [|discriminate].
    unfold ret. intros H. inversion H; subst. simpl. f_equal. eapply IH. exact E.
Qed.

(** ** C8: the bulk-insert task and the cache *)

(** C8 (as amended).  The insert-bulk task generates the batch, then
    appends the key of each generated document that has one, in order,
    while the cache is below capacity, and leaves a full cache as it is
    (no draw is made and no slot is overwritten); it then submits the
    whole batch as one multi-insert on the primary collection.  If the
    generation of a document fails, the task fails with the same error
    before touching the cache or the store. *)
Theorem bulk_insert_appends_only :
  forall (n : Z) (u : MongoSampleUser.t) (w : World),
    (forall docs u1 w1,
        comprehension (range n) (fun _ => MongoSampleUser.generate_new_document) (u, w)
          = (Ok docs, (u1, w1)) ->
        MongoSampleUser.insert_documents_bulk n (u, w) =
          (Ok tt,
           (MongoSampleUser.set_id_cache u1
              (MongoSampleUser.id_cache u
               ++ firstn (Z.to_nat (IDS_TO_CACHE - len (MongoSampleUser.id_cache u)))
                         (present_keys docs)),
            with_calls w1 (calls w1 ++ [InsertMany Primary docs])))
        /\ List.length docs = Z.to_nat n
        /\ (IDS_TO_CACHE <= len (MongoSampleUser.id_cache u) ->
            MongoSampleUser.id_cache
              (fst (snd (MongoSampleUser.insert_documents_bulk n (u, w))))
            = MongoSampleUser.id_cache u))
    /\ (forall e s1,
           comprehension (range n) (fun _ => MongoSampleUser.generate_new_document) (u, w)
             = (Raise e, s1) ->
           MongoSampleUser.insert_documents_bulk n (u, w) = (Raise e, s1)).
Proof.
  intros n u w. split.
  - intros docs u1 w1 Hgen.
    assert (Hcache : MongoSampleUser.id_cache u1 = MongoSampleUser.id_cache u).
    { pose proof (generate_batch_cache (range n) u w) as H. now rewrite Hgen in H. }
    assert (Hrun : MongoSampleUser.insert_documents_bulk n (u, w) =
                   (Ok tt,
                    (MongoSampleUser.set_id_cache u1
                       (MongoSampleUser.id_cache u
                        ++ firstn (Z.to_nat (IDS_TO_CACHE - len (MongoSampleUser.id_cache u)))
                                  (present_keys docs)),
                     with_calls w1 (calls w1 ++ [InsertMany Primary docs])))).
    { unfold MongoSampleUser.insert_documents_bulk.
      rewrite (bind_ok _ _ _ _ _ Hgen).
      rewrite (bind_ok _ _ _ _ _ (refresh_loop_eq docs u1 w1)).
      rewrite refreshed_closed_form, Hcache. reflexivity. }
    split; [exact Hrun|]. split.
    + rewrite (comprehension_length _ _ _ _ _ Hgen). apply range_length.
    + intros Hfull. rewrite Hrun. cbn [fst snd MongoSampleUser.set_id_cache
                                         MongoSampleUser.id_cache].
      replace (Z.to_nat (IDS_TO_CACHE - len (MongoSampleUser.id_cache u))) with O by lia.
      now rewrite app_nil_r.
  - intros e s1 Hgen. unfold MongoSampleUser.insert_documents_bulk.
    now rewrite (bind_raise _ _ _ _ _ Hgen).
Qed.

Lemma bulk_insert_appends_only_witness :
  MongoSampleUser.insert_documents_bulk 2 (fresh_user, world_of []) =
    (Ok tt,
     ({| MongoSampleUser.id_cache := [PyInt 42000001; PyInt 42000002];
         MongoSampleUser.generator :=
           Some (generator_of [rid_field] 42 [(PyStr "RECON_RECORD_ID", 2)] []) |},
      with_calls (world_of [])
                 [InsertMany Primary
                    [[(PyStr "RECON_RECORD_ID", PyInt 42000001)];
                     [(PyStr "RECON_RECORD_ID", PyInt 42000002)]]])).
Proof.
  destruct (bulk_insert_appends_only 2 fresh_user (world_of [])) as [H _].
  destruct (H [[(PyStr "RECON_RECORD_ID", PyInt 42000001)];
               [(PyStr "RECON_RECORD_ID", PyInt 42000002)]]
              {| MongoSampleUser.id_cache := [];
                 MongoSampleUser.generator :=
                   Some (generator_of [rid_field] 42 [(PyStr "RECON_RECORD_ID", 2)] []) |}
              (world_of []) eq_refl) as [Hrun _].
  exact Hrun.
Defined.

(** C8 as stated fails once the cache is full: with a tape on which the
    single-insert task draws [0] and overwrites slot [0] with the new key,
    the bulk task makes no draw and leaves the cache as it was. *)
Lemma bulk_insert_never_replaces :
  len (MongoSampleUser.id_cache full_user) = IDS_TO_CACHE
  /\ fst (MongoSampleUser.insert_documents_bulk 1 (full_user, world_of [])) = Ok tt
  /\ MongoSampleUser.id_cache
       (fst (snd (MongoSampleUser.insert_documents_bulk 1 (full_user, world_of []))))
     = MongoSampleUser.id_cache full_user
  /\ head (rng (snd (snd (MongoSampleUser.insert_documents_bulk 1 (full_user, world_of [])))))
     = O
  /\ calls (snd (snd (MongoSampleUser.insert_documents_bulk 1 (full_user, world_of []))))
     = [InsertMany Primary [[(PyStr "RECON_RECORD_ID", PyInt 42000001)]]]
  /\ MongoSampleUser.id_cache
       (fst (snd (MongoSampleUser.insert_single_document (full_user, world_of []))))
     = PyInt 42000001 :: repeat (PyInt 0) 999
  /\ head (rng (snd (snd (MongoSampleUser.insert_single_document (full_user, world_of [])))))
     = 2%nat.
Proof.
  repeat split; vm_compute; reflexivity.
Qed.

(** ** The cache under any schedule of tasks *)

Lemma insert_single_document_bounded (u : MongoSampleUser.t) (w : World) :
  len (MongoSampleUser.id_cache u) <= IDS_TO_CACHE ->
  len (MongoSampleUser.id_cache
         (fst (snd (MongoSampleUser.insert_single_document (u, w))))) <= IDS_TO_CACHE.
Proof.
  intros Hle. unfold MongoSampleUser.insert_single_document. unfold bind at 1.
  pose proof (generate_new_document_cache u w) as Hc.
  destruct (MongoSampleUser.generate_new_document (u, w)) as [[doc|e] [u1 w1]];
    cbn [fst snd] in *; [|now rewrite Hc].
  assert (Hget : @lift (MongoSampleUser.t * World) _
                   (Dict.get_or_none doc (PyStr "RECON_RECORD_ID")) (u1, w1)
                 = (Ok (doc_key doc), (u1, w1))).
  { unfold lift, Dict.get_or_none, doc_key. cbn [hashable].
    destruct (Dict.find _ doc); reflexivity. }
  rewrite (bind_ok _ _ _ _ _ Hget).
  destruct (cache_rec_id_bounded (doc_key doc) u1 w1) as (u2 & w2 & Hrec & Hle2 & _);
    [now rewrite Hc|].
  rewrite (bind_ok _ _ _ _ _ Hrec). exact Hle2.
Qed.

Lemma insert_documents_bulk_bounded (n : Z) (u : MongoSampleUser.t) (w : World) :
  len (MongoSampleUser.id_cache u) <= IDS_TO_CACHE ->
  len (MongoSampleUser.id_cache
         (fst (snd (MongoSampleUser.insert_documents_bulk n (u, w))))) <= IDS_TO_CACHE.
Proof.
  intros Hle.
  pose proof (generate_batch_cache (range n) u w) as Hc.
  unfold MongoSampleUser.insert_documents_bulk. unfold bind at 1.
  destruct (comprehension (range n) _ (u, w)) as [[docs|e] [u1 w1]];
    cbn [fst snd] in *; [|now rewrite Hc].
  rewrite (bind_ok _ _ _ _ _ (refresh_loop_eq docs u1 w1)).
  cbn [fst snd on_world zoom emit modify MongoSampleUser.set_id_cache
           MongoSampleUser.id_cache].
  rewrite refreshed_closed_form, Hc. unfold len in *. rewrite length_app.
  pose proof (firstn_le_length
                (Z.to_nat (IDS_TO_CACHE - Z.of_nat (List.length (MongoSampleUser.id_cache u))))
                (present_keys docs)).
  lia.
Qed.

(** X19.  Whatever tasks the scheduler runs and in whatever order, a cache
    of at most 1000 entries stays one. *)
Theorem tasks_keep_cache_bounded (tasks : list Task) :
  forall s,
    len (MongoSampleUser.id_cache (fst s)) <= IDS_TO_CACHE ->
    len (MongoSampleUser.id_cache (fst (run_tasks tasks s))) <= IDS_TO_CACHE.
Proof.
  induction tasks as [|task tasks IH]; intros [u w] Hle; [exact Hle|].
  unfold run_tasks. cbn [fold_left]. apply IH.
  destruct task; cbn [run_task].
  - exact Hle.
  - now apply insert_single_document_bounded.
  - destruct (MongoSampleUser.id_cache u) eqn:Ec.
    + rewrite (find_document_empty u w Ec). exact Hle.
    + destruct (find_document_nonempty u w) as (key & _ & _ & Hrun); [congruence|].
      rewrite Hrun. exact Hle.
  - now apply insert_documents_bulk_bounded.
Qed.

(** ** End to end *)

(** The schema of the end-to-end example: a unique integer [ID] and an
    enumerated [STATUS]. *)
Example end_to_end :
  let raw :=
    PyList [PyDict [("name", PyStr "ID"); ("type", PyStr "int"); ("unique", PyBool true)];
            PyDict [("name", PyStr "STATUS"); ("type", PyStr "string");
                    ("allowed_values", PyList [PyStr "OPEN"; PyStr "CLOSED"])]] in
  let started := MongoSampleUser.on_start None raw
                   (MongoSampleUser.__init__, world_of [41%N; 1%N]) in
  fst started = Ok tt
  /\ fst (MongoSampleUser.generate_new_document (snd started)) =
     Ok [(PyStr "ID", PyInt (42 * 1000000 + 1)); (PyStr "STATUS", PyStr "CLOSED")].
Proof. split; vm_compute; reflexivity. Qed.

(** Before [on_start] there is no generator and generation is refused. *)
Example generate_before_start :
  MongoSampleUser.generate_new_document (MongoSampleUser.__init__, world_of []) =
    (Raise RuntimeError, (MongoSampleUser.__init__, world_of [])).
Proof. reflexivity. Qed.

(** * Further properties of the code *)

(** ** What the value generator leaves alone *)

Lemma untouched_refl names s : untouched names s s.
Proof. unfold untouched. repeat split; reflexivity. Qed.

Lemma untouched_rng names g w t : untouched names (g, w) (g, with_rng w t).
Proof. unfold untouched. repeat split; reflexivity. Qed.

Lemma untouched_trans names1 names2 s1 s2 s3 :
  untouched names1 s1 s2 -> untouched names2 s2 s3 ->
  untouched (names1 ++ names2) s1 s3.
Proof.
  intros (A1 & A2 & A3 & A4 & A5 & A6) (B1 & B2 & B3 & B4 & B5 & B6).
  unfold untouched. repeat split; try congruence.
  - rewrite forallb_app in H. apply andb_true_iff in H. destruct H as [H1 H2].
    rewrite (proj1 (B6 k H2)). exact (proj1 (A6 k H1)).
  - rewrite forallb_app in H. apply andb_true_iff in H. destruct H as [H1 H2].
    rewrite (proj2 (B6 k H2)). exact (proj2 (A6 k H1)).
Qed.

Lemma untouched_draw {A B} names (m : M Tape A) (k : A -> B) g w :
  untouched names (g, w) (snd (bind (on_world (draw m)) (fun x => ret (k x)) (g, w))).
Proof.
  unfold bind. rewrite on_world_draw. destruct (m (rng w)) as [[a|e] t']; simpl;
    apply untouched_rng.
Qed.

Lemma one_name (n k : pyval) :
  forallb (fun n' => negb (key_eqb n' k)) [n] = true -> key_eqb n k = false.
Proof. simpl. rewrite andb_true_r. apply negb_true_iff. Qed.

Lemma gen_value_untouched (field : SchemaField) (s : SchemaGenerator.t * World) :
  untouched [name field] s (snd (SchemaGenerator._gen_value field s)).
Proof.
  destruct s as [g w]. unfold SchemaGenerator._gen_value.
  destruct (truthy (allowed_values field)).
  { rewrite on_world_draw. apply untouched_rng. }
  destruct (eq_str (ftype field) "int").
  - destruct (unique field).
    + unfold bind, on_self, zoom, lift, get, put, ret, Dict.getitem, Dict.setitem.
      cbn [fst snd].
      destruct (hashable (name field)) eqn:Hk; [|apply untouched_refl].
      destruct (Dict.find (name field) (SchemaGenerator._unique_counters g)) as [c|];
        [|apply untouched_refl].
      rewrite DictFacts.find_store_same by assumption. cbn [snd].
      unfold untouched. cbn [fst snd SchemaGenerator.set_counters SchemaGenerator.spec
        SchemaGenerator._seed SchemaGenerator._validator_model
        SchemaGenerator._unique_counters SchemaGenerator._unique_range_pools].
      repeat split; auto.
      apply DictFacts.find_store_other. now apply one_name.
    + destruct (truthy (unique_range field)).
      * unfold bind, on_self, zoom, lift, get, put, ret, Dict.getitem, Dict.setitem.
        cbn [fst snd].
        destruct (hashable (name field)) eqn:Hk; [|apply untouched_refl].
        destruct (Dict.find (name field) (SchemaGenerator._unique_range_pools g)) as [p|];
          [|apply untouched_refl].
        destruct p as [|x p]; [apply untouched_refl|]. cbn [deque.front snd].
        unfold untouched. cbn [fst snd SchemaGenerator.set_pools SchemaGenerator.spec
          SchemaGenerator._seed SchemaGenerator._validator_model
          SchemaGenerator._unique_counters SchemaGenerator._unique_range_pools].
        repeat split; auto.
        apply DictFacts.find_store_other. now apply one_name.
      * destruct (skewed field); [|apply untouched_draw].
        unfold bind at 1. rewrite on_world_draw.
        unfold random.random53 at 1 2. cbn [next_cell fst snd].
        destruct (random.below_0_8 _).
        -- pose proof (untouched_draw [name field] (random.randint 0 9) PyInt g
                        (with_rng w {| cells := cells (rng w); head := S (head (rng w)) |})) as H.
           unfold untouched in *. cbn [fst snd] in *. exact H.
        -- pose proof (untouched_draw [name field] (random.randint 10 10000) PyInt g
                        (with_rng w {| cells := cells (rng w); head := S (head (rng w)) |})) as H.
           unfold untouched in *. cbn [fst snd] in *. exact H.
  - destruct (eq_str (ftype field) "string"); [apply untouched_draw|].
    destruct (eq_str (ftype field) "date"); [|apply untouched_refl].
    unfold on_world, date_time_between, zoom. cbn [fst snd next_cell].
    unfold untouched. repeat split; reflexivity.
Qed.

(** The loop of [generate] over the fields. *)
Lemma gen_fields_cons f rest doc s :
  SchemaGenerator.gen_fields (f :: rest) doc s =
  bind (SchemaGenerator._gen_value f)
       (fun v => bind (lift (Dict.setitem doc (name f) v))
                      (fun doc' => SchemaGenerator.gen_fields rest doc')) s.
Proof. reflexivity. Qed.

Lemma gen_fields_untouched (fields : list SchemaField) :
  forall doc s,
    untouched (map name fields) s (snd (SchemaGenerator.gen_fields fields doc s)).
Proof.
  induction fields as [|f rest IH]; intros doc s; [apply untouched_refl|].
  rewrite gen_fields_cons. unfold bind at 1.
  pose proof (gen_value_untouched f s) as H1.
  destruct (SchemaGenerator._gen_value f s) as [[v|e] s1]; cbn [snd] in *.
  - unfold bind, lift. destruct (Dict.setitem doc (name f) v) as [doc'|e].
    + apply (untouched_trans [name f] (map name rest) s s1 _ H1 (IH doc' s1)).
    + apply (untouched_trans [name f] (map name rest) s s1 _ H1 (untouched_refl _ _)).
  - apply (untouched_trans [name f] (map name rest) s s1 _ H1 (untouched_refl _ _)).
Qed.

Lemma gen_fields_app (xs ys : list SchemaField) :
  forall doc s,
    SchemaGenerator.gen_fields (xs ++ ys) doc s =
    bind (SchemaGenerator.gen_fields xs doc)
         (fun d => SchemaGenerator.gen_fields ys d) s.
Proof.
  induction xs as [|x xs IH]; intros doc s.
  - cbn [app SchemaGenerator.gen_fields]. unfold bind, ret.
    destruct (SchemaGenerator.gen_fields ys doc s) as [[d|e] s']; reflexivity.
  - cbn [app SchemaGenerator.gen_fields]. unfold bind, lift in *.
    destruct (SchemaGenerator._gen_value x s) as [[v|e] s1]; [|reflexivity].
    destruct (Dict.setitem doc (name x) v) as [doc'|e]; [|reflexivity].
    apply IH.
Qed.

(** The state [generate] leaves is the one its loop leaves, whatever the
    validation model says. *)
Lemma generate_state (s : SchemaGenerator.t * World) :
  snd (SchemaGenerator.generate s) =
  snd (SchemaGenerator.gen_fields (SchemaGenerator.spec (fst s)) Dict.empty s).
Proof.
  destruct s as [g w]. unfold SchemaGenerator.generate.
  rewrite (bind_ok (on_self get) _ (g, w) (g, w) g eq_refl). cbn [fst].
  unfold bind at 1.
  destruct (SchemaGenerator.gen_fields (SchemaGenerator.spec g) Dict.empty (g, w))
    as [[doc|e] s1]; [|reflexivity].
  destruct (SchemaGenerator._validator_model g) as [model|]; [|reflexivity].
  destruct (all_str_keys doc); [|reflexivity].
  unfold bind, lift, ret. destruct (model doc); reflexivity.
Qed.

Lemma generate_ok_inv (s s' : SchemaGenerator.t * World) (doc : Document) :
  SchemaGenerator.generate s = (Ok doc, s') ->
  SchemaGenerator.gen_fields (SchemaGenerator.spec (fst s)) Dict.empty s = (Ok doc, s').
Proof.
  destruct s as [g w]. unfold SchemaGenerator.generate.
  rewrite (bind_ok (on_self get) _ (g, w) (g, w) g eq_refl). cbn [fst].
  unfold bind at 1.
  destruct (SchemaGenerator.gen_fields (SchemaGenerator.spec g) Dict.empty (g, w))
    as [[d|e] s1]; [|discriminate].
  destruct (SchemaGenerator._validator_model g) as [model|].
  - destruct (all_str_keys d); [|discriminate].
    unfold bind, lift, ret. destruct (model d); [|discriminate].
    intros H. inversion H. reflexivity.
  - unfold ret. intros H. inversion H. reflexivity.
Qed.

(** ** Unique ids across whole documents *)

Lemma gen_fields_doc_other (k : pyval) (fields : list SchemaField) :
  forall doc s doc' s',
    SchemaGenerator.gen_fields fields doc s = (Ok doc', s') ->
    forallb (fun n => negb (key_eqb n k)) (map name fields) = true ->
    Dict.find k doc' = Dict.find k doc.
Proof.
  induction fields as [|f rest IH]; intros doc s doc' s' Hrun Hk.
  - cbn in Hrun. unfold ret in Hrun. now inversion Hrun.
  - cbn [map forallb] in Hk. apply andb_true_iff in Hk. destruct Hk as [Hf Hrest].
    apply negb_true_iff in Hf.
    rewrite gen_fields_cons in Hrun. unfold bind at 1 in Hrun.
    destruct (SchemaGenerator._gen_value f s) as [[v|e] s1]; [|discriminate].
    unfold bind at 1, lift, Dict.setitem in Hrun.
    destruct (hashable (name f)); [|discriminate].
    rewrite (IH _ _ _ _ Hrun Hrest). now apply DictFacts.find_store_other.
Qed.

Section UniqueAcrossDocuments.

Variable field : SchemaField.
Variables pre post : list SchemaField.
Hypothesis Hint_ : eq_str (ftype field) "int" = true.
Hypothesis Hunique : unique field = true.
Hypothesis Hfree : truthy (allowed_values field) = false.
Hypothesis Hothers :
  forallb (fun n => negb (key_eqb n (name field))) (map name (pre ++ post)) = true.

(** One document: the field's entry is the next value of its counter,
    whatever the other fields draw or mutate. *)
Lemma generate_unique_entry (g : SchemaGenerator.t) (w : World) (c : Z)
      (doc : Document) (s' : SchemaGenerator.t * World) :
  SchemaGenerator.spec g = pre ++ field :: post ->
  Dict.find (name field) (SchemaGenerator._unique_counters g) = Some c ->
  SchemaGenerator.generate (g, w) = (Ok doc, s') ->
  Dict.find (name field) doc = Some (PyInt (SchemaGenerator._seed g * 1000000 + (c + 1)))
  /\ Dict.find (name field) (SchemaGenerator._unique_counters (fst s')) = Some (c + 1)
  /\ SchemaGenerator._seed (fst s') = SchemaGenerator._seed g
  /\ SchemaGenerator.spec (fst s') = SchemaGenerator.spec g.
Proof.
  intros Hspec Hc Hgen.
  rewrite map_app, forallb_app in Hothers.
  apply andb_true_iff in Hothers. destruct Hothers as [Hpre Hpost].
  pose proof (DictFacts.find_hashable _ _ _ Hc) as Hk.
  apply generate_ok_inv in Hgen. cbn [fst] in Hgen.
  rewrite Hspec, gen_fields_app in Hgen. unfold bind at 1 in Hgen.
  pose proof (gen_fields_untouched pre Dict.empty (g, w)) as U1.
  destruct (SchemaGenerator.gen_fields pre Dict.empty (g, w)) as [[d1|e] [g1 w1]];
    [|discriminate].
  destruct U1 as (S1 & E1 & _ & _ & _ & F1). cbn [fst snd] in *.
  destruct (F1 _ Hpre) as [C1 _]. rewrite Hc in C1.
  rewrite gen_fields_cons in Hgen.
  rewrite (bind_ok _ _ _ _ _ (gen_unique_step field Hint_ Hunique Hfree g1 w1 c C1)) in Hgen.
  unfold bind at 1, lift, Dict.setitem in Hgen. rewrite Hk in Hgen.
  set (v := PyInt (SchemaGenerator._seed g1 * 1000000 + (c + 1))) in *.
  set (g2 := SchemaGenerator.set_counters g1 _) in *.
  pose proof (gen_fields_untouched post (Dict.store (name field) v d1) (g2, w1)) as U2.
  rewrite Hgen in U2. destruct U2 as (S2 & E2 & _ & _ & _ & F2). cbn [fst snd] in *.
  destruct (F2 _ Hpost) as [C2 _].
  split; [|split; [|split]].
  - rewrite (gen_fields_doc_other _ _ _ _ _ _ Hgen Hpost).
    rewrite DictFacts.find_store_same by assumption. unfold v. now rewrite E1.
  - rewrite C2. unfold g2. cbn. now apply DictFacts.find_store_same.
  - rewrite E2. unfold g2. cbn. exact E1.
  - rewrite S2. unfold g2. cbn. exact S1.
Qed.

End UniqueAcrossDocuments.

(** X1.  In a batch of documents generated one after the other, a unique
    integer field with no non-empty [allowed_values], whose name no other
    field of the schema shares, holds [seed * 1_000_000 + c + i] in the
    [i]-th document ([c] the counter before the batch): the ids of a batch
    are pairwise distinct, whatever the other fields of the schema are. *)
Theorem batch_ids_distinct :
  forall (field : SchemaField) (pre post : list SchemaField),
    eq_str (ftype field) "int" = true ->
    unique field = true ->
    truthy (allowed_values field) = false ->
    forallb (fun n => negb (key_eqb n (name field))) (map name (pre ++ post)) = true ->
    forall (n : nat) g w c docs s',
      SchemaGenerator.spec g = pre ++ field :: post ->
      Dict.find (name field) (SchemaGenerator._unique_counters g) = Some c ->
      generate_batch n (g, w) = (Ok docs, s') ->
      map (Dict.find (name field)) docs =
        map (fun i => Some (PyInt (SchemaGenerator._seed g * 1000000 + c + Z.of_nat i)))
            (seq 1 n)
      /\ NoDup (map (Dict.find (name field)) docs)
      /\ Dict.find (name field) (SchemaGenerator._unique_counters (fst s'))
         = Some (c + Z.of_nat n).
Proof.
  intros field pre post Hty Hu Hfree Hothers.
  assert (Hmain : forall (n : nat) g w c docs s',
             SchemaGenerator.spec g = pre ++ field :: post ->
             Dict.find (name field) (SchemaGenerator._unique_counters g) = Some c ->
             generate_batch n (g, w) = (Ok docs, s') ->
             map (Dict.find (name field)) docs =
               map (fun i => Some (PyInt (SchemaGenerator._seed g * 1000000 + c + Z.of_nat i)))
                   (seq 1 n)
             /\ Dict.find (name field) (SchemaGenerator._unique_counters (fst s'))
                = Some (c + Z.of_nat n)).
  { induction n as [|n IH]; intros g w c docs s' Hspec Hc Hrun.
    - cbn in Hrun. unfold ret in Hrun. inversion Hrun; subst. cbn.
      rewrite Z.add_0_r. auto.
    - unfold generate_batch in Hrun. cbn [repeat comprehension] in Hrun.
      unfold bind at 1 in Hrun.
      destruct (SchemaGenerator.generate (g, w)) as [[doc|e] [g1 w1]] eqn:Hgen;
        [|discriminate].
      destruct (generate_unique_entry field pre post Hty Hu Hfree Hothers
                  g w c doc (g1, w1) Hspec Hc Hgen) as (Hdoc & Hc1 & Hseed & Hspec1).
      cbn [fst] in *.
      unfold bind at 1 in Hrun.
      destruct (comprehension (repeat tt n) _ (g1, w1)) as [[ds|e] s2] eqn:Hrest;
        [|discriminate].
      unfold ret in Hrun. inversion Hrun; subst docs s2. clear Hrun.
      destruct (IH g1 w1 (c + 1) ds s' (eq_trans Hspec1 Hspec) Hc1 Hrest) as [Hds Hcn].
      split.
      + cbn [map seq]. rewrite Hdoc, Hds. f_equal; [do 2 f_equal; lia|].
        rewrite <- (seq_shift n 1), map_map. apply map_ext. intros i.
        rewrite Hseed. do 2 f_equal. lia.
      + rewrite Hcn. f_equal. lia. }
  intros n g w c docs s' Hspec Hc Hrun.
  destruct (Hmain n g w c docs s' Hspec Hc Hrun) as [Hids Hcn].
  split; [exact Hids|]. split; [|exact Hcn].
  rewrite Hids.
  replace (map (fun i => Some (PyInt (SchemaGenerator._seed g * 1000000 + c + Z.of_nat i)))
               (seq 1 n))
    with (map (fun z => Some (PyInt z))
              (map (fun i => SchemaGenerator._seed g * 1000000 + c + Z.of_nat i) (seq 1 n)))
    by (rewrite map_map; reflexivity).
  apply NoDup_map_injective; [intros x y H; now inversion H|].
  apply sorted_NoDup, affine_sorted.
Qed.

(** ** The keys of a generated document *)

Lemma store_absent {V} (k : pyval) (v : V) (d : Dict.t V) :
  forallb (fun k' => negb (key_eqb k' k)) (map fst d) = true ->
  Dict.store k v d = d ++ [(k, v)].
Proof.
  induction d as [|[k' v'] d IH]; [reflexivity|].
  cbn [map forallb fst Dict.store]. intros H. apply andb_true_iff in H.
  destruct H as [Hk Hd]. apply negb_true_iff in Hk. rewrite Hk.
  cbn [app]. now rewrite IH.
Qed.

Lemma store_length {V} (k : pyval) (v : V) (d : Dict.t V) :
  (List.length (Dict.store k v d) <= S (List.length d))%nat.
Proof.
  induction d as [|[k' v'] d IH]; cbn [Dict.store]; [simpl; lia|].
  destruct (key_eqb k' k); simpl; lia.
Qed.

Lemma distinct_keys_before (l1 l2 : list pyval) (k : pyval) :
  distinct_keys (l1 ++ k :: l2) = true ->
  forallb (fun k' => negb (key_eqb k' k)) l1 = true.
Proof.
  induction l1 as [|a l1 IH]; [reflexivity|].
  cbn [app distinct_keys forallb]. intros H. apply andb_true_iff in H.
  destruct H as [Ha Hrest]. rewrite forallb_app in Ha. apply andb_true_iff in Ha.
  destruct Ha as [_ Ha]. cbn [forallb] in Ha. apply andb_true_iff in Ha.
  rewrite (proj1 Ha). cbn [andb]. now apply IH.
Qed.

Lemma gen_fields_keys (fields : list SchemaField) :
  forall doc s doc' s',
    SchemaGenerator.gen_fields fields doc s = (Ok doc', s') ->
    (List.length doc' <= List.length doc + List.length fields)%nat
    /\ (distinct_keys (map fst doc ++ map name fields) = true ->
        map fst doc' = map fst doc ++ map name fields).
Proof.
  induction fields as [|f rest IH]; intros doc s doc' s' Hrun.
  - cbn in Hrun. unfold ret in Hrun. inversion Hrun; subst.
    split; [simpl; lia|]. intros _. now rewrite app_nil_r.
  - rewrite gen_fields_cons in Hrun. unfold bind at 1 in Hrun.
    destruct (SchemaGenerator._gen_value f s) as [[v|e] s1]; [|discriminate].
    unfold bind at 1, lift, Dict.setitem in Hrun.
    destruct (hashable (name f)); [|discriminate].
    destruct (IH _ _ _ _ Hrun) as [Hlen Hkeys]. split.
    + pose proof (store_length (name f) v doc). simpl List.length. lia.
    + cbn [map]. intros Hd.
      rewrite (store_absent (name f) v doc (distinct_keys_before _ _ _ Hd)) in Hkeys.
      rewrite map_app in Hkeys. cbn [map fst] in Hkeys.
      rewrite <- app_assoc in Hkeys. cbn [app] in Hkeys. now apply Hkeys.
Qed.

(** X2.  A generated document never has more entries than the schema has
    fields, and when no two fields share a name its keys are the names of
    the fields, in schema order. *)
Theorem generate_keys_in_schema_order :
  forall g w doc s',
    SchemaGenerator.generate (g, w) = (Ok doc, s') ->
    (List.length doc <= List.length (SchemaGenerator.spec g))%nat
    /\ (distinct_keys (map name (SchemaGenerator.spec g)) = true ->
        map fst doc = map name (SchemaGenerator.spec g)).
Proof.
  intros g w doc s' Hgen. apply generate_ok_inv in Hgen. cbn [fst] in Hgen.
  exact (gen_fields_keys _ _ _ _ _ Hgen).
Qed.

(** ** The calls made on the store *)

(** Every way a record can leave the cache: unchanged, the key appended,
    or one slot overwritten with the key; the generator and the calls made
    so far are as they were. *)
Lemma cache_rec_id_cases (k : pyval) (u : MongoSampleUser.t) (w : World) :
  let s' := snd (MongoSampleUser.cache_rec_id k (u, w)) in
  calls (snd s') = calls w
  /\ aggregate_reply (snd s') = aggregate_reply w
  /\ MongoSampleUser.generator (fst s') = MongoSampleUser.generator u
  /\ (MongoSampleUser.id_cache (fst s') = MongoSampleUser.id_cache u
      \/ (is_none k = false
          /\ (MongoSampleUser.id_cache (fst s') = MongoSampleUser.id_cache u ++ [k]
              \/ exists i, list_setitem (MongoSampleUser.id_cache u) i k
                           = Ok (MongoSampleUser.id_cache (fst s'))))).
Proof.
  cbv zeta. destruct (is_none k) eqn:Hk.
  { destruct k; try discriminate. cbn. auto. }
  destruct (Z.lt_ge_cases (len (MongoSampleUser.id_cache u)) IDS_TO_CACHE) as [Hlt|Hge].
  { rewrite (cache_rec_id_append k u w Hk Hlt). cbn. repeat split. right.
    split; [reflexivity|]. left. reflexivity. }
  assert (Hb : (len (MongoSampleUser.id_cache u) <? IDS_TO_CACHE) = false)
    by now apply Z.ltb_ge.
  unfold IDS_TO_CACHE in Hge.
  unfold MongoSampleUser.cache_rec_id. rewrite Hk. cbn [negb].
  rewrite (bind_ok (on_self get) _ (u, w) (u, w) u eq_refl). rewrite Hb.
  erewrite bind_ok; [|apply on_world_draw_ok, randint_eq; lia].
  destruct (_ =? 0); [|cbn; auto].
  erewrite bind_ok; [|apply on_world_draw_ok, randint_eq; lia].
  unfold bind, lift, on_self, zoom, put.
  destruct (list_setitem (MongoSampleUser.id_cache u) _ k) as [c|e] eqn:Hset.
  - cbn. repeat split. right. split; [reflexivity|]. right. eexists. exact Hset.
  - cbn. auto.
Qed.

Lemma generate_new_document_frame (u : MongoSampleUser.t) (w : World) :
  calls (snd (snd (MongoSampleUser.generate_new_document (u, w)))) = calls w
  /\ aggregate_reply (snd (snd (MongoSampleUser.generate_new_document (u, w))))
     = aggregate_reply w.
Proof.
  unfold MongoSampleUser.generate_new_document.
  rewrite (bind_ok (on_self get) _ (u, w) (u, w) u eq_refl).
  destruct (MongoSampleUser.generator u) as [g|]; [|split; reflexivity].
  unfold MongoSampleUser.on_generator, zoom. cbn [fst snd].
  pose proof (generate_state (g, w)) as Hs.
  pose proof (gen_fields_untouched (SchemaGenerator.spec g) Dict.empty (g, w)) as U.
  cbn [fst] in Hs. rewrite <- Hs in U.
  destruct (SchemaGenerator.generate (g, w)) as [r [g' w']].
  destruct U as (_ & _ & _ & Hc & Ha & _). cbn [fst snd] in *. auto.
Qed.

Lemma generate_documents_frame {A} (xs : list A) :
  forall (u : MongoSampleUser.t) (w : World),
    calls (snd (snd (comprehension xs (fun _ => MongoSampleUser.generate_new_document)
                                   (u, w)))) = calls w.
Proof.
  induction xs as [|x xs IH]; intros u w; [reflexivity|].
  cbn [comprehension]. unfold bind at 1.
  pose proof (proj1 (generate_new_document_frame u w)) as H1.
  destruct (MongoSampleUser.generate_new_document (u, w)) as [[d|e] [u1 w1]];
    cbn [fst snd] in *; [|exact H1].
  unfold bind at 1. pose proof (IH u1 w1) as H2.
  destruct (comprehension xs _ (u1, w1)) as [[ds|e] [u2 w2]];
    unfold ret; cbn [fst snd] in *; congruence.
Qed.

Lemma doc_key_get (doc : Document) (s : MongoSampleUser.t * World) :
  @lift (MongoSampleUser.t * World) _
        (Dict.get_or_none doc (PyStr "RECON_RECORD_ID")) s = (Ok (doc_key doc), s).
Proof.
  unfold lift, Dict.get_or_none, doc_key. cbn [hashable].
  destruct (Dict.find _ doc); reflexivity.
Qed.

(** One task makes at most one call, on the collection meant for it. *)
Lemma run_task_calls (task : Task) (s : MongoSampleUser.t * World) :
  exists new,
    calls (snd (snd (run_task task s))) = calls (snd s) ++ new
    /\ (List.length new <= 1)%nat
    /\ Forall well_targeted new.
Proof.
  destruct s as [u w]. destruct task; cbn [run_task snd].
  - exists [Aggregate Secondary MongoSampleUser.pipeline]. split; [reflexivity|].
    split; [simpl; lia|]. constructor; [split; reflexivity|constructor].
  - unfold MongoSampleUser.insert_single_document. unfold bind at 1.
    pose proof (proj1 (generate_new_document_frame u w)) as Hg.
    destruct (MongoSampleUser.generate_new_document (u, w)) as [[doc|e] [u1 w1]];
      cbn [fst snd] in *.
    + rewrite (bind_ok _ _ _ _ _ (doc_key_get doc (u1, w1))). unfold bind at 1.
      destruct (cache_rec_id_cases (doc_key doc) u1 w1) as (Hc & _).
      destruct (MongoSampleUser.cache_rec_id (doc_key doc) (u1, w1)) as [[[]|e] [u2 w2]];
        cbn [fst snd] in *.
      * exists [InsertOne Primary doc]. cbn. rewrite Hc, Hg.
        split; [reflexivity|]. split; [lia|]. constructor; [reflexivity|constructor].
      * exists []. rewrite app_nil_r, Hc, Hg. split; [reflexivity|].
        split; [simpl; lia|constructor].
    + exists []. rewrite app_nil_r. split; [exact Hg|]. split; [simpl; lia|constructor].
  - destruct (MongoSampleUser.id_cache u) eqn:Ec.
    + rewrite (find_document_empty u w Ec). exists []. rewrite app_nil_r.
      split; [reflexivity|]. split; [simpl; lia|constructor].
    + destruct (find_document_nonempty u w) as (key & _ & _ & Hrun); [congruence|].
      rewrite Hrun. eexists. split; [reflexivity|]. split; [simpl; lia|].
      constructor; [reflexivity|constructor].
  - unfold MongoSampleUser.insert_documents_bulk. unfold bind at 1.
    pose proof (generate_documents_frame (range docs_per_batch) u w) as Hg.
    destruct (comprehension (range docs_per_batch) _ (u, w)) as [[docs|e] [u1 w1]];
      cbn [fst snd] in *.
    + rewrite (bind_ok _ _ _ _ _ (refresh_loop_eq docs u1 w1)).
      exists [InsertMany Primary docs]. cbn. rewrite Hg.
      split; [reflexivity|]. split; [lia|]. constructor; [reflexivity|constructor].
    + exists []. rewrite app_nil_r. split; [exact Hg|]. split; [simpl; lia|constructor].
Qed.

(** X3.  Whatever tasks run and in whatever order, the worker only ever
    adds calls to those already made, at most one per task, and every call
    goes where it is meant to: inserts and lookups to the primary
    collection, the aggregation to the secondary one with the fixed
    pipeline. *)
Theorem store_calls_well_targeted (tasks : list Task) :
  forall s,
    exists new,
      calls (snd (run_tasks tasks s)) = calls (snd s) ++ new
      /\ (List.length new <= List.length tasks)%nat
      /\ Forall well_targeted new.
Proof.
  induction tasks as [|task tasks IH]; intros s.
  - exists []. rewrite app_nil_r. split; [reflexivity|]. split; [simpl; lia|constructor].
  - unfold run_tasks. cbn [fold_left].
    destruct (run_task_calls task s) as (n1 & H1 & L1 & W1).
    destruct (IH (snd (run_task task s))) as (n2 & H2 & L2 & W2).
    exists (n1 ++ n2). unfold run_tasks in H2. rewrite H2, H1, app_assoc.
    split; [reflexivity|]. split.
    + rewrite length_app. simpl. lia.
    + apply Forall_app. auto.
Qed.

(** ** What the cache holds *)

Lemma list_setitem_Forall {A} (P : A -> Prop) (l : list A) :
  forall i v l', list_setitem l i v = Ok l' -> Forall P l -> P v -> Forall P l'.
Proof.
  induction l as [|x l IH]; intros [|i] v l' Hset Hall Hv; simpl in Hset;
    try discriminate.
  - inversion Hset; subst. inversion Hall; subst. constructor; assumption.
  - destruct (list_setitem l i v) as [l''|e] eqn:E; [|discriminate].
    inversion Hset; subst. inversion Hall; subst. constructor; eauto.
Qed.

Lemma cache_rec_id_present (k : pyval) (u : MongoSampleUser.t) (w : World) :
  Forall (fun x => is_none x = false) (MongoSampleUser.id_cache u) ->
  Forall (fun x => is_none x = false)
         (MongoSampleUser.id_cache (fst (snd (MongoSampleUser.cache_rec_id k (u, w))))).
Proof.
  intros Hall.
  destruct (cache_rec_id_cases k u w) as (_ & _ & _ & [Hsame|[Hk [Happ|[i Hset]]]]).
  - now rewrite Hsame.
  - rewrite Happ. apply Forall_app. split; [assumption|]. constructor; [assumption|constructor].
  - eapply list_setitem_Forall; eauto.
Qed.

Lemma Forall_firstn {A} (P : A -> Prop) (n : nat) (l : list A) :
  Forall P l -> Forall P (firstn n l).
Proof.
  revert l. induction n as [|n IH]; intros l H; [constructor|].
  destruct H; simpl; constructor; auto.
Qed.

Lemma present_keys_present (docs : list Document) :
  Forall (fun x => is_none x = false) (present_keys docs).
Proof.
  unfold present_keys. apply Forall_forall. intros x Hx.
  apply filter_In in Hx. now apply negb_true_iff.
Qed.

Lemma run_task_present (task : Task) (s : MongoSampleUser.t * World) :
  Forall (fun x => is_none x = false) (MongoSampleUser.id_cache (fst s)) ->
  Forall (fun x => is_none x = false)
         (MongoSampleUser.id_cache (fst (snd (run_task task s)))).
Proof.
  destruct s as [u w]. intros Hall. cbn [fst] in Hall.
  destruct task; cbn [run_task].
  - exact Hall.
  - unfold MongoSampleUser.insert_single_document. unfold bind at 1.
    pose proof (generate_new_document_cache u w) as Hc.
    destruct (MongoSampleUser.generate_new_document (u, w)) as [[doc|e] [u1 w1]];
      cbn [fst snd] in *; [|now rewrite Hc].
    rewrite (bind_ok _ _ _ _ _ (doc_key_get doc (u1, w1))). unfold bind at 1.
    rewrite <- Hc in Hall.
    pose proof (cache_rec_id_present (doc_key doc) u1 w1 Hall) as Hp.
    destruct (MongoSampleUser.cache_rec_id (doc_key doc) (u1, w1)) as [[[]|e] [u2 w2]];
      exact Hp.
  - destruct (MongoSampleUser.id_cache u) eqn:Ec.
    + rewrite (find_document_empty u w Ec). cbn [fst snd]. now rewrite Ec.
    + destruct (find_document_nonempty u w) as (key & _ & _ & Hrun); [congruence|].
      rewrite Hrun. cbn [fst snd]. now rewrite Ec.
  - unfold MongoSampleUser.insert_documents_bulk. unfold bind at 1.
    pose proof (generate_batch_cache (range docs_per_batch) u w) as Hc.
    destruct (comprehension (range docs_per_batch) _ (u, w)) as [[docs|e] [u1 w1]];
      cbn [fst snd] in *; [|now rewrite Hc].
    rewrite (bind_ok _ _ _ _ _ (refresh_loop_eq docs u1 w1)).
    cbn [fst snd on_world zoom emit modify MongoSampleUser.set_id_cache
             MongoSampleUser.id_cache].
    rewrite refreshed_closed_form, Hc. apply Forall_app. split; [assumption|].
    apply Forall_firstn, present_keys_present.
Qed.

(** X4.  The cache never holds [None]: if it holds none before, it holds
    none after any sequence of tasks; and on such a cache, when it is not
    empty, the find task looks up a key that is not [None]. *)
Theorem cache_never_holds_none :
  (forall tasks s,
      Forall (fun x => is_none x = false) (MongoSampleUser.id_cache (fst s)) ->
      Forall (fun x => is_none x = false)
             (MongoSampleUser.id_cache (fst (run_tasks tasks s))))
  /\ (forall u w,
         Forall (fun x => is_none x = false) (MongoSampleUser.id_cache u) ->
         MongoSampleUser.id_cache u <> [] ->
         exists key,
           is_none key = false
           /\ In key (MongoSampleUser.id_cache u)
           /\ calls (snd (snd (MongoSampleUser.find_document (u, w)))) =
              calls w ++ [FindOne Primary (PyDict [("RECON_RECORD_ID", key)])]).
Proof.
  split.
  - induction tasks as [|task tasks IH]; intros s Hall; [exact Hall|].
    unfold run_tasks. cbn [fold_left]. apply IH. now apply run_task_present.
  - intros u w Hall Hne.
    destruct (find_document_nonempty u w Hne) as (key & Hnth & _ & Hrun).
    apply nth_error_In in Hnth. exists key. split; [|split; [exact Hnth|]].
    + rewrite Forall_forall in Hall. auto.
    + rewrite Hrun. reflexivity.
Qed.

(** ** An insert followed by a find *)

(** X5.  After a successful single insert into a worker with an empty
    cache, [generate_new_document] has returned a document [doc] on the
    state the task started from, and exactly one call was made, the insert
    of that [doc] on the primary; if [doc] has a record id the cache holds
    exactly that id and the next find looks it up; if it has none the
    cache is still empty and the next find does nothing. *)
Theorem insert_then_find :
  forall u w u1 w1,
    MongoSampleUser.id_cache u = [] ->
    MongoSampleUser.insert_single_document (u, w) = (Ok tt, (u1, w1)) ->
    exists doc u0 w0,
      MongoSampleUser.generate_new_document (u, w) = (Ok doc, (u0, w0))
      /\ calls w1 = calls w ++ [InsertOne Primary doc]
      /\ (is_none (doc_key doc) = false ->
          MongoSampleUser.id_cache u1 = [doc_key doc]
          /\ forall w2,
              MongoSampleUser.find_document (u1, w2) =
              (Ok tt,
               (u1, with_calls (with_rng w2 (snd (next_cell (rng w2))))
                      (calls w2 ++ [FindOne Primary
                                      (PyDict [("RECON_RECORD_ID", doc_key doc)])]))))
      /\ (is_none (doc_key doc) = true ->
          MongoSampleUser.id_cache u1 = []
          /\ forall w2, MongoSampleUser.find_document (u1, w2) = (Ok tt, (u1, w2))).
Proof.
  intros u w u1 w1 Hempty Hrun.
  unfold MongoSampleUser.insert_single_document in Hrun. unfold bind at 1 in Hrun.
  pose proof (generate_new_document_cache u w) as Hc.
  pose proof (proj1 (generate_new_document_frame u w)) as Hg.
  destruct (MongoSampleUser.generate_new_document (u, w)) as [[doc|e] [u0 w0]];
    cbn [fst snd] in *; [|discriminate].
  rewrite (bind_ok _ _ _ _ _ (doc_key_get doc (u0, w0))) in Hrun.
  rewrite Hempty in Hc. exists doc, u0, w0. split; [reflexivity|].
  destruct (is_none (doc_key doc)) eqn:Hk.
  - assert (Hnone : doc_key doc = PyNone) by (destruct (doc_key doc); try discriminate; auto).
    rewrite Hnone, (bind_ok _ _ _ _ _ (cache_rec_id_none (u0, w0))) in Hrun.
    cbn in Hrun. inversion Hrun; subst u1 w1. cbn. rewrite Hg.
    split; [reflexivity|]. split; [discriminate|]. intros _. split; [exact Hc|].
    intros w2. now apply find_document_empty.
  - assert (Hlt : len (MongoSampleUser.id_cache u0) < IDS_TO_CACHE)
      by (rewrite Hc; reflexivity).
    rewrite (bind_ok _ _ _ _ _ (cache_rec_id_append (doc_key doc) u0 w0 Hk Hlt)) in Hrun.
    cbn in Hrun. inversion Hrun; subst u1 w1. cbn. rewrite Hg, Hc.
    split; [reflexivity|]. split; [|discriminate]. intros _. split; [reflexivity|].
    intros w2.
    destruct (find_document_nonempty
                (MongoSampleUser.set_id_cache u0 ([] ++ [doc_key doc])) w2)
      as (key & Hnth & Hi & Hfind); [cbn; discriminate|].
    cbn [MongoSampleUser.set_id_cache MongoSampleUser.id_cache app] in *.
    unfold len in Hi, Hnth. cbn [List.length] in Hi, Hnth.
    replace (Z.to_nat _) with O in Hnth by lia.
    cbn in Hnth. inversion Hnth; subst key. exact Hfind.
Qed.

(** ** When the generator can be constructed *)

Lemma as_index_raise (v : pyval) (e : exn) : as_index v = Raise e -> e = TypeError.
Proof. destruct v; cbn; intros H; inversion H; reflexivity. Qed.

(** The first loop of [__init__] stops at the first field it does not
    get past, with the exception of that field. *)
Lemma init_fields_spec (seed : Z) (fields : list SchemaField) :
  forall c p,
    match find (fun f => negb (constructible seed f)) fields with
    | None => exists c' p', SchemaGenerator.init_fields fields seed c p = Ok (c', p')
    | Some f =>
        SchemaGenerator.init_fields fields seed c p = Raise (construction_error seed f)
    end.
Proof.
  induction fields as [|f rest IH]; intros c p; [cbn; eauto|].
  cbn [find SchemaGenerator.init_fields].
  generalize (eq_refl (construction_error seed f)).
  unfold construction_error at 2.
  unfold constructible, Dict.setitem, deque.rotate.
  destruct (as_index (unique_range f)) as [r|e] eqn:Ea;
    [destruct (deque.fits_ssize_t (seed mod r))
    |apply as_index_raise in Ea; subst e];
    destruct (unique f); destruct (hashable (name f));
    destruct (truthy (unique_range f)); cbn [andb negb];
    intros Herr; try apply IH; rewrite Herr; reflexivity.
Qed.

Lemma find_failing {A} (P : A -> bool) (l : list A) :
  match find (fun x => negb (P x)) l with
  | None => forallb P l = true
  | Some x => forallb P l = false /\ In x l
  end.
Proof.
  induction l as [|a l IH]; cbn; [reflexivity|].
  destruct (P a); cbn.
  - destruct (find _ l); [split; [apply IH|right; apply IH]|exact IH].
  - auto.
Qed.

(** The rotation count of a range that is not below the smallest C
    [ssize_t] converts to one, for every seed that is drawn. *)
Lemma fits_of_range (seed r : Z) :
  1 <= seed <= 1000000000 ->
  - deque.PY_SSIZE_T_MAX - 1 <= r ->
  deque.fits_ssize_t (seed mod r) = true.
Proof.
  intros Hs Hr. unfold deque.fits_ssize_t, deque.PY_SSIZE_T_MAX in *.
  apply andb_true_iff. rewrite !Z.leb_le.
  change (2 ^ 63) with 9223372036854775808 in *.
  destruct (Z.eq_dec r 0) as [->|Hnz].
  - rewrite Z.mod_0_r. lia.
  - destruct (Z_lt_le_dec r 0) as [Hneg|Hpos].
    + pose proof (Z.mod_neg_bound seed r Hneg). lia.
    + pose proof (Z.mod_pos_bound seed r ltac:(lia)).
      pose proof (Z.mod_le seed r ltac:(lia) ltac:(lia)). lia.
Qed.

Lemma construction_error_cases (seed : Z) (f : SchemaField) :
  (construction_error seed f = TypeError \/ construction_error seed f = OverflowError)
  /\ (1 <= seed <= 1000000000 -> range_fits f = true ->
      construction_error seed f = TypeError).
Proof.
  unfold construction_error, range_fits.
  destruct (unique f && negb (hashable (name f))); [auto|].
  destruct (as_index (unique_range f)) as [r|e]; [|auto].
  split.
  - destruct (deque.fits_ssize_t (seed mod r)); auto.
  - intros Hs Hr. apply Z.leb_le in Hr. now rewrite (fits_of_range seed r Hs Hr).
Qed.

(** X6.  Constructing a generator draws one integer, the seed, of
    [[1, 1_000_000_000]].  Without the validation library it then succeeds
    exactly when the first loop gets past every field: every [unique]
    field has a hashable name, and every field with a truthy
    [unique_range] has an integer range [r], a rotation count [seed % r]
    that converts to a C [ssize_t], and a hashable name; the generator
    holds the schema and the seed.  Otherwise, with or without the
    library, it raises the exception of the first field, in schema order,
    that the loop does not get past: [OverflowError] when the name of
    that field passed, its range is an integer and the rotation count
    does not convert, [TypeError] in the other cases; it is [TypeError]
    when no integer range of the schema is below [-2^63].  The memory
    that the pools take is not modelled. *)
Theorem generator_construction :
  forall (fields : list SchemaField) (w : World),
    (forallb (constructible (seed_of w)) fields = true ->
     exists g,
       SchemaGenerator.__init__ None fields w
       = (Ok g, with_rng w (snd (next_cell (rng w))))
       /\ SchemaGenerator.spec g = fields
       /\ SchemaGenerator._validator_model g = None
       /\ SchemaGenerator._seed g = seed_of w
       /\ 1 <= SchemaGenerator._seed g <= 1000000000)
    /\ (forall f,
          find (fun f => negb (constructible (seed_of w) f)) fields = Some f ->
          forall pydantic,
            SchemaGenerator.__init__ pydantic fields w
            = (Raise (construction_error (seed_of w) f),
               with_rng w (snd (next_cell (rng w)))))
    /\ (forallb (constructible (seed_of w)) fields = false ->
        forall pydantic,
          exists e,
            SchemaGenerator.__init__ pydantic fields w
            = (Raise e, with_rng w (snd (next_cell (rng w))))
            /\ (e = TypeError \/ e = OverflowError)
            /\ (forallb range_fits fields = true -> e = TypeError)).
Proof.
  intros fields w.
  assert (Hdraw : draw (random.randint 1 1000000000) w
                  = (Ok (seed_of w), with_rng w (snd (next_cell (rng w))))).
  { unfold draw, zoom. rewrite randint_eq by lia. reflexivity. }
  pose proof (init_fields_spec (seed_of w) fields Dict.empty Dict.empty) as Hi.
  pose proof (find_failing (constructible (seed_of w)) fields) as Hf.
  assert (Hraise : forall f,
             find (fun f => negb (constructible (seed_of w) f)) fields = Some f ->
             forall pydantic,
               SchemaGenerator.__init__ pydantic fields w
               = (Raise (construction_error (seed_of w) f),
                  with_rng w (snd (next_cell (rng w))))).
  { intros f Hfind pydantic. rewrite Hfind in Hi.
    unfold SchemaGenerator.__init__.
    rewrite (bind_ok _ _ _ _ _ Hdraw). unfold bind, lift. now rewrite Hi. }
  split; [|split].
  - intros Hc.
    destruct (find _ fields) as [f|]; [destruct Hf as [Hf _]; congruence|].
    destruct Hi as (c' & p' & Hi).
    unfold SchemaGenerator.__init__.
    rewrite (bind_ok _ _ _ _ _ Hdraw). unfold bind, lift, ret. rewrite Hi. cbn.
    eexists. split; [reflexivity|]. cbn. repeat split; apply seed_of_range.
  - exact Hraise.
  - intros Hc pydantic.
    destruct (find _ fields) as [f|] eqn:Hfind; [|congruence].
    destruct Hf as [_ Hin].
    exists (construction_error (seed_of w) f).
    split; [now apply Hraise|].
    destruct (construction_error_cases (seed_of w) f) as [Hcases Hfits].
    split; [exact Hcases|].
    intros Hall. apply Hfits; [apply seed_of_range|].
    rewrite forallb_forall in Hall. now apply Hall.
Qed.

(** ** Seeds keep workers apart *)

(** X7.  Two generators with different seeds give unique integer fields
    with no non-empty [allowed_values] different values, as long as the
    counter of each field is present and below 1_000_000, that is, each
    generator has produced fewer than 1_000_000 values for its field. *)
Theorem distinct_seeds_distinct_values :
  forall (f1 f2 : SchemaField) g1 g2 w1 w2 c1 c2,
    eq_str (ftype f1) "int" = true -> unique f1 = true ->
    truthy (allowed_values f1) = false ->
    eq_str (ftype f2) "int" = true -> unique f2 = true ->
    truthy (allowed_values f2) = false ->
    Dict.find (name f1) (SchemaGenerator._unique_counters g1) = Some c1 ->
    Dict.find (name f2) (SchemaGenerator._unique_counters g2) = Some c2 ->
    0 <= c1 < 1000000 -> 0 <= c2 < 1000000 ->
    SchemaGenerator._seed g1 <> SchemaGenerator._seed g2 ->
    exists z1 z2,
      fst (SchemaGenerator._gen_value f1 (g1, w1)) = Ok (PyInt z1)
      /\ fst (SchemaGenerator._gen_value f2 (g2, w2)) = Ok (PyInt z2)
      /\ z1 <> z2.
Proof.
  intros f1 f2 g1 g2 w1 w2 c1 c2 T1 U1 A1 T2 U2 A2 H1 H2 B1 B2 Hs.
  rewrite (gen_unique_step f1 T1 U1 A1 g1 w1 c1 H1).
  rewrite (gen_unique_step f2 T2 U2 A2 g2 w2 c2 H2).
  do 2 eexists. split; [reflexivity|]. split; [reflexivity|]. lia.
Qed.

(** ** Fields the generator was not constructed for *)

Lemma init_fields_absent (k : pyval) (seed : Z) (fields : list SchemaField) :
  forall c p c' p',
    SchemaGenerator.init_fields fields seed c p = Ok (c', p') ->
    (forall x, In x fields -> key_eqb (name x) k = false) ->
    Dict.find k c' = Dict.find k c /\ Dict.find k p' = Dict.find k p.
Proof.
  induction fields as [|x rest IH]; intros c p c' p' Hi Hk.
  - cbn in Hi. inversion Hi. auto.
  - apply init_fields_cons in Hi. destruct Hi as (c1 & p1 & Hrest & Hc1 & Hp1).
    destruct (IH _ _ _ _ Hrest) as [Ec Ep]; [intros; apply Hk; now right|].
    pose proof (Hk x (or_introl eq_refl)) as Hx.
    rewrite Ec, Ep. split.
    + destruct (unique x); [destruct Hc1 as [_ ->]|now subst].
      now apply DictFacts.find_store_other.
    + destruct (truthy (unique_range x)); [|now subst].
      destruct Hp1 as (r & _ & _ & ->). now apply DictFacts.find_store_other.
Qed.

(** X8.  A generator whose construction succeeded, asked for a value of
    a field of type [int] with no non-empty [allowed_values] that is
    [unique] or has a truthy [unique_range], and whose name no field of
    its schema has, raises [KeyError] when that name is hashable and
    [TypeError] when it is not (a list or a dict), and changes nothing. *)
Theorem foreign_field_raises_KeyError :
  forall pydantic fields w0 g w1 (field : SchemaField) w,
    SchemaGenerator.__init__ pydantic fields w0 = (Ok g, w1) ->
    (forall x, In x fields -> key_eqb (name x) (name field) = false) ->
    eq_str (ftype field) "int" = true ->
    truthy (allowed_values field) = false ->
    unique field = true \/ truthy (unique_range field) = true ->
    SchemaGenerator._gen_value field (g, w)
    = (Raise (if hashable (name field) then KeyError else TypeError), (g, w)).
Proof.
  intros pydantic fields w0 g w1 field w Hinit Hk Hty Hfree Hwhich.
  apply init_inv in Hinit. destruct Hinit as (Hfields & _).
  destruct (init_fields_absent (name field) _ _ _ _ _ _ Hfields Hk) as [Ec Ep].
  cbn in Ec, Ep.
  unfold SchemaGenerator._gen_value. rewrite Hfree, Hty.
  destruct (unique field).
  - unfold bind, on_self, zoom, lift, get, Dict.getitem. cbn [fst snd].
    destruct (hashable (name field)); [now rewrite Ec|reflexivity].
  - destruct Hwhich as [|Hr]; [discriminate|]. rewrite Hr.
    unfold bind, on_self, zoom, lift, get, Dict.getitem. cbn [fst snd].
    destruct (hashable (name field)); [now rewrite Ep|reflexivity].
Qed.

(** ** A negative range *)

(** X9.  In a generator whose construction succeeded, a field of the
    schema of type [int], not [unique] and with no non-empty
    [allowed_values], whose [unique_range] is a negative integer [R], has
    an empty pool, and every call of the value generator for it raises
    [IndexError] and changes nothing, provided every field of the schema
    with the same name and a truthy [unique_range] has the same range
    [R]: a later field of that name with another range replaces the
    pool. *)
Theorem negative_range_raises_IndexError :
  forall pydantic fields w0 g w1 (field : SchemaField) (R : Z) w,
    SchemaGenerator.__init__ pydantic fields w0 = (Ok g, w1) ->
    In field fields ->
    (forall f', In f' fields -> key_eqb (name f') (name field) = true ->
                truthy (unique_range f') = true -> unique_range f' = PyInt R) ->
    unique_range field = PyInt R ->
    R < 0 ->
    eq_str (ftype field) "int" = true ->
    unique field = false ->
    truthy (allowed_values field) = false ->
    Dict.find (name field) (SchemaGenerator._unique_range_pools g) = Some []
    /\ SchemaGenerator._gen_value field (g, w) = (Raise IndexError, (g, w)).
Proof.
  intros pydantic fields w0 g w1 field R w Hinit Hin Hsame HR Hneg Hty Hu Hfree.
  apply init_inv in Hinit. destruct Hinit as (Hfields & _).
  assert (Hnz : R <> 0) by lia.
  pose proof (init_fields_pool field R _ HR Hnz fields _ _ _ _ Hfields Hsame
                               (or_introl Hin)) as Hp.
  assert (Hempty : range R = []).
  { unfold range. replace (Z.to_nat R) with O by lia. reflexivity. }
  rewrite Hempty in Hp. cbn [deque.rotated] in Hp.
  split; [exact Hp|].
  pose proof (DictFacts.find_hashable _ _ _ Hp) as Hh.
  unfold SchemaGenerator._gen_value. rewrite Hfree, Hty, Hu, HR.
  assert (Ht : truthy (PyInt R) = true) by (cbn; apply negb_true_iff, Z.eqb_neq; lia).
  rewrite Ht.
  unfold bind, on_self, zoom, lift, get, Dict.getitem. cbn [fst snd].
  now rewrite Hh, Hp.
Qed.

(** ** The values of a ranged field in closed form *)

Lemma range_nth (R : Z) (j : nat) :
  (j < Z.to_nat R)%nat -> nth j (range R) 0 = Z.of_nat j.
Proof.
  intros Hj. unfold range. change 0 with (Z.of_nat 0).
  rewrite map_nth, seq_nth by assumption. reflexivity.
Qed.

Lemma rotate_nonempty (n : Z) (d : list Z) :
  d <> [] ->
  deque.rotated n d =
    skipn (Z.to_nat ((len d - n mod len d) mod len d)) d
    ++ firstn (Z.to_nat ((len d - n mod len d) mod len d)) d.
Proof. destruct d; [congruence|reflexivity]. Qed.

Lemma pool_at_init (R seed : Z) :
  0 < R -> pool_at R seed 0 (deque.rotated (seed mod R) (range R)).
Proof.
  intros HR.
  assert (Hlen : List.length (range R) = Z.to_nat R) by apply range_length.
  assert (Hne : range R <> []).
  { intros E. rewrite E in Hlen. simpl in Hlen. lia. }
  rewrite (rotate_nonempty _ _ Hne). unfold len. rewrite Hlen, Z2Nat.id by lia.
  pose proof (Z.mod_pos_bound seed R HR) as Hs.
  rewrite (Z.mod_small (seed mod R) R) by lia.
  pose proof (Z.div_mod seed R) as Hdm.
  set (s0 := seed mod R) in *.
  set (cut := Z.to_nat ((R - s0) mod R)).
  assert (Hcut : Z.of_nat cut = if s0 =? 0 then 0 else R - s0).
  { unfold cut. destruct (s0 =? 0) eqn:E.
    - apply Z.eqb_eq in E. rewrite E, Z.sub_0_r, Z.mod_same by lia. reflexivity.
    - apply Z.eqb_neq in E. rewrite Z.mod_small by lia. lia. }
  split.
  - rewrite length_app, length_skipn, length_firstn, Hlen.
    destruct (s0 =? 0); lia.
  - intros j Hj.
    rewrite length_app, length_skipn, length_firstn, Hlen in Hj.
    assert (HjR : (j < Z.to_nat R)%nat) by (destruct (s0 =? 0); lia).
    destruct (Nat.lt_ge_cases j (Z.to_nat R - cut)) as [Hlt|Hge].
    + rewrite app_nth1 by (rewrite length_skipn, Hlen; exact Hlt).
      rewrite nth_skipn, range_nth by lia.
      destruct (s0 =? 0) eqn:E.
      * apply Z.eqb_eq in E.
        apply (Z.mod_unique _ _ (- (seed / R))); lia.
      * apply Z.eqb_neq in E.
        apply (Z.mod_unique _ _ (- (seed / R) - 1)); lia.
    + rewrite app_nth2 by (rewrite length_skipn, Hlen; exact Hge).
      rewrite length_skipn, Hlen, nth_firstn.
      assert (Hin : (j - (Z.to_nat R - cut) <? cut)%nat = true)
        by (apply Nat.ltb_lt; lia).
      rewrite Hin, range_nth by lia.
      destruct (s0 =? 0) eqn:E; [lia|].
      apply Z.eqb_neq in E.
      apply (Z.mod_unique _ _ (- (seed / R))); lia.
Qed.

Lemma pool_at_step (R s t x : Z) (rest : list Z) :
  0 < R ->
  pool_at R s t (x :: rest) ->
  x = (t - s) mod R /\ pool_at R s (t + 1) (rest ++ [x]).
Proof.
  intros HR [Hlen Hnth].
  assert (Hx : x = (t - s) mod R).
  { specialize (Hnth O). cbn in Hnth. rewrite <- Hnth by lia. reflexivity. }
  split; [exact Hx|]. split.
  - rewrite length_app. simpl in *. lia.
  - intros j Hj. rewrite length_app in Hj. simpl in Hj.
    destruct (Nat.lt_ge_cases j (List.length rest)) as [Hlt|Hge].
    + rewrite app_nth1 by assumption.
      specialize (Hnth (S j)). cbn [nth] in Hnth. rewrite Hnth by (simpl; lia).
      f_equal. lia.
    + assert (j = List.length rest) by lia. subst j.
      rewrite nth_middle, Hx. simpl List.length in Hlen.
      replace (Z.of_nat (List.length rest) + (t + 1) - s) with (t - s + 1 * R) by lia.
      now rewrite Z.mod_add by lia.
Qed.

Section RangeClosedForm.

Variable field : SchemaField.
Variable R : Z.
Hypothesis Hint_ : eq_str (ftype field) "int" = true.
Hypothesis Hunique : unique field = false.
Hypothesis Hfree : truthy (allowed_values field) = false.
Hypothesis Hrange : truthy (unique_range field) = true.
Hypothesis HR : 0 < R.

Lemma gen_range_closed_run (s : Z) (n : nat) :
  forall (t : Z) (p : list Z) g w,
    pool_at R s t p ->
    Dict.find (name field) (SchemaGenerator._unique_range_pools g) = Some p ->
    exists g',
      gen_values field n (g, w) =
        (Ok (map (fun i => PyInt ((t + Z.of_nat i - s) mod R)) (seq 0 n)), (g', w)).
Proof.
  induction n as [|n IH]; intros t p g w Hat Hp.
  - exists g. reflexivity.
  - destruct p as [|x rest].
    { destruct Hat as [Hlen _]. simpl in Hlen. lia. }
    destruct (pool_at_step R s t x rest HR Hat) as [Hx Hat'].
    pose proof (DictFacts.find_hashable _ _ _ Hp) as Hk.
    pose proof (gen_range_step field Hint_ Hunique Hfree Hrange g w x rest Hp) as Hstep.
    set (g1 := SchemaGenerator.set_pools g _) in Hstep.
    assert (Hp1 : Dict.find (name field) (SchemaGenerator._unique_range_pools g1)
                  = Some (rest ++ [x]))
      by (apply DictFacts.find_store_same; assumption).
    destruct (IH (t + 1) (rest ++ [x]) g1 w Hat' Hp1) as (g' & Hrun).
    exists g'. rewrite gen_values_succ.
    rewrite (bind_ok _ _ _ _ _ Hstep), (bind_ok _ _ _ _ _ Hrun). unfold ret.
    do 2 f_equal. cbn [seq map]. f_equal.
    + rewrite Hx. do 2 f_equal. lia.
    + rewrite <- (seq_shift n 0), map_map. apply map_ext. intros i. do 2 f_equal. lia.
Qed.

End RangeClosedForm.

(** X10.  In a generator constructed from a schema that contains it, an
    integer field with [unique_range = R > 0] (not [unique], not
    enumerated, the fields sharing its name having the same range) yields
    [(i - seed) mod R] as its [i]-th value, counting from zero, for every
    number of calls: the values never leave [[0, R)] and repeat with period
    [R], starting at [-seed mod R]. *)
Theorem unique_range_closed_form :
  forall (field : SchemaField) (R : Z),
    eq_str (ftype field) "int" = true ->
    unique field = false ->
    truthy (allowed_values field) = false ->
    unique_range field = PyInt R ->
    0 < R ->
    forall pydantic fields w0 g w1 w (n : nat),
      SchemaGenerator.__init__ pydantic fields w0 = (Ok g, w1) ->
      In field fields ->
      (forall f', In f' fields -> key_eqb (name f') (name field) = true ->
                  truthy (unique_range f') = true -> unique_range f' = PyInt R) ->
      let values := map (fun i => (Z.of_nat i - SchemaGenerator._seed g) mod R) (seq 0 n) in
      (exists g', gen_values field n (g, w) = (Ok (map PyInt values), (g', w)))
      /\ Forall (fun z => 0 <= z < R) values.
Proof.
  intros field R Hty Hu Hfree HRange HR pydantic fields w0 g w1 w n Hinit Hin Hsame values.
  assert (Htr : truthy (unique_range field) = true).
  { rewrite HRange. simpl. apply negb_true_iff, Z.eqb_neq. lia. }
  apply init_inv in Hinit. destruct Hinit as (Hfields & Hseed & _ & _).
  assert (Hnz : R <> 0) by lia.
  pose proof (init_fields_pool field R _ HRange Hnz fields _ _ _ _ Hfields Hsame
                               (or_introl Hin)) as Hpool.
  rewrite <- Hseed in Hpool.
  destruct (gen_range_closed_run field R Hty Hu Hfree Htr HR (SchemaGenerator._seed g) n
              0 _ g w (pool_at_init R (SchemaGenerator._seed g) HR) Hpool) as (g' & Hrun).
  split.
  - exists g'. rewrite Hrun. unfold values. rewrite map_map. reflexivity.
  - unfold values. apply Forall_forall. intros z Hz. apply in_map_iff in Hz.
    destruct Hz as (i & <- & _). apply Z.mod_pos_bound. lia.
Qed.

(** ** The policies by type *)

Lemma choices_tape (n : nat) :
  forall t, snd (random.choices SchemaGenerator.alphabet n t) = advance t n.
Proof.
  induction n as [|n IH]; intros t; [now destruct t|].
  cbn [random.choices]. unfold bind at 1. unfold random.random53 at 1.
  cbn [next_cell].
  set (k := Z.of_N (cells t (head t)) mod 2 ^ 53).
  assert (Hk : 0 <= k < 2 ^ 53) by (apply Z.mod_pos_bound; lia).
  pose proof (floor_scaled_bound k Hk) as Hi.
  change (Z.of_nat (String.length SchemaGenerator.alphabet)) with 36.
  destruct (get_some SchemaGenerator.alphabet
              (Z.to_nat (random.floor_scaled k 36))) as (c & Hc).
  { change (String.length SchemaGenerator.alphabet) with 36%nat. lia. }
  rewrite Hc. unfold bind.
  pose proof (IH {| cells := cells t; head := S (head t) |}) as Ht.
  destruct (random.choices SchemaGenerator.alphabet n _) as [[cs|e] t'];
    cbn [snd] in *; unfold ret; cbn [snd]; rewrite Ht; unfold advance; cbn;
    f_equal; lia.
Qed.

(** X11.  For a field without a non-empty [allowed_values], by type: a
    skewed integer is in [[0, 9]] when the number drawn for
    [random.random()] is below [0.8] and in [[10, 10000]] otherwise, after
    two draws; a plain integer is in [[0, 10000]] after one draw; a string
    is 8 characters of the upper-case letters and digits after 8 draws,
    whatever the other attributes of the field; a date comes from the
    faker and leaves the random module alone.  None of them changes the
    generator. *)
Theorem type_policies :
  forall (field : SchemaField) g w,
    truthy (allowed_values field) = false ->
    (ftype field = PyStr "int" -> unique field = false ->
     truthy (unique_range field) = false -> skewed field = true ->
     exists z,
       SchemaGenerator._gen_value field (g, w)
       = (Ok (PyInt z), (g, with_rng w (advance (rng w) 2)))
       /\ (if random.below_0_8 (peek (rng w) 0 mod 2 ^ 53)
           then 0 <= z <= 9 /\ z = peek (rng w) 1 mod 10
           else 10 <= z <= 10000 /\ z = 10 + peek (rng w) 1 mod 9991))
    /\ (ftype field = PyStr "int" -> unique field = false ->
        truthy (unique_range field) = false -> skewed field = false ->
        exists z,
          SchemaGenerator._gen_value field (g, w)
          = (Ok (PyInt z), (g, with_rng w (advance (rng w) 1)))
          /\ 0 <= z <= 10000 /\ z = peek (rng w) 0 mod 10001)
    /\ (ftype field = PyStr "string" ->
        exists cs,
          SchemaGenerator._gen_value field (g, w)
          = (Ok (PyStr (join cs)), (g, with_rng w (advance (rng w) 8)))
          /\ List.length cs = 8%nat
          /\ Forall (fun c => In c (list_ascii_of_string SchemaGenerator.alphabet)) cs)
    /\ (ftype field = PyStr "date" ->
        SchemaGenerator._gen_value field (g, w)
        = (Ok (PyDatetime (peek (faker w) 0)), (g, with_faker w (advance (faker w) 1)))).
Proof.
  intros field g w Hfree. split; [|split; [|split]].
  - intros Hty Hu Hr Hs.
    assert (Hi : eq_str (ftype field) "int" = true) by now rewrite Hty.
    unfold SchemaGenerator._gen_value. rewrite Hfree, Hi, Hu, Hr, Hs.
    erewrite bind_ok; [|apply on_world_draw_ok; reflexivity].
    cbn [next_cell snd]. unfold peek. cbn [Nat.add].
    set (w1 := with_rng w _).
    destruct (random.below_0_8 _).
    + erewrite bind_ok; [|apply on_world_draw_ok, randint_eq; lia].
      unfold ret. eexists. split; [reflexivity|].
      cbn [w1 with_rng rng next_cell snd cells head].
      pose proof (Z.mod_pos_bound (Z.of_N (cells (rng w) (S (head (rng w))))) 10).
      change (9 - 0 + 1) with 10. lia.
    + erewrite bind_ok; [|apply on_world_draw_ok, randint_eq; lia].
      unfold ret. eexists. split; [reflexivity|].
      cbn [w1 with_rng rng next_cell snd cells head].
      pose proof (Z.mod_pos_bound (Z.of_N (cells (rng w) (S (head (rng w))))) 9991).
      change (10000 - 10 + 1) with 9991. lia.
  - intros Hty Hu Hr Hs.
    assert (Hi : eq_str (ftype field) "int" = true) by now rewrite Hty.
    unfold SchemaGenerator._gen_value. rewrite Hfree, Hi, Hu, Hr, Hs.
    erewrite bind_ok; [|apply on_world_draw_ok, randint_eq; lia].
    unfold ret. eexists. split; [reflexivity|]. unfold peek. cbn [Nat.add].
    pose proof (Z.mod_pos_bound (Z.of_N (cells (rng w) (head (rng w)))) 10001).
    change (10000 - 0 + 1) with 10001. lia.
  - intros Hty.
    assert (Hi : eq_str (ftype field) "int" = false) by now rewrite Hty.
    assert (Hs : eq_str (ftype field) "string" = true) by now rewrite Hty.
    unfold SchemaGenerator._gen_value. rewrite Hfree, Hi, Hs.
    destruct (choices_alphabet 8 (rng w)) as (cs & t' & Hcs & Hlen & Hall).
    pose proof (choices_tape 8 (rng w)) as Ht. rewrite Hcs in Ht. cbn [snd] in Ht.
    subst t'.
    erewrite bind_ok; [|apply on_world_draw_ok; exact Hcs].
    unfold ret. exists cs. auto.
  - intros Hty.
    assert (Hi : eq_str (ftype field) "int" = false) by now rewrite Hty.
    assert (Hs : eq_str (ftype field) "string" = false) by now rewrite Hty.
    assert (Hd : eq_str (ftype field) "date" = true) by now rewrite Hty.
    unfold SchemaGenerator._gen_value. rewrite Hfree, Hi, Hs, Hd. reflexivity.
Qed.

(** ** Field names under the validation library *)

Lemma key_eqb_non_str (k' k : pyval) :
  key_eqb k' k = true -> is_str k = false -> is_str k' = false.
Proof. destruct k', k; cbn; intros H1 H2; try discriminate; reflexivity. Qed.

Lemma all_str_keys_cons {V} (k : pyval) (v : V) (d : Dict.t V) :
  all_str_keys ((k, v) :: d) = is_str k && all_str_keys d.
Proof. unfold all_str_keys. cbn. now destruct k. Qed.

Lemma all_str_keys_store {V} (k : pyval) (v : V) (d : Dict.t V) :
  is_str k = false \/ all_str_keys d = false ->
  all_str_keys (Dict.store k v d) = false.
Proof.
  induction d as [|[k' v'] d IH]; intros H.
  - cbn [Dict.store]. rewrite all_str_keys_cons.
    destruct H as [->|H]; [reflexivity|discriminate].
  - rewrite all_str_keys_cons in H.
    cbn [Dict.store]. destruct (key_eqb k' k) eqn:E; rewrite !all_str_keys_cons.
    + destruct H as [H|H]; [|exact H].
      now rewrite (key_eqb_non_str _ _ E H).
    + destruct (is_str k'); [|reflexivity]. cbn [andb] in *. now apply IH.
Qed.

Lemma set_of_list_raise (l acc : list pyval) (e : exn) :
  set_of_list l acc = Raise e -> e = TypeError.
Proof.
  revert acc. induction l as [|x l IH]; intros acc; cbn; [discriminate|].
  destruct (hashable x); [apply IH|]. intros H. now inversion H.
Qed.

Lemma py_set_raise (v : pyval) (e : exn) : py_set v = Raise e -> e = TypeError.
Proof.
  destruct v; cbn; intros H; try (now inversion H);
    eapply set_of_list_raise; eauto.
Qed.

Lemma collect_defs_keys (fields : list SchemaField) :
  forall fd am,
    match SchemaGenerator.collect_defs fields fd am with
    | Ok (fd', _) =>
        all_str_keys fd = false \/ existsb (fun f => negb (is_str (name f))) fields = true ->
        all_str_keys fd' = false
    | Raise e => e = TypeError
    end.
Proof.
  induction fields as [|f rest IH]; intros fd am.
  - cbn. intros [H|H]; [exact H|discriminate].
  - cbn [SchemaGenerator.collect_defs existsb]. unfold Dict.setitem.
    destruct (hashable (name f)); [|reflexivity].
    set (fd1 := Dict.store (name f) _ fd).
    assert (Hfd1 : all_str_keys fd = false \/
                   negb (is_str (name f)) || existsb (fun f => negb (is_str (name f))) rest
                   = true ->
                   all_str_keys fd1 = false \/
                   existsb (fun f => negb (is_str (name f))) rest = true).
    { intros [H|H].
      - left. apply all_str_keys_store. now right.
      - apply orb_true_iff in H. destruct H as [H|H]; [|now right].
        left. apply all_str_keys_store. left. now apply negb_true_iff. }
    destruct (truthy (allowed_values f)).
    + destruct (py_set (allowed_values f)) as [allowed|e] eqn:Es;
        [|now apply py_set_raise in Es].
      specialize (IH fd1 (Dict.store (name f) allowed am)).
      destruct (SchemaGenerator.collect_defs rest fd1 _) as [[fd' am']|e]; auto.
    + specialize (IH fd1 am).
      destruct (SchemaGenerator.collect_defs rest fd1 am) as [[fd' am']|e]; auto.
Qed.

Lemma init_state pydantic fields w :
  snd (SchemaGenerator.__init__ pydantic fields w) = with_rng w (snd (next_cell (rng w))).
Proof.
  assert (Hdraw : draw (random.randint 1 1000000000) w
                  = (Ok (seed_of w), with_rng w (snd (next_cell (rng w))))).
  { unfold draw, zoom. rewrite randint_eq by lia. reflexivity. }
  unfold SchemaGenerator.__init__. rewrite (bind_ok _ _ _ _ _ Hdraw).
  unfold bind, lift, ret.
  destruct (SchemaGenerator.init_fields _ _ _ _); [|reflexivity].
  destruct (SchemaGenerator.build_validator _ _); reflexivity.
Qed.

(** A schema without a non-empty [allowed_values] leaves the allowed map
    as it was. *)
Lemma collect_defs_allowed (fields : list SchemaField) :
  forall fd am fd' am',
    SchemaGenerator.collect_defs fields fd am = Ok (fd', am') ->
    (forall x, In x fields -> truthy (allowed_values x) = false) ->
    am' = am.
Proof.
  induction fields as [|f rest IH]; intros fd am fd' am' Hc Hall.
  - cbn in Hc. now inversion Hc.
  - cbn [SchemaGenerator.collect_defs] in Hc.
    destruct (Dict.setitem fd (name f) _) as [fd1|e]; [|discriminate].
    rewrite (Hall f (or_introl eq_refl)) in Hc.
    apply (IH _ _ _ _ Hc). intros x Hx. apply Hall. now right.
Qed.

(** X12.  When the validation library is installed, a schema in which some
    field has a name that is not a string (a missing name among them)
    cannot be turned into a generator: construction raises [TypeError],
    whatever [create_model] does, provided no integer [unique_range] of
    the schema is below [-2^63] (the first loop then raises no
    [OverflowError]) and the library's [root_validator] is not called or
    returns: no field has a non-empty [allowed_values], or
    [root_validator] raises for no function. *)
Theorem library_rejects_non_string_name :
  forall (lib : Pydantic) (fields : list SchemaField) (w : World) (f : SchemaField),
    In f fields ->
    is_str (name f) = false ->
    forallb range_fits fields = true ->
    (forall x, In x fields -> truthy (allowed_values x) = false)
    \/ (forall check, exists validator, root_validator lib check = Ok validator) ->
    SchemaGenerator.__init__ (Some lib) fields w
    = (Raise TypeError, with_rng w (snd (next_cell (rng w)))).
Proof.
  intros lib fields w f Hin Hname Hfits Hlib.
  pose proof (init_state (Some lib) fields w) as Hst.
  assert (Hres : fst (SchemaGenerator.__init__ (Some lib) fields w) = Raise TypeError).
  { assert (Hdraw : draw (random.randint 1 1000000000) w
                    = (Ok (seed_of w), with_rng w (snd (next_cell (rng w))))).
    { unfold draw, zoom. rewrite randint_eq by lia. reflexivity. }
    unfold SchemaGenerator.__init__. rewrite (bind_ok _ _ _ _ _ Hdraw).
    unfold bind, lift, ret.
    pose proof (init_fields_spec (seed_of w) fields Dict.empty Dict.empty) as Hi.
    pose proof (find_failing (constructible (seed_of w)) fields) as Hf.
    destruct (find _ fields) as [x|].
    - rewrite Hi. cbn [fst]. f_equal.
      apply construction_error_cases; [apply seed_of_range|].
      rewrite forallb_forall in Hfits. apply Hfits, Hf.
    - destruct Hi as (c' & p' & ->).
      unfold SchemaGenerator.build_validator.
      pose proof (collect_defs_keys fields Dict.empty Dict.empty) as Hc.
      pose proof (collect_defs_allowed fields Dict.empty Dict.empty) as Ha.
      destruct (SchemaGenerator.collect_defs fields Dict.empty Dict.empty)
        as [[fd am]|e]; [|now subst e].
      assert (Hkeys : all_str_keys fd = false).
      { apply Hc. right. apply existsb_exists. exists f.
        split; [exact Hin|]. now rewrite Hname. }
      destruct am as [|entry am].
      + now rewrite Hkeys.
      + destruct Hlib as [Hnone|Hrv].
        * specialize (Ha _ _ eq_refl Hnone). discriminate.
        * destruct (Hrv (SchemaGenerator.check_allowed (entry :: am))) as (v & ->).
          now rewrite Hkeys. }
  destruct (SchemaGenerator.__init__ (Some lib) fields w) as [r s'].
  cbn in *. now subst.
Qed.

(** ** Starting a worker *)

Lemma on_start_eq pydantic raw u w :
  MongoSampleUser.on_start pydantic raw (u, w) =
    match MongoSampleUser._load_schema raw with
    | Raise e => (Raise e, (u, w))
    | Ok fields =>
        match SchemaGenerator.__init__ pydantic fields w with
        | (Ok g, w1) =>
            (Ok tt, ({| MongoSampleUser.id_cache := [];
                        MongoSampleUser.generator := Some g |}, w1))
        | (Raise e, w1) => (Raise e, (u, w1))
        end
    end.
Proof.
  unfold MongoSampleUser.on_start, bind, lift, on_world, on_self, zoom, modify.
  destruct (MongoSampleUser._load_schema raw) as [fields|e]; [|reflexivity].
  cbn [fst snd].
  destruct (SchemaGenerator.__init__ pydantic fields w) as [[g|e] w1]; reflexivity.
Qed.

(** X13. [on_start] is all or nothing on the worker: when it succeeds the
    cache is empty and the worker holds a generator for exactly the fields
    loaded from the schema, in file order; when loading or construction
    fails the worker is left as it was.  It makes no call on the store
    through the modelled collections, and draws at most the seed. *)
Theorem on_start_all_or_nothing :
  forall pydantic raw u w,
    let r := fst (MongoSampleUser.on_start pydantic raw (u, w)) in
    let u' := fst (snd (MongoSampleUser.on_start pydantic raw (u, w))) in
    let w' := snd (snd (MongoSampleUser.on_start pydantic raw (u, w))) in
    (r = Ok tt ->
     MongoSampleUser.id_cache u' = []
     /\ exists fields g,
         MongoSampleUser._load_schema raw = Ok fields
         /\ MongoSampleUser.generator u' = Some g
         /\ SchemaGenerator.spec g = fields
         /\ 1 <= SchemaGenerator._seed g <= 1000000000)
    /\ (forall e, r = Raise e -> u' = u)
    /\ calls w' = calls w
    /\ (w' = w \/ w' = with_rng w (snd (next_cell (rng w)))).
Proof.
  intros pydantic raw u w. cbv zeta. rewrite on_start_eq.
  destruct (MongoSampleUser._load_schema raw) as [fields|e0].
  2:{ cbn. repeat split; auto; discriminate. }
  pose proof (init_state pydantic fields w) as Hst.
  destruct (SchemaGenerator.__init__ pydantic fields w) as [[g|e1] w1] eqn:Hinit;
    cbn [fst snd] in *; subst w1.
  - split; [|split; [discriminate|split; [reflexivity|now right]]].
    intros _. split; [reflexivity|]. exists fields, g.
    destruct (init_inv _ _ _ _ _ Hinit) as (_ & Hseed & Hspec & _).
    repeat split; auto; rewrite Hseed; apply seed_of_range.
  - split; [discriminate|]. split; [reflexivity|]. split; [reflexivity|now right].
Qed.

(** ** What the loader accepts *)

Lemma load_items_spec (items : list pyval) :
  MongoSampleUser.load_items items =
    if forallb is_dict items
    then Ok (map (fun x => MongoSampleUser.field_of_item (as_dict x)) items)
    else Raise AttributeError.
Proof.
  induction items as [|x items IH]; [reflexivity|].
  destruct x; cbn [MongoSampleUser.load_items forallb is_dict andb map as_dict];
    try reflexivity.
  rewrite IH. destruct (forallb is_dict items); reflexivity.
Qed.

(** X14.  The loader succeeds on a JSON array exactly when every element is
    an object; any other element makes it raise [AttributeError].  At top
    level, [null], a boolean or a number raises [TypeError]; an object or a
    string raises [AttributeError] unless it is empty, in which case the
    schema is empty. *)
Theorem load_schema_shapes :
  (forall items,
      MongoSampleUser._load_schema (PyList items) =
        if forallb is_dict items
        then Ok (map (fun x => MongoSampleUser.field_of_item (as_dict x)) items)
        else Raise AttributeError)
  /\ MongoSampleUser._load_schema PyNone = Raise TypeError
  /\ (forall b, MongoSampleUser._load_schema (PyBool b) = Raise TypeError)
  /\ (forall z, MongoSampleUser._load_schema (PyInt z) = Raise TypeError)
  /\ (forall d, MongoSampleUser._load_schema (PyDict d) =
                match d with [] => Ok [] | _ => Raise AttributeError end)
  /\ (forall s, MongoSampleUser._load_schema (PyStr s) =
                match s with EmptyString => Ok [] | _ => Raise AttributeError end).
Proof.
  split; [|split; [|split; [|split; [|split]]]]; try reflexivity.
  - intros items. unfold MongoSampleUser._load_schema. cbn [MongoSampleUser.iterate].
    apply load_items_spec.
  - intros [|[k v] d]; reflexivity.
  - intros [|c s]; reflexivity.
Qed.

(** ** settings.py *)

Lemma assign_keys (key : string) (value : pyval) (d : list (string * pyval)) :
  In key (map fst d) -> map fst (SettingsModule.assign key value d) = map fst d.
Proof.
  induction d as [|[k v] d IH]; [intros []|].
  cbn [map fst SettingsModule.assign]. intros Hin.
  destruct (String.eqb k key) eqn:E; [reflexivity|].
  cbn [map fst]. f_equal. apply IH. destruct Hin as [H|H]; [|exact H].
  subst. rewrite String.eqb_refl in E. discriminate.
Qed.

Lemma assign_find (key key' : string) (value : pyval) (d : list (string * pyval)) :
  In key (map fst d) ->
  MongoSampleUser.item_find key' (SettingsModule.assign key value d) =
    if String.eqb key key' then Some value else MongoSampleUser.item_find key' d.
Proof.
  induction d as [|[k v] d IH]; [intros []|].
  cbn [map fst SettingsModule.assign MongoSampleUser.item_find]. intros Hin.
  destruct (String.eqb k key) eqn:E.
  - apply String.eqb_eq in E. subst k. cbn [MongoSampleUser.item_find].
    destruct (String.eqb key key'); reflexivity.
  - cbn [MongoSampleUser.item_find]. destruct (String.eqb k key') eqn:E'.
    + apply String.eqb_eq in E'. subst key'.
      rewrite String.eqb_sym, E. reflexivity.
    + apply IH. destruct Hin as [H|H]; [|exact H].
      subst. rewrite String.eqb_refl in E. discriminate.
Qed.

Lemma override_keys environ (d : list (string * pyval)) (key : string) :
  In key (map fst d) -> map fst (SettingsModule.override environ d key) = map fst d.
Proof.
  intros Hin. unfold SettingsModule.override.
  destruct (environ key) as [v|]; [|reflexivity].
  destruct (truthy (PyStr v)); [now apply assign_keys|reflexivity].
Qed.

Lemma overrides_spec environ (keys : list string) :
  forall d,
    (forall k, In k keys -> In k (map fst d)) ->
    map fst (fold_left (SettingsModule.override environ) keys d) = map fst d
    /\ forall key,
        MongoSampleUser.item_find key (fold_left (SettingsModule.override environ) keys d) =
          match environ key with
          | Some (String c s) =>
              if existsb (String.eqb key) keys then Some (PyStr (String c s))
              else MongoSampleUser.item_find key d
          | _ => MongoSampleUser.item_find key d
          end.
Proof.
  induction keys as [|k keys IH]; intros d Hsub.
  - cbn. split; [reflexivity|]. intros key. destruct (environ key) as [[|c s]|]; reflexivity.
  - cbn [fold_left].
    assert (Hk : In k (map fst d)) by (apply Hsub; now left).
    pose proof (override_keys environ d k Hk) as Hkeys.
    destruct (IH (SettingsModule.override environ d k)) as [IHk IHf].
    { intros k' Hk'. rewrite Hkeys. apply Hsub. now right. }
    split; [now rewrite IHk|].
    intros key. rewrite IHf. cbn [existsb].
    unfold SettingsModule.override.
    destruct (String.eqb key k) eqn:E.
    + apply String.eqb_eq in E. subst k. cbn [orb].
      destruct (environ key) as [[|c s]|] eqn:Ee; try reflexivity.
      cbn [truthy]. rewrite assign_find by assumption. rewrite String.eqb_refl.
      destruct (existsb (String.eqb key) keys); reflexivity.
    + cbn [orb].
      assert (Hsame : MongoSampleUser.item_find key
                        match environ k with
                        | Some value =>
                            if truthy (PyStr value)
                            then SettingsModule.assign k (PyStr value) d else d
                        | None => d
                        end = MongoSampleUser.item_find key d).
      { destruct (environ k) as [v|]; [|reflexivity].
        destruct (truthy (PyStr v)); [|reflexivity].
        rewrite assign_find by assumption. rewrite String.eqb_sym, E. reflexivity. }
      rewrite Hsame. reflexivity.
Qed.

(** X15. [init_defaults_from_env] never adds, removes or reorders a key of
    the defaults; a key whose environment variable is set to a non-empty
    string gets that string as its value, and every other key (variable
    unset, or set to the empty string) keeps its default. *)
Theorem init_defaults_from_env_spec :
  forall (environ : string -> option string) (defaults : list (string * pyval)),
    map fst (SettingsModule.init_defaults_from_env environ defaults) = map fst defaults
    /\ forall key,
        In key (map fst defaults) ->
        MongoSampleUser.item_find key (SettingsModule.init_defaults_from_env environ defaults) =
          match environ key with
          | Some (String c s) => Some (PyStr (String c s))
          | _ => MongoSampleUser.item_find key defaults
          end.
Proof.
  intros environ defaults. unfold SettingsModule.init_defaults_from_env.
  destruct (overrides_spec environ (map fst defaults) defaults (fun k H => H))
    as [Hkeys Hfind].
  split; [exact Hkeys|]. intros key Hin. rewrite Hfind.
  assert (He : existsb (String.eqb key) (map fst defaults) = true).
  { apply existsb_exists. exists key. split; [exact Hin|apply String.eqb_refl]. }
  rewrite He. reflexivity.
Qed.

(** ** The check of the allowed values *)

Lemma set_add_keeps (x y : pyval) (acc : list pyval) :
  existsb (key_eqb y) acc = true -> existsb (key_eqb y) (set_add x acc) = true.
Proof.
  induction acc as [|a acc IH]; [discriminate|].
  cbn [set_add]. destruct (key_eqb a x); [auto|].
  cbn [existsb]. intros H. apply orb_true_iff in H. apply orb_true_iff.
  destruct H; auto.
Qed.

Lemma set_add_has (x : pyval) (acc : list pyval) :
  hashable x = true -> existsb (key_eqb x) (set_add x acc) = true.
Proof.
  intros Hx. induction acc as [|a acc IH]; cbn [set_add].
  - cbn. now rewrite key_eqb_refl.
  - destruct (key_eqb a x) eqn:E; cbn [existsb].
    + now rewrite key_eqb_sym, E.
    + rewrite IH. apply orb_true_r.
Qed.

Lemma set_of_list_mem (l : list pyval) :
  forall acc s,
    set_of_list l acc = Ok s ->
    (forall x, In x l -> hashable x = true /\ existsb (key_eqb x) s = true)
    /\ (forall x, existsb (key_eqb x) acc = true -> existsb (key_eqb x) s = true).
Proof.
  induction l as [|a l IH]; intros acc s Hs; cbn in Hs.
  - inversion Hs; subst. split; [intros x []|auto].
  - destruct (hashable a) eqn:Ha; [|discriminate].
    destruct (IH _ _ Hs) as [Hin Hacc]. split.
    + intros x [<-|Hx]; [|auto]. split; [exact Ha|].
      apply Hacc. now apply set_add_has.
    + intros x Hx. apply Hacc. now apply set_add_keeps.
Qed.

Lemma choice_list_ok_In {A} (l : list A) (t t' : Tape) (v : A) :
  random.choice_list l t = (Ok v, t') -> In v l.
Proof.
  intros H. destruct l as [|a l]; [cbn in H; discriminate|].
  destruct (choice_list_In (a :: l) t) as (x & Hx & Hin); [discriminate|].
  rewrite Hx in H. inversion H; subst. exact Hin.
Qed.

(** A value drawn from the enumeration is in the set built from it. *)
Lemma choice_member (av v : pyval) (t t' : Tape) (allowed : list pyval) :
  random.choice av t = (Ok v, t') ->
  py_set av = Ok allowed ->
  set_mem v allowed = Ok true.
Proof.
  intros Hc Hs. unfold set_mem.
  destruct av; cbn [random.choice py_set] in Hc, Hs; try discriminate.
  - (* a string *)
    unfold bind in Hc.
    destruct (random.choice_list (list_ascii_of_string s) t) as [[c|e] t1] eqn:Hl;
      [|discriminate].
    unfold ret in Hc. inversion Hc; subst v t'. clear Hc.
    apply choice_list_ok_In in Hl.
    destruct (set_of_list_mem _ _ _ Hs) as [Hin _].
    destruct (Hin (PyStr (String c EmptyString))) as [Hh Hm].
    { now apply (in_map (fun c => PyStr (String c EmptyString))). }
    rewrite Hh, Hm. reflexivity.
  - (* a list *)
    apply choice_list_ok_In in Hc.
    destruct (set_of_list_mem _ _ _ Hs) as [Hin _].
    destruct (Hin v Hc) as [Hh Hm]. rewrite Hh, Hm. reflexivity.
  - (* a dict *)
    destruct d; [discriminate|]. unfold bind, random._randbelow, raise in Hc.
    cbn in Hc. discriminate.
Qed.

Lemma gen_value_enumerated (f : SchemaField) s v s' :
  truthy (allowed_values f) = true ->
  SchemaGenerator._gen_value f s = (Ok v, s') ->
  exists t t', random.choice (allowed_values f) t = (Ok v, t').
Proof.
  intros Htr. destruct s as [g w]. unfold SchemaGenerator._gen_value.
  rewrite Htr, on_world_draw. intros H. inversion H.
  exists (rng w), (snd (random.choice (allowed_values f) (rng w))).
  now destruct (random.choice (allowed_values f) (rng w)).
Qed.

Lemma distinct_keys_remove (l1 l2 : list pyval) (k : pyval) :
  distinct_keys (l1 ++ k :: l2) = true -> distinct_keys (l1 ++ l2) = true.
Proof.
  induction l1 as [|a l1 IH]; cbn [app distinct_keys].
  - intros H. apply andb_true_iff in H. tauto.
  - intros H. apply andb_true_iff in H. destruct H as [Ha Hrest].
    rewrite forallb_app in Ha. apply andb_true_iff in Ha. destruct Ha as [Ha1 Ha2].
    cbn [forallb] in Ha2. apply andb_true_iff in Ha2.
    rewrite forallb_app, Ha1, (proj2 Ha2). cbn [andb]. now apply IH.
Qed.

Lemma check_allowed_accepts (am : Dict.t (list pyval)) (doc : Document) :
  accepted am doc -> SchemaGenerator._check_allowed am doc = Ok tt.
Proof.
  induction 1 as [|[k allowed] am Hk _ IH]; [reflexivity|].
  cbn [SchemaGenerator._check_allowed]. cbn [fst snd] in Hk.
  destruct (Dict.find k doc) as [v|]; [|exact IH].
  now rewrite (Hk v eq_refl).
Qed.

Lemma accepted_store (am : Dict.t (list pyval)) (doc : Document) (k v : pyval) :
  accepted am doc ->
  forallb (fun k' => negb (key_eqb k' k)) (map fst am) = true ->
  accepted am (Dict.store k v doc).
Proof.
  intros Hacc Hk. unfold accepted in *. rewrite Forall_forall in *.
  intros entry Hin v0 Hv. apply (Hacc entry Hin).
  rewrite <- Hv. symmetry. apply DictFacts.find_store_other.
  rewrite forallb_forall in Hk. specialize (Hk (fst entry) (in_map fst _ _ Hin)).
  apply negb_true_iff in Hk. now rewrite key_eqb_sym.
Qed.

Lemma collect_and_generate (fields : list SchemaField) :
  forall fd am fd' am' doc0 s doc s',
    SchemaGenerator.collect_defs fields fd am = Ok (fd', am') ->
    SchemaGenerator.gen_fields fields doc0 s = (Ok doc, s') ->
    distinct_keys (map fst am ++ map name fields) = true ->
    accepted am doc0 ->
    accepted am' doc.
Proof.
  induction fields as [|f rest IH]; intros fd am fd' am' doc0 s doc s' Hc Hg Hd Hacc.
  - cbn in Hc, Hg. unfold ret in Hg. inversion Hc; inversion Hg; subst. exact Hacc.
  - cbn [map] in Hd.
    pose proof (distinct_keys_before _ _ _ Hd) as Hbefore.
    cbn [SchemaGenerator.collect_defs] in Hc. unfold Dict.setitem in Hc.
    rewrite gen_fields_cons in Hg. unfold bind at 1 in Hg.
    destruct (SchemaGenerator._gen_value f s) as [[v|e] s1] eqn:Hv; [|discriminate].
    unfold bind at 1, lift, Dict.setitem in Hg.
    destruct (hashable (name f)) eqn:Hh; [|discriminate].
    pose proof (accepted_store am doc0 (name f) v Hacc Hbefore) as Hacc1.
    destruct (truthy (allowed_values f)) eqn:Htr.
    + destruct (py_set (allowed_values f)) as [allowed|e] eqn:Es; [|discriminate].
      apply (IH _ _ _ _ _ _ _ _ Hc Hg).
      * rewrite (store_absent _ _ _ Hbefore), map_app, <- app_assoc. exact Hd.
      * rewrite (store_absent _ _ _ Hbefore). apply Forall_app. split; [exact Hacc1|].
        constructor; [|constructor]. cbn [fst snd]. intros v0 Hv0.
        rewrite DictFacts.find_store_same in Hv0 by assumption.
        inversion Hv0; subst v0.
        destruct (gen_value_enumerated f s v s1 Htr Hv) as (t & t' & Hch).
        exact (choice_member _ _ _ _ _ Hch Es).
    + apply (IH _ _ _ _ _ _ _ _ Hc Hg); [|exact Hacc1].
      now apply distinct_keys_remove in Hd.
Qed.

(** X16.  When no two fields of the schema share a name, every document
    the generator produces passes the check of the allowed values that
    [__init__] builds for the validation model: the check returns the
    document and raises nothing. *)
Theorem generated_documents_pass_check :
  forall g w doc s' field_defs allowed_map,
    SchemaGenerator.generate (g, w) = (Ok doc, s') ->
    distinct_keys (map name (SchemaGenerator.spec g)) = true ->
    SchemaGenerator.collect_defs (SchemaGenerator.spec g) Dict.empty Dict.empty
    = Ok (field_defs, allowed_map) ->
    SchemaGenerator.check_allowed allowed_map doc = Ok doc.
Proof.
  intros g w doc s' fd am Hgen Hd Hc.
  apply generate_ok_inv in Hgen. cbn [fst] in Hgen.
  unfold SchemaGenerator.check_allowed.
  rewrite (check_allowed_accepts am doc); [reflexivity|].
  apply (collect_and_generate _ _ _ _ _ _ _ _ _ Hc Hgen); [exact Hd|constructor].
Qed.

(** ** Ids are not reused after a failure *)

(** X17.  One call of [generate], whether it returns a document or raises
    (at another field, or in validation), leaves the counter of a unique
    integer field with no non-empty [allowed_values], whose name no other
    field of the schema shares and whose counter is present, where it was
    or one above, and one above whenever a document is returned: an id
    that was handed out is never handed out again. *)
Theorem counter_never_goes_back :
  forall (field : SchemaField) (pre post : list SchemaField) g w c,
    eq_str (ftype field) "int" = true ->
    unique field = true ->
    truthy (allowed_values field) = false ->
    forallb (fun n => negb (key_eqb n (name field))) (map name (pre ++ post)) = true ->
    SchemaGenerator.spec g = pre ++ field :: post ->
    Dict.find (name field) (SchemaGenerator._unique_counters g) = Some c ->
    let c' := Dict.find (name field)
                (SchemaGenerator._unique_counters
                   (fst (snd (SchemaGenerator.generate (g, w))))) in
    (c' = Some c \/ c' = Some (c + 1))
    /\ (forall doc, fst (SchemaGenerator.generate (g, w)) = Ok doc -> c' = Some (c + 1)).
Proof.
  intros field pre post g w c Hty Hu Hfree Hothers Hspec Hc. cbv zeta.
  split.
  - cut (exists x, Dict.find (name field)
                     (SchemaGenerator._unique_counters
                        (fst (snd (SchemaGenerator.generate (g, w))))) = Some x
                   /\ (x = c \/ x = c + 1)).
    { intros (x & Hx & [E|E]); rewrite Hx, E; auto. }
    rewrite generate_state. cbn [fst]. rewrite Hspec, gen_fields_app.
    rewrite map_app, forallb_app in Hothers.
    apply andb_true_iff in Hothers. destruct Hothers as [Hpre Hpost].
    pose proof (DictFacts.find_hashable _ _ _ Hc) as Hk.
    unfold bind at 1.
    pose proof (gen_fields_untouched pre Dict.empty (g, w)) as U1.
    destruct (SchemaGenerator.gen_fields pre Dict.empty (g, w)) as [[d1|e] [g1 w1]];
      destruct U1 as (_ & _ & _ & _ & _ & F1); cbn [fst snd] in *;
      destruct (F1 _ Hpre) as [C1 _]; rewrite Hc in C1; [|eauto].
    rewrite gen_fields_cons.
    rewrite (bind_ok _ _ _ _ _ (gen_unique_step field Hty Hu Hfree g1 w1 c C1)).
    unfold bind at 1, lift, Dict.setitem. rewrite Hk.
    set (g2 := SchemaGenerator.set_counters g1 _).
    match goal with
    | |- context [SchemaGenerator.gen_fields post ?d (g2, w1)] =>
        pose proof (gen_fields_untouched post d (g2, w1)) as U2
    end.
    destruct U2 as (_ & _ & _ & _ & _ & F2). destruct (F2 _ Hpost) as [C2 _].
    cbn [fst snd] in C2 |- *. exists (c + 1). split; [|now right].
    rewrite C2. unfold g2. cbn. now apply DictFacts.find_store_same.
  - intros doc Hdoc.
    destruct (SchemaGenerator.generate (g, w)) as [r s'] eqn:Hgen. cbn [fst snd] in *.
    subst r.
    exact (proj1 (proj2 (generate_unique_entry field pre post Hty Hu Hfree Hothers
                           g w c doc s' Hspec Hc Hgen))).
Qed.

(** ** Tasks before the worker is started *)

(** X18.  On a worker that has no generator yet, the single insert raises
    [RuntimeError] and so does the bulk insert for any batch size of at
    least one, without a call on the store, a draw or a change of the
    worker; with a batch size of zero or less the bulk insert generates
    nothing, leaves the cache alone and hands the store an empty batch
    (what the store client makes of it is outside the embedding). *)
Theorem tasks_without_generator :
  forall u w,
    MongoSampleUser.generator u = None ->
    MongoSampleUser.insert_single_document (u, w) = (Raise RuntimeError, (u, w))
    /\ (forall n, 1 <= n ->
                  MongoSampleUser.insert_documents_bulk n (u, w)
                  = (Raise RuntimeError, (u, w)))
    /\ (forall n, n <= 0 ->
                  MongoSampleUser.insert_documents_bulk n (u, w)
                  = (Ok tt, (u, with_calls w (calls w ++ [InsertMany Primary []])))).
Proof.
  intros u w Hg.
  assert (Hgen : MongoSampleUser.generate_new_document (u, w)
                 = (Raise RuntimeError, (u, w))).
  { unfold MongoSampleUser.generate_new_document.
    rewrite (bind_ok (on_self get) _ (u, w) (u, w) u eq_refl). now rewrite Hg. }
  split; [|split].
  - unfold MongoSampleUser.insert_single_document.
    now rewrite (bind_raise _ _ _ _ _ Hgen).
  - intros n Hn. unfold MongoSampleUser.insert_documents_bulk.
    apply bind_raise. unfold range.
    destruct (Z.to_nat n) as [|m] eqn:E; [lia|].
    cbn [seq map comprehension]. now rewrite (bind_raise _ _ _ _ _ Hgen).
  - intros n Hn. unfold MongoSampleUser.insert_documents_bulk, range.
    replace (Z.to_nat n) with O by lia. cbn [seq map comprehension].
    unfold bind, ret. cbn [for_each]. unfold ret, on_world, zoom, emit, modify.
    cbn. reflexivity.
Qed.

(** ** The further properties at concrete inputs *)

(** A run whose result is computed: the state is the one the run leaves. *)
Ltac computed_run :=
  apply injective_projections; [vm_compute; reflexivity|reflexivity].

Lemma batch_ids_distinct_witness :
  map (Dict.find (PyStr "ID"))
      [[(PyStr "STATUS", PyStr "OPEN"); (PyStr "ID", PyInt 42000001);
        (PyStr "NOTE", PyStr "AAAAAAAA")];
       [(PyStr "STATUS", PyStr "OPEN"); (PyStr "ID", PyInt 42000002);
        (PyStr "NOTE", PyStr "AAAAAAAA")]]
  = [Some (PyInt 42000001); Some (PyInt 42000002)].
Proof.
  refine (proj1 (batch_ids_distinct id_field [status_field] [plain_field "NOTE" "string"]
                   eq_refl eq_refl eq_refl eq_refl 2 order_generator (world_of []) 0
                   _ (snd (generate_batch 2 (order_generator, world_of [])))
                   eq_refl eq_refl _)).
  computed_run.
Defined.

Lemma generate_keys_in_schema_order_witness :
  map fst [(PyStr "STATUS", PyStr "OPEN"); (PyStr "ID", PyInt 42000001);
           (PyStr "NOTE", PyStr "AAAAAAAA")]
  = [PyStr "STATUS"; PyStr "ID"; PyStr "NOTE"].
Proof.
  refine (proj2 (generate_keys_in_schema_order order_generator (world_of [])
                   _ (snd (SchemaGenerator.generate (order_generator, world_of []))) _)
                eq_refl).
  computed_run.
Defined.

Lemma cache_never_holds_none_witness :
  Forall (fun x => is_none x = false)
         (MongoSampleUser.id_cache
            (fst (run_tasks [TaskInsert; TaskBulk 2; TaskFind] (fresh_user, world_of []))))
  /\ exists key,
      is_none key = false
      /\ In key (MongoSampleUser.id_cache full_user)
      /\ calls (snd (snd (MongoSampleUser.find_document (full_user, world_of [])))) =
         calls (world_of []) ++ [FindOne Primary (PyDict [("RECON_RECORD_ID", key)])].
Proof.
  destruct cache_never_holds_none as [Hinv Hfind]. split.
  - apply Hinv. constructor.
  - apply Hfind; [|discriminate].
    apply Forall_forall. intros x Hx. apply repeat_spec in Hx. now subst.
Defined.

Lemma insert_then_find_witness :
  exists doc u0 w0,
    MongoSampleUser.generate_new_document (fresh_user, world_of []) = (Ok doc, (u0, w0))
    /\ calls (snd (snd (MongoSampleUser.insert_single_document
                          (fresh_user, world_of []))))
       = calls (world_of []) ++ [InsertOne Primary doc].
Proof.
  destruct (insert_then_find fresh_user (world_of [])
              (fst (snd (MongoSampleUser.insert_single_document (fresh_user, world_of []))))
              (snd (snd (MongoSampleUser.insert_single_document (fresh_user, world_of []))))
              eq_refl) as (doc & u0 & w0 & Hgen & Hcalls & _).
  - apply injective_projections; [vm_compute; reflexivity|].
    cbn [snd]. apply surjective_pairing.
  - exists doc, u0, w0. split; [exact Hgen|exact Hcalls].
Defined.

Lemma generator_construction_witness :
  (exists g,
      SchemaGenerator.__init__ None [id_field; slot_field] (world_of [41%N])
      = (Ok g, with_rng (world_of [41%N]) (snd (next_cell (rng (world_of [41%N])))))
      /\ SchemaGenerator.spec g = [id_field; slot_field])
  /\ SchemaGenerator.__init__ None [list_named_field] (world_of [41%N])
     = (Raise TypeError,
        with_rng (world_of [41%N]) (snd (next_cell (rng (world_of [41%N])))))
  /\ SchemaGenerator.__init__ None [id_field; huge_negative_slot_field]
       (world_of [41%N])
     = (Raise OverflowError,
        with_rng (world_of [41%N]) (snd (next_cell (rng (world_of [41%N]))))).
Proof.
  split; [|split].
  - destruct (proj1 (generator_construction [id_field; slot_field] (world_of [41%N]))
                    eq_refl) as (g & Hg & Hs & _).
    exists g. auto.
  - exact (proj1 (proj2 (generator_construction [list_named_field] (world_of [41%N])))
                 list_named_field eq_refl None).
  - exact (proj1 (proj2 (generator_construction [id_field; huge_negative_slot_field]
                           (world_of [41%N])))
                 huge_negative_slot_field eq_refl None).
Defined.

Lemma distinct_seeds_distinct_values_witness :
  exists z1 z2,
    fst (SchemaGenerator._gen_value id_field
           (generator_of [id_field] 1 [(PyStr "ID", 999999)] [], world_of []))
    = Ok (PyInt z1)
    /\ fst (SchemaGenerator._gen_value id_field
              (generator_of [id_field] 2 [(PyStr "ID", 0)] [], world_of []))
       = Ok (PyInt z2)
    /\ z1 <> z2.
Proof.
  apply (distinct_seeds_distinct_values id_field id_field _ _ _ _ 999999 0);
    try reflexivity; cbn; lia.
Defined.

Lemma foreign_field_raises_KeyError_witness :
  SchemaGenerator._gen_value id_field
    (generator_of [slot_field] 42 [] [(PyStr "SLOT", [3; 4; 0; 1; 2])], world_of [])
  = (Raise KeyError,
     (generator_of [slot_field] 42 [] [(PyStr "SLOT", [3; 4; 0; 1; 2])], world_of []))
  /\ SchemaGenerator._gen_value list_named_field
       (generator_of [slot_field] 42 [] [(PyStr "SLOT", [3; 4; 0; 1; 2])], world_of [])
     = (Raise TypeError,
        (generator_of [slot_field] 42 [] [(PyStr "SLOT", [3; 4; 0; 1; 2])],
         world_of [])).
Proof.
  split.
  - refine (foreign_field_raises_KeyError None [slot_field] (world_of [41%N]) _ _
              id_field (world_of []) eq_refl _ eq_refl eq_refl (or_introl eq_refl)).
    intros x [<-|[]]. reflexivity.
  - refine (foreign_field_raises_KeyError None [slot_field] (world_of [41%N]) _ _
              list_named_field (world_of []) eq_refl _ eq_refl eq_refl
              (or_introl eq_refl)).
    intros x [<-|[]]. reflexivity.
Defined.

Lemma negative_range_raises_IndexError_witness :
  SchemaGenerator._gen_value negative_slot_field
    (generator_of [negative_slot_field] 42 [] [(PyStr "SLOT", [])], world_of [])
  = (Raise IndexError,
     (generator_of [negative_slot_field] 42 [] [(PyStr "SLOT", [])], world_of [])).
Proof.
  refine (proj2 (negative_range_raises_IndexError None [negative_slot_field]
                   (world_of [41%N]) _ _ negative_slot_field (-3) (world_of [])
                   eq_refl (or_introl eq_refl) _ eq_refl eq_refl eq_refl eq_refl eq_refl)).
  intros f' [<-|[]] _ _. reflexivity.
Defined.

Lemma unique_range_closed_form_witness :
  exists g',
    gen_values slot_field 7
      (generator_of [slot_field] 42 [] [(PyStr "SLOT", [3; 4; 0; 1; 2])], world_of [])
    = (Ok [PyInt 3; PyInt 4; PyInt 0; PyInt 1; PyInt 2; PyInt 3; PyInt 4],
       (g', world_of [])).
Proof.
  refine (proj1 (unique_range_closed_form slot_field 5 eq_refl eq_refl eq_refl eq_refl
                   eq_refl None [slot_field] (world_of [41%N]) _ _ (world_of []) 7
                   eq_refl (or_introl eq_refl) _)).
  intros f' [<-|[]] _ _. reflexivity.
Defined.

Lemma type_policies_witness :
  exists z,
    SchemaGenerator._gen_value hits_field
      (generator_of [hits_field] 1 [] [], world_of [0%N; 17%N])
    = (Ok (PyInt z),
       (generator_of [hits_field] 1 [] [],
        with_rng (world_of [0%N; 17%N]) (advance (rng (world_of [0%N; 17%N])) 2)))
    /\ 0 <= z <= 9 /\ z = 7.
Proof.
  destruct (type_policies hits_field (generator_of [hits_field] 1 [] [])
              (world_of [0%N; 17%N]) eq_refl) as [H _].
  destruct (H eq_refl eq_refl eq_refl eq_refl) as (z & Hrun & Hz).
  exists z. split; [exact Hrun|]. cbn in Hz. lia.
Defined.

Lemma library_rejects_non_string_name_witness :
  SchemaGenerator.__init__ (Some permissive_library) [nameless_field] (world_of [])
  = (Raise TypeError, with_rng (world_of []) (snd (next_cell (rng (world_of []))))).
Proof.
  exact (library_rejects_non_string_name permissive_library [nameless_field]
           (world_of []) nameless_field (or_introl eq_refl) eq_refl eq_refl
           (or_intror (fun check => ex_intro _ check eq_refl))).
Defined.

Lemma on_start_all_or_nothing_witness :
  MongoSampleUser.id_cache
    (fst (snd (MongoSampleUser.on_start None
                 (PyList [PyDict [("name", PyStr "ID"); ("type", PyStr "int");
                                  ("unique", PyBool true)]])
                 (full_user, world_of [])))) = []
  /\ fst (snd (MongoSampleUser.on_start None (PyInt 3) (full_user, world_of [])))
     = full_user.
Proof.
  split.
  - destruct (on_start_all_or_nothing None
                (PyList [PyDict [("name", PyStr "ID"); ("type", PyStr "int");
                                 ("unique", PyBool true)]])
                full_user (world_of [])) as (Hok & _).
    exact (proj1 (Hok eq_refl)).
  - destruct (on_start_all_or_nothing None (PyInt 3) full_user (world_of []))
      as (_ & Hfail & _).
    exact (Hfail TypeError eq_refl).
Defined.

Lemma init_defaults_from_env_spec_witness :
  MongoSampleUser.item_find "DOCS_PER_BATCH"
    (SettingsModule.init_defaults_from_env sample_environ SettingsModule.DEFAULTS)
  = Some (PyStr "50")
  /\ MongoSampleUser.item_find "FIND_WEIGHT"
       (SettingsModule.init_defaults_from_env sample_environ SettingsModule.DEFAULTS)
     = Some (PyInt 0)
  /\ MongoSampleUser.item_find "DB_NAME"
       (SettingsModule.init_defaults_from_env sample_environ SettingsModule.DEFAULTS)
     = Some (PyStr "irec_performance_testing").
Proof.
  destruct (init_defaults_from_env_spec sample_environ SettingsModule.DEFAULTS)
    as [_ H].
  split; [|split].
  - apply (H "DOCS_PER_BATCH"). cbn. tauto.
  - apply (H "FIND_WEIGHT"). cbn. tauto.
  - apply (H "DB_NAME"). cbn. tauto.
Defined.

Lemma generated_documents_pass_check_witness :
  SchemaGenerator.check_allowed
    [(PyStr "STATUS", [PyStr "OPEN"; PyStr "CLOSED"])]
    [(PyStr "STATUS", PyStr "OPEN"); (PyStr "ID", PyInt 42000001);
     (PyStr "NOTE", PyStr "AAAAAAAA")]
  = Ok [(PyStr "STATUS", PyStr "OPEN"); (PyStr "ID", PyInt 42000001);
        (PyStr "NOTE", PyStr "AAAAAAAA")].
Proof.
  refine (generated_documents_pass_check order_generator (world_of []) _
            (snd (SchemaGenerator.generate (order_generator, world_of [])))
            [(PyStr "STATUS", py_str); (PyStr "ID", py_int); (PyStr "NOTE", py_str)]
            _ _ eq_refl eq_refl).
  computed_run.
Defined.

Lemma tasks_keep_cache_bounded_witness :
  len (MongoSampleUser.id_cache
         (fst (run_tasks [TaskBulk 3; TaskInsert; TaskFind; TaskAggregate]
                         (full_user, world_of []))))
  <= IDS_TO_CACHE.
Proof.
  apply (tasks_keep_cache_bounded [TaskBulk 3; TaskInsert; TaskFind; TaskAggregate]
           (full_user, world_of [])).
  vm_compute. discriminate.
Defined.

Lemma counter_never_goes_back_witness :
  Dict.find (PyStr "ID")
    (SchemaGenerator._unique_counters
       (fst (snd (SchemaGenerator.generate (order_generator, world_of [])))))
  = Some 1.
Proof.
  destruct (counter_never_goes_back id_field [status_field] [plain_field "NOTE" "string"]
              order_generator (world_of []) 0 eq_refl eq_refl eq_refl eq_refl
              eq_refl eq_refl) as [_ H].
  apply (H [(PyStr "STATUS", PyStr "OPEN"); (PyStr "ID", PyInt 42000001);
            (PyStr "NOTE", PyStr "AAAAAAAA")]).
  vm_compute. reflexivity.
Defined.

Lemma tasks_without_generator_witness :
  MongoSampleUser.insert_single_document (MongoSampleUser.__init__, world_of [])
  = (Raise RuntimeError, (MongoSampleUser.__init__, world_of []))
  /\ MongoSampleUser.insert_documents_bulk 1000 (MongoSampleUser.__init__, world_of [])
     = (Raise RuntimeError, (MongoSampleUser.__init__, world_of []))
  /\ MongoSampleUser.insert_documents_bulk 0 (MongoSampleUser.__init__, world_of [])
     = (Ok tt, (MongoSampleUser.__init__,
                with_calls (world_of []) (calls (world_of []) ++ [InsertMany Primary []]))).
Proof.
  destruct (tasks_without_generator MongoSampleUser.__init__ (world_of []) eq_refl)
    as (H1 & H2 & H3).
  split; [exact H1|]. split; [apply H2; lia|apply H3; lia].
Defined.
